(** * Behavior-flow analytics: the [BehaviorAnalyzer] class of [src/script.js]

    A shallow embedding of the signal-collection and behavioural-scoring
    pipeline: the event handlers that fill the sample buffers, the metric
    extraction, and the rule-based trait / insight classifier.

    Numbers.  A JavaScript number is an IEEE 754 binary64 value, which is
    what the kernel's primitive [float] is; arithmetic, comparisons,
    [Math.sqrt] and [Math.abs] are the primitive operations, so NaN,
    the infinities and signed zeros behave as they do in the browser.
    Millisecond timestamps ([Date.now()]) and array lengths are integers;
    they are kept in [Z] / [nat], on which JavaScript arithmetic is exact
    below 2^53, and enter floating point where the source divides them.

    Limits of the engine.  A call takes only so many arguments; how many
    depends on the engine and on the stack that is left.  The one spread
    call of the source, [Math.max(...array)], is given that number
    ([maxArguments]) as the analysis is given the clock reading, and
    throws a [RangeError] when the array is longer.

    Presentation.  [updateMetric] and [addTimelineEvent] only write text
    into the page and nothing reads it back; they are left out.  The
    heat-map container is kept, because [updateClickHeatmap] reads its
    child count.  The page is taken to contain the elements the code
    looks up by id and then uses unchecked ([#clickHeatmap],
    [#activityTimeline], [#mouseActivityProgress], [#personalityTraits],
    [#behaviorInsight]); the HTML is not part of the sources. *)

From Stdlib Require Import ZArith List Bool Lia String Floats.
From Stdlib Require Uint63.
From Stdlib Require Import Sorted Permutation.
Import ListNotations.

#[local] Set Warnings "-inexact-float".

(* ================================================================== *)
(** ** JavaScript numbers and built-ins *)

Module JS.
Local Open Scope float_scope.

(** An integer-valued number as a double (exact below 2^53). *)
Definition Z2F (z : Z) : float :=
  match z with
  | Z0 => 0
  | Zpos _ => of_uint63 (Uint63.of_Z z)
  | Zneg p => - of_uint63 (Uint63.of_Z (Zpos p))
  end.

(** [array.length] used as a number. *)
Definition of_length (n : nat) : float := Z2F (Z.of_nat n).

Definition Math_abs (a : float) : float := abs a.
Definition Math_sqrt (a : float) : float := sqrt a.

(** [Math.pow(b, 2)]: the square, [b * b]. *)
Definition Math_pow_2 (b : float) : float := b * b.

(** [Math.max(a, b)]: NaN if either is NaN, otherwise the larger, with
    +0 larger than -0. *)
Definition Math_max2 (a b : float) : float :=
  if is_nan a || is_nan b then nan
  else if a <? b then b
  else if b <? a then a
  else if get_sign a then b else a.

(** [Math.min(a, b)]: NaN if either is NaN, otherwise the smaller, with
    -0 smaller than +0. *)
Definition Math_min2 (a b : float) : float :=
  if is_nan a || is_nan b then nan
  else if a <? b then a
  else if b <? a then b
  else if get_sign a then a else b.

(** [Math.max(v1, ..., vn)] on the list of its arguments: starts from
    -Infinity. *)
Definition Math_max (values : list float) : float :=
  fold_left Math_max2 values neg_infinity.

(** [ToBoolean] of a number: 0, -0 and NaN are falsy. *)
Definition truthy (a : float) : bool := negb (is_zero a || is_nan a).

(** [v || d] where [v] is a number or [undefined] ([None]). *)
Definition or_default (v : option float) (d : float) : float :=
  match v with
  | Some a => if truthy a then a else d
  | None => d
  end.

(** The completion of an evaluation: a value, a thrown [TypeError]
    (property access on [undefined], [reduce] of an empty array with no
    initial value), or a thrown [RangeError] (a call with more arguments
    than the engine takes). *)
Inductive completion (A : Type) : Type :=
| Normal (a : A)
| TypeError
| RangeError.
Arguments Normal {A} a.
Arguments TypeError {A}.
Arguments RangeError {A}.

Definition bind {A B} (c : completion A) (k : A -> completion B) : completion B :=
  match c with
  | Normal a => k a
  | TypeError => TypeError
  | RangeError => RangeError
  end.

(** [f(...array)]: every element of [array] becomes an argument of the
    call.  With more than [maxArguments] elements the call throws a
    [RangeError] and [f] is not run. *)
Definition call_spread {A B} (maxArguments : nat) (f : list A -> B) (array : list A)
    : completion B :=
  if (List.length array <=? maxArguments)%nat then Normal (f array) else RangeError.

(** [array[i]] followed by a property access: [undefined.x] throws. *)
Definition get {A} (array : list A) (i : nat) : completion A :=
  match nth_error array i with
  | Some a => Normal a
  | None => TypeError
  end.

(** [array.reduce(f)] with no initial value. *)
Definition reduce1 {A} (f : A -> A -> A) (array : list A) : completion A :=
  match array with
  | [] => TypeError
  | a :: rest => Normal (fold_left f rest a)
  end.

(** [array.reduce(f, init)]. *)
Definition reduce {A B} (f : B -> A -> B) (init : B) (array : list A) : B :=
  fold_left f array init.

(** [for (let i = start; ...; i++) body], run for [count] iterations. *)
Fixpoint for_loop {S} (count start : nat) (body : nat -> S -> completion S) (s : S)
  : completion S :=
  match count with
  | O => Normal s
  | Datatypes.S count' => bind (body start s) (for_loop count' (Datatypes.S start) body)
  end.

(** [array.sort((a, b) => cmp(a, b))]: the stable ascending order of the
    comparator (ES2019), computed by insertion. *)
Fixpoint insert_by {A} (cmp : A -> A -> Z) (a : A) (sorted : list A) : list A :=
  match sorted with
  | [] => [a]
  | b :: rest => if (cmp a b <=? 0)%Z then a :: b :: rest else b :: insert_by cmp a rest
  end.

Fixpoint sort_by {A} (cmp : A -> A -> Z) (array : list A) : list A :=
  match array with
  | [] => []
  | a :: rest => insert_by cmp a (sort_by cmp rest)
  end.
End JS.

Import JS.

Declare Scope js_scope.
Delimit Scope js_scope with js.
Notation "'let*' x ':=' c 'in' k" := (JS.bind c (fun x => k))
  (at level 10, x name, c at level 100, k at level 200) : js_scope.
Open Scope js_scope.
Open Scope float_scope.

(* ================================================================== *)
(** ** Data model: the sample objects pushed into the buffers *)

(** An entry of [mouseData]. *)
Module PointerSample.
Record t := make { x : float; y : float; speed : float; timestamp : Z }.
End PointerSample.

(** An entry of [movementPoints]. *)
Module MovementPoint.
Record t := make { x : float; y : float; time : Z }.
End MovementPoint.

(** An entry of [clickData]. *)
Module ClickSample.
Record t := make { x : float; y : float; timestamp : Z; pressure : float }.
End ClickSample.

(** An entry of [scrollData]. *)
Module ScrollSample.
Record t := make { position : float; timestamp : Z; velocity : float }.
End ScrollSample.

(** The fields of [this]. *)
Record BehaviorAnalyzer := mkAnalyzer {
  mouseData : list PointerSample.t;
  clickData : list ClickSample.t;
  scrollData : list ScrollSample.t;
  sessionStart : Z;
  movementPoints : list MovementPoint.t;
  lastMousePosition : float * float;
  lastMoveTime : Z
}.

(** What the handlers read from their environment. *)
Record MouseEvent := mkMouseEvent {
  clientX : float;
  clientY : float;
  pressure : option float      (* [None]: the event has no such field *)
}.

Record Window := mkWindow {
  innerWidth : float;
  innerHeight : float;
  scrollY : float
}.

(** The heat-map container [#clickHeatmap]: its child nodes in document
    order.  [created] numbers the elements made by
    [document.createElement], which gives every cell its identity. *)
Record Element := mkElement { nodeId : nat; classList : list string }.

Inductive Node :=
| ElementNode (e : Element)
| TextNode (data : string).

Record Document := mkDocument {
  clickHeatmap : list Node;
  created : nat
}.

Record Page := mkPage {
  this : BehaviorAnalyzer;
  document : Document
}.

(** The derived metrics returned by [analyzeBehaviorPatterns]. *)
Record Patterns := mkPatterns {
  avgSpeed : float;
  clickFrequency : float;
  scrollIntensity : float;
  movementConsistency : float;
  decisionSpeed : float
}.

Record Trait := mkTrait { name : string; class : string }.

(* ================================================================== *)
(** ** The methods of [BehaviorAnalyzer] *)

(** [constructor()]: [Date.now()] is read twice, for [sessionStart] and
    for [lastMoveTime]. *)
Definition constructor (now now' : Z) : BehaviorAnalyzer :=
  {| mouseData := [];
     clickData := [];
     scrollData := [];
     sessionStart := now;
     movementPoints := [];
     lastMousePosition := (0, 0);
     lastMoveTime := now' |}.

(** The page right after [new BehaviorAnalyzer()], with [childNodes] the
    initial content of [#clickHeatmap]. *)
Definition startup (now now' : Z) (childNodes : list Node) : Page :=
  {| this := constructor now now';
     document := {| clickHeatmap := childNodes; created := 0 |} |}.

Definition calculateDistance (x1 y1 x2 y2 : float) : float :=
  Math_sqrt (Math_pow_2 (x2 - x1) + Math_pow_2 (y2 - y1)).

Definition handleMouseMove (now : Z) (window : Window) (event : MouseEvent)
    (this : BehaviorAnalyzer) : BehaviorAnalyzer :=
  let currentTime := now in
  let timeDiff := (currentTime - lastMoveTime this)%Z in
  if (50 <? timeDiff)%Z then
    let distance :=
      calculateDistance (fst (lastMousePosition this)) (snd (lastMousePosition this))
                        (clientX event) (clientY event) in
    let speed := distance / (Z2F timeDiff / 1000) in
    {| mouseData := mouseData this ++
         [ {| PointerSample.x := clientX event;
              PointerSample.y := clientY event;
              PointerSample.speed := speed;
              PointerSample.timestamp := currentTime |} ];
       clickData := clickData this;
       scrollData := scrollData this;
       sessionStart := sessionStart this;
       movementPoints := movementPoints this ++
         [ {| MovementPoint.x := clientX event / innerWidth window;
              MovementPoint.y := clientY event / innerHeight window;
              MovementPoint.time := currentTime |} ];
       lastMousePosition := (clientX event, clientY event);
       lastMoveTime := currentTime |}
  else this.

(** [heatmap.children]: the element children only. *)
Definition children (childNodes : list Node) : list Element :=
  flat_map (fun n => match n with ElementNode e => [e] | TextNode _ => [] end) childNodes.

(** [updateClickHeatmap(x, y)], called after the click was pushed. *)
Definition updateClickHeatmap (x y : float) (this : BehaviorAnalyzer) (doc : Document)
    : Document :=
  let heatmap := clickHeatmap doc in
  let intensity := Math_min2 (of_length (List.length (clickData this)) / 10) 1 in
  let cell :=
    {| nodeId := created doc;
       classList := if 0.7 <? intensity
                    then ["heatmap-cell"; "active"; "intense"]%string
                    else ["heatmap-cell"; "active"]%string |} in
  let heatmap := heatmap ++ [ElementNode cell] in
  let heatmap :=
    if (50 <? List.length (children heatmap))%nat then tl heatmap (* removeChild(firstChild) *)
    else heatmap in
  {| clickHeatmap := heatmap; created := S (created doc) |}.

Definition handleClick (now : Z) (event : MouseEvent) (page : Page) : Page :=
  let this' :=
    {| mouseData := mouseData (this page);
       clickData := clickData (this page) ++
         [ {| ClickSample.x := clientX event;
              ClickSample.y := clientY event;
              ClickSample.timestamp := now;
              ClickSample.pressure := or_default (pressure event) 0.5 |} ];
       scrollData := scrollData (this page);
       sessionStart := sessionStart (this page);
       movementPoints := movementPoints (this page);
       lastMousePosition := lastMousePosition (this page);
       lastMoveTime := lastMoveTime (this page) |} in
  {| this := this';
     document := updateClickHeatmap (clientX event) (clientY event) this' (document page) |}.

(** [calculateScrollVelocity()]: [last] and [prev] are the two entries at
    the end of [scrollData]. *)
Definition calculateScrollVelocity (this : BehaviorAnalyzer) : float :=
  match rev (scrollData this) with
  | last :: prev :: _ =>
      Math_abs (ScrollSample.position last - ScrollSample.position prev)
      / (Z2F (ScrollSample.timestamp last - ScrollSample.timestamp prev) / 1000)
  | _ => 0   (* [scrollData.length < 2] *)
  end.

(** [handleScroll()]: the object literal, and so the call of
    [calculateScrollVelocity], is evaluated before [push] runs. *)
Definition handleScroll (now : Z) (window : Window) (this : BehaviorAnalyzer)
    : BehaviorAnalyzer :=
  let entry :=
    {| ScrollSample.position := scrollY window;
       ScrollSample.timestamp := now;
       ScrollSample.velocity := calculateScrollVelocity this |} in
  {| mouseData := mouseData this;
     clickData := clickData this;
     scrollData := scrollData this ++ [entry];
     sessionStart := sessionStart this;
     movementPoints := movementPoints this;
     lastMousePosition := lastMousePosition this;
     lastMoveTime := lastMoveTime this |}.

(** [handleKeyPress(event)] only adds a timeline entry. *)
Definition handleKeyPress (key : string) (this : BehaviorAnalyzer) : BehaviorAnalyzer :=
  this.

(** The events the listeners are registered for, each with what its
    handler reads from the clock and the window. *)
Inductive Event :=
| mousemove (now : Z) (window : Window) (event : MouseEvent)
| click (now : Z) (event : MouseEvent)
| scroll (now : Z) (window : Window)
| keydown (key : string).

Definition dispatch (page : Page) (e : Event) : Page :=
  match e with
  | mousemove now window event =>
      {| this := handleMouseMove now window event (this page); document := document page |}
  | click now event => handleClick now event page
  | scroll now window =>
      {| this := handleScroll now window (this page); document := document page |}
  | keydown key =>
      {| this := handleKeyPress key (this page); document := document page |}
  end.

Definition run (events : list Event) (page : Page) : Page :=
  fold_left dispatch events page.

(* ------------------------------------------------------------------ *)
(** *** Metric extraction *)

Definition calculateMovementConsistency (this : BehaviorAnalyzer) : completion float :=
  let points := movementPoints this in
  if (List.length points <? 10)%nat then Normal 0.5 else
  let* speeds :=
    for_loop (List.length points - 1) 1
      (fun i speeds =>
         let* p := get points (i - 1) in
         let* q := get points i in
         let dist := calculateDistance (MovementPoint.x p) (MovementPoint.y p)
                                       (MovementPoint.x q) (MovementPoint.y q) in
         let timeDiff := (MovementPoint.time q - MovementPoint.time p)%Z in
         Normal (speeds ++ [dist / (Z2F timeDiff / 1000)]))
      [] in
  let* sum := reduce1 (fun a b => a + b) speeds in
  let avg := sum / of_length (List.length speeds) in
  let variance :=
    reduce (fun a b => a + Math_pow_2 (b - avg)) 0 speeds / of_length (List.length speeds) in
  Normal (Math_max2 0 (1 - variance / 10000)).

Definition calculateDecisionSpeed (this : BehaviorAnalyzer) : completion float :=
  if (List.length (clickData this) <? 2)%nat then Normal 0.5 else
  let times := sort_by (fun a b => a - b)%Z (map ClickSample.timestamp (clickData this)) in
  let* intervals :=
    for_loop (List.length times - 1) 1
      (fun i intervals =>
         let* t := get times i in
         let* t' := get times (i - 1) in
         Normal (intervals ++ [(t - t')%Z]))
      [] in
  let* total := reduce1 Z.add intervals in
  let avgInterval := Z2F total / of_length (List.length intervals) in
  Normal (Math_min2 1 (1000 / avgInterval)).

(** [analyzeBehaviorPatterns()], in an engine that takes [maxArguments]
    arguments in the spread call [Math.max(...)].  The three constants
    are evaluated in order, then the object literal with its two calls. *)
Definition analyzeBehaviorPatterns (maxArguments : nat) (now : Z) (this : BehaviorAnalyzer)
    : completion Patterns :=
  let avgSpeed :=
    if (0 <? List.length (mouseData this))%nat
    then reduce (fun sum point => sum + PointerSample.speed point) 0 (mouseData this)
         / of_length (List.length (mouseData this))
    else 0 in
  let clickFrequency :=
    of_length (List.length (clickData this)) / (Z2F (now - sessionStart this) / 60000) in
  let* scrollIntensity :=
    if (0 <? List.length (scrollData this))%nat
    then call_spread maxArguments Math_max (map ScrollSample.velocity (scrollData this))
    else Normal 0 in
  let* movementConsistency := calculateMovementConsistency this in
  let* decisionSpeed := calculateDecisionSpeed this in
  Normal {| avgSpeed := avgSpeed;
            clickFrequency := clickFrequency;
            scrollIntensity := scrollIntensity;
            movementConsistency := movementConsistency;
            decisionSpeed := decisionSpeed |}.

(* ------------------------------------------------------------------ *)
(** *** The trait and insight classifier *)

Definition generatePersonalityProfile (patterns : Patterns) : list Trait :=
  let traits := [] in
  let traits :=
    if 500 <? avgSpeed patterns
    then traits ++ [ {| name := "Решительный"; class := "confident" |} ]
    else if avgSpeed patterns <? 200
    then traits ++ [ {| name := "Внимательный"; class := "cautious" |} ]
    else traits in
  let traits :=
    if 5 <? clickFrequency patterns
    then traits ++ [ {| name := "Активный"; class := "impulsive" |} ]
    else traits in
  let traits :=
    if 0.7 <? movementConsistency patterns
    then traits ++ [ {| name := "Системный"; class := "confident" |} ]
    else traits in
  let traits :=
    if 0.8 <? decisionSpeed patterns
    then traits ++ [ {| name := "Быстрореагирующий"; class := "impulsive" |} ]
    else traits in
  let traits :=
    if 100 <? scrollIntensity patterns
    then traits ++ [ {| name := "Энергичный"; class := "impulsive" |} ]
    else traits in
  if (0 <? List.length traits)%nat then traits
  else [ {| name := "Сбалансированный"; class := "confident" |} ].

Definition generateInsight (patterns : Patterns) (traits : list Trait) : string :=
  if (600 <? avgSpeed patterns) && (8 <? clickFrequency patterns)
  then "Вы демонстрируете энергичный и целеустремленный стиль взаимодействия"
  else if (avgSpeed patterns <? 300) && (0.8 <? movementConsistency patterns)
  then "Ваш подход отличается методичностью и вниманием к деталям"
  else if 0.9 <? decisionSpeed patterns
  then "Вы быстро принимаете решения и действуете интуитивно"
  else "Вы проявляете адаптивный и сбалансированный стиль поведения".

(** [updateAnalysis()]: what it hands to the page. *)
Definition updateAnalysis (maxArguments : nat) (now : Z) (this : BehaviorAnalyzer)
    : completion (Patterns * list Trait * string) :=
  let* patterns := analyzeBehaviorPatterns maxArguments now this in
  let traits := generatePersonalityProfile patterns in
  let insight := generateInsight patterns traits in
  Normal (patterns, traits, insight).

(** The classifier on its own: [generatePersonalityProfile] followed by
    [generateInsight]. *)
Definition classify (patterns : Patterns) : list Trait * string :=
  let traits := generatePersonalityProfile patterns in
  (traits, generateInsight patterns traits).

(* ================================================================== *)
(** ** The formulas of the specification

    The metrics as the specification words them, over consecutive pairs
    of samples instead of index loops. *)

Module Spec.
(** [f] over every pair of neighbours of a list, in order. *)
Fixpoint consecutive {A B} (f : A -> A -> B) (l : list A) : list B :=
  match l with
  | a :: (b :: _) as rest => f a b :: consecutive f rest
  | _ => []
  end.

(** The Euclidean distance between the points (x1, y1) and (x2, y2). *)
Definition distance (x1 y1 x2 y2 : float) : float :=
  sqrt ((x2 - x1) * (x2 - x1) + (y2 - y1) * (y2 - y1)).

(** Per-step speed between consecutive movement points: distance in
    normalized coordinates divided by the elapsed seconds. *)
Definition stepSpeed (p q : MovementPoint.t) : float :=
  distance (MovementPoint.x p) (MovementPoint.y p)
           (MovementPoint.x q) (MovementPoint.y q)
  / (Z2F (MovementPoint.time q - MovementPoint.time p) / 1000).

Definition perStepSpeeds (points : list MovementPoint.t) : list float :=
  consecutive stepSpeed points.

(** Sum from left to right. *)
Definition sum (values : list float) : float :=
  match values with
  | [] => 0
  | a :: rest => fold_left add rest a
  end.

Definition mean (values : list float) : float :=
  sum values / of_length (List.length values).

(** The mean squared deviation from the mean. *)
Definition variance (values : list float) : float :=
  fold_left (fun acc b => acc + (b - mean values) * (b - mean values)) values 0
  / of_length (List.length values).

Definition movementConsistency (points : list MovementPoint.t) : float :=
  if (List.length points <? 10)%nat then 0.5
  else Math_max2 0 (1 - variance (perStepSpeeds points) / 10000).

(** Inter-click intervals of a list of timestamps. *)
Definition intervals (times : list Z) : list Z :=
  consecutive (fun t t' => (t' - t)%Z) times.

Definition meanInterval (times : list Z) : float :=
  Z2F (fold_right Z.add 0%Z (intervals times)) / of_length (List.length (intervals times)).

(** [decisionSpeed] for timestamps already in ascending order. *)
Definition decisionSpeed (ascending : list Z) : float :=
  if (List.length ascending <? 2)%nat then 0.5
  else Math_min2 1 (1000 / meanInterval ascending).

(** A number that is neither NaN nor infinite. *)
Definition defined (a : float) : bool := is_finite a.

(** [a] lies in the closed interval from 0 to 1. *)
Definition in_unit_interval (a : float) : bool := (0 <=? a) && (a <=? 1).
End Spec.

(* ================================================================== *)
(** ** Arrays as heap objects

    The buffers are array objects, and [sort] reorders the array it is
    called on.  This second embedding of the metric extraction keeps the
    arrays in a heap, addressed by reference, with [map] and the array
    literal [[]] allocating and [push] and [sort] updating in place. *)

Module Heap.
Inductive value :=
| Undefined
| Num (a : float)
| Int (z : Z)                       (* an integer-valued number *)
| PointerV (p : PointerSample.t)
| MoveV (m : MovementPoint.t)
| ClickV (c : ClickSample.t)
| ScrollV (s : ScrollSample.t).

Definition ref := nat.
Definition heap := list (list value).

(** The fields of [this]: the four buffers by reference. *)
Record object := mkObject {
  ref_mouseData : ref;
  ref_clickData : ref;
  ref_scrollData : ref;
  ref_movementPoints : ref;
  val_sessionStart : Z
}.

(** A computation on the heap: its completion and the heap it leaves,
    also when it throws. *)
Definition M (A : Type) : Type := heap -> completion A * heap.
Definition ret {A} (a : A) : M A := fun h => (Normal a, h).
Definition bind {A B} (m : M A) (k : A -> M B) : M B :=
  fun h => match m h with
           | (Normal a, h') => k a h'
           | (TypeError, h') => (TypeError, h')
           | (RangeError, h') => (RangeError, h')
           end.
Definition throw {A} : M A := fun h => (TypeError, h).
Definition throw_range {A} : M A := fun h => (RangeError, h).

Definition ToNumber (v : value) : float :=
  match v with
  | Num a => a
  | Int z => Z2F z
  | _ => nan
  end.

(** [a - b] and [a + b] on numbers. *)
Definition minus (a b : value) : value :=
  match a, b with
  | Int x, Int y => Int (x - y)
  | _, _ => Num (ToNumber a - ToNumber b)
  end.

Definition plus (a b : value) : value :=
  match a, b with
  | Int x, Int y => Int (x + y)
  | _, _ => Num (ToNumber a + ToNumber b)
  end.

(** Property reads [v.f]: a [TypeError] on [undefined], [undefined] for
    a missing property. *)
Definition dot (field : string) (v : value) : M value :=
  match v with
  | Undefined => throw
  | PointerV p =>
      ret (if String.eqb field "x" then Num (PointerSample.x p)
           else if String.eqb field "y" then Num (PointerSample.y p)
           else if String.eqb field "speed" then Num (PointerSample.speed p)
           else if String.eqb field "timestamp" then Int (PointerSample.timestamp p)
           else Undefined)
  | MoveV m =>
      ret (if String.eqb field "x" then Num (MovementPoint.x m)
           else if String.eqb field "y" then Num (MovementPoint.y m)
           else if String.eqb field "time" then Int (MovementPoint.time m)
           else Undefined)
  | ClickV c =>
      ret (if String.eqb field "x" then Num (ClickSample.x c)
           else if String.eqb field "y" then Num (ClickSample.y c)
           else if String.eqb field "timestamp" then Int (ClickSample.timestamp c)
           else if String.eqb field "pressure" then Num (ClickSample.pressure c)
           else Undefined)
  | ScrollV s =>
      ret (if String.eqb field "position" then Num (ScrollSample.position s)
           else if String.eqb field "timestamp" then Int (ScrollSample.timestamp s)
           else if String.eqb field "velocity" then Num (ScrollSample.velocity s)
           else Undefined)
  | Num _ | Int _ => ret Undefined
  end.

(** Heap access. *)
Definition read (r : ref) : M (list value) :=
  fun h => match nth_error h r with
           | Some a => (Normal a, h)
           | None => (TypeError, h)
           end.

Fixpoint update (r : ref) (a : list value) (h : heap) : heap :=
  match h, r with
  | [], _ => []
  | _ :: h', O => a :: h'
  | b :: h', S r' => b :: update r' a h'
  end.

Definition write (r : ref) (a : list value) : M unit :=
  fun h => (Normal tt, update r a h).

Definition alloc (a : list value) : M ref :=
  fun h => (Normal (List.length h), h ++ [a]).

(** Array operations. *)
Definition array_length (r : ref) : M nat :=
  bind (read r) (fun a => ret (List.length a)).

(** [array[i]]: [undefined] out of range. *)
Definition index (r : ref) (i : nat) : M value :=
  bind (read r) (fun a => ret (nth i a Undefined)).

Definition push (r : ref) (v : value) : M unit :=
  bind (read r) (fun a => write r (a ++ [v])).

Fixpoint each {A} (f : value -> M A) (a : list value) : M (list A) :=
  match a with
  | [] => ret []
  | v :: rest => bind (f v) (fun b => bind (each f rest) (fun bs => ret (b :: bs)))
  end.

(** [array.map(f)] returns a new array. *)
Definition array_map (f : value -> M value) (r : ref) : M ref :=
  bind (read r) (fun a => bind (each f a) alloc).

(** The sign a comparator result stands for (NaN counts as 0). *)
Definition sign_of (v : value) : Z :=
  match v with
  | Int z => z
  | Num a => if a <? 0 then (-1)%Z else if 0 <? a then 1%Z else 0%Z
  | _ => 0%Z
  end.

Definition is_undefined (v : value) : bool :=
  match v with Undefined => true | _ => false end.

(** [array.sort(cmp)] sorts the array in place and returns it;
    [undefined] entries go to the end. *)
Definition array_sort (cmp : value -> value -> value) (r : ref) : M ref :=
  bind (read r) (fun a =>
  let sorted := sort_by (fun x y => sign_of (cmp x y)) (filter (fun v => negb (is_undefined v)) a)
                ++ filter is_undefined a in
  bind (write r sorted) (fun _ => ret r)).

Definition array_reduce1 (f : value -> value -> M value) (r : ref) : M value :=
  bind (read r) (fun a =>
  match a with
  | [] => throw
  | v :: rest => fold_left (fun acc b => bind acc (fun x => f x b)) rest (ret v)
  end).

Definition array_reduce {B} (f : B -> value -> M B) (init : B) (r : ref) : M B :=
  bind (read r) (fun a => fold_left (fun acc b => bind acc (fun x => f x b)) a (ret init)).

Fixpoint for_loop (count start : nat) (body : nat -> M unit) : M unit :=
  match count with
  | O => ret tt
  | S count' => bind (body start) (fun _ => for_loop count' (S start) body)
  end.

Notation "x <- m ;; k" := (bind m (fun x => k))
  (at level 61, m at next level, right associativity).

Definition calculateDistance (x1 y1 x2 y2 : value) : value :=
  Num (Math_sqrt (Math_pow_2 (ToNumber (minus x2 x1)) + Math_pow_2 (ToNumber (minus y2 y1)))).

Definition calculateMovementConsistency (this : object) : M float :=
  n <- array_length (ref_movementPoints this) ;;
  if (n <? 10)%nat then ret 0.5 else
  speeds <- alloc [] ;;
  _ <- for_loop (n - 1) 1 (fun i =>
         p <- index (ref_movementPoints this) (i - 1) ;;
         px <- dot "x" p ;;
         py <- dot "y" p ;;
         q <- index (ref_movementPoints this) i ;;
         qx <- dot "x" q ;;
         qy <- dot "y" q ;;
         let dist := calculateDistance px py qx qy in
         qt <- dot "time" q ;;
         pt <- dot "time" p ;;
         let timeDiff := minus qt pt in
         push speeds (Num (ToNumber dist / (ToNumber timeDiff / 1000)))) ;;
  total <- array_reduce1 (fun a b => ret (plus a b)) speeds ;;
  len <- array_length speeds ;;
  let avg := ToNumber total / of_length len in
  squares <- array_reduce (fun a b => ret (a + Math_pow_2 (ToNumber b - avg))) 0 speeds ;;
  len' <- array_length speeds ;;
  let variance := squares / of_length len' in
  ret (Math_max2 0 (1 - variance / 10000)).

Definition calculateDecisionSpeed (this : object) : M float :=
  n <- array_length (ref_clickData this) ;;
  if (n <? 2)%nat then ret 0.5 else
  mapped <- array_map (dot "timestamp") (ref_clickData this) ;;
  times <- array_sort minus mapped ;;
  intervals <- alloc [] ;;
  len <- array_length times ;;
  _ <- for_loop (len - 1) 1 (fun i =>
         t <- index times i ;;
         t' <- index times (i - 1) ;;
         push intervals (minus t t')) ;;
  total <- array_reduce1 (fun a b => ret (plus a b)) intervals ;;
  count <- array_length intervals ;;
  let avgInterval := ToNumber total / of_length count in
  ret (Math_min2 1 (1000 / avgInterval)).

Definition analyzeBehaviorPatterns (maxArguments : nat) (now : Z) (this : object)
    : M Patterns :=
  n <- array_length (ref_mouseData this) ;;
  avgSpeed <-
    (if (0 <? n)%nat then
       total <- array_reduce
                  (fun sum point => speed <- dot "speed" point ;; ret (sum + ToNumber speed))
                  0 (ref_mouseData this) ;;
       len <- array_length (ref_mouseData this) ;;
       ret (total / of_length len)
     else ret 0) ;;
  clicks <- array_length (ref_clickData this) ;;
  let clickFrequency := of_length clicks / (Z2F (now - val_sessionStart this) / 60000) in
  scrolls <- array_length (ref_scrollData this) ;;
  scrollIntensity <-
    (if (0 <? scrolls)%nat then
       velocities <- array_map (dot "velocity") (ref_scrollData this) ;;
       spread <- read velocities ;;
       if (List.length spread <=? maxArguments)%nat   (* [Math.max(...velocities)] *)
       then ret (Math_max (map ToNumber spread))
       else throw_range
     else ret 0) ;;
  movementConsistency <- calculateMovementConsistency this ;;
  decisionSpeed <- calculateDecisionSpeed this ;;
  ret {| avgSpeed := avgSpeed;
         clickFrequency := clickFrequency;
         scrollIntensity := scrollIntensity;
         movementConsistency := movementConsistency;
         decisionSpeed := decisionSpeed |}.

(** The heap holds the buffers of [a] at the references of [o]. *)
Definition represents (h : heap) (o : object) (a : BehaviorAnalyzer) : Prop :=
  nth_error h (ref_mouseData o) = Some (map PointerV (mouseData a)) /\
  nth_error h (ref_clickData o) = Some (map ClickV (clickData a)) /\
  nth_error h (ref_scrollData o) = Some (map ScrollV (scrollData a)) /\
  nth_error h (ref_movementPoints o) = Some (map MoveV (movementPoints a)) /\
  val_sessionStart o = sessionStart a.

(** The canonical layout: the four buffers at references 0 to 3. *)
Definition store (a : BehaviorAnalyzer) : heap :=
  [ map PointerV (mouseData a); map ClickV (clickData a);
    map ScrollV (scrollData a); map MoveV (movementPoints a) ].

Definition handle (a : BehaviorAnalyzer) : object :=
  {| ref_mouseData := 0%nat; ref_clickData := 1%nat; ref_scrollData := 2%nat;
     ref_movementPoints := 3%nat; val_sessionStart := sessionStart a |}.
End Heap.

(* ================================================================== *)
(** ** Vocabulary of the statements *)

(** The fixed label set, under the names the specification gives it. *)
Module Label.
Definition Decisive := {| name := "Решительный"; class := "confident" |}.
Definition Attentive := {| name := "Внимательный"; class := "cautious" |}.
Definition Active := {| name := "Активный"; class := "impulsive" |}.
Definition Systematic := {| name := "Системный"; class := "confident" |}.
Definition QuickReacting := {| name := "Быстрореагирующий"; class := "impulsive" |}.
Definition Energetic := {| name := "Энергичный"; class := "impulsive" |}.
Definition Balanced := {| name := "Сбалансированный"; class := "confident" |}.
End Label.

Module Insight.
Definition energetic : string :=
  "Вы демонстрируете энергичный и целеустремленный стиль взаимодействия".
Definition methodical : string :=
  "Ваш подход отличается методичностью и вниманием к деталям".
Definition intuitive : string :=
  "Вы быстро принимаете решения и действуете интуитивно".
Definition adaptive : string :=
  "Вы проявляете адаптивный и сбалансированный стиль поведения".
End Insight.

(** The neutral defaults of the five metrics. *)
Definition neutral_defaults : Patterns :=
  {| avgSpeed := 0; clickFrequency := 0; scrollIntensity := 0;
     movementConsistency := 0.5; decisionSpeed := 0.5 |}.

(** Some row of the trait table fires. *)
Definition some_rule_fires (p : Patterns) : bool :=
  (500 <? avgSpeed p) || (avgSpeed p <? 200) || (5 <? clickFrequency p)
  || (0.7 <? movementConsistency p) || (0.8 <? decisionSpeed p)
  || (100 <? scrollIntensity p).

(** A pointer-move call: the clock reading, the window and the event. *)
Record MoveCall := mkMoveCall {
  call_time : Z;
  call_window : Window;
  call_event : MouseEvent
}.

Definition move (c : MoveCall) (this : BehaviorAnalyzer) : BehaviorAnalyzer :=
  handleMouseMove (call_time c) (call_window c) (call_event c) this.

Definition moves (calls : list MoveCall) (this : BehaviorAnalyzer) : BehaviorAnalyzer :=
  fold_left (fun a c => move c a) calls this.

(** Consecutive timestamps at most / more than 50 ms apart. *)
Fixpoint spaced_at_most_50 (times : list Z) : Prop :=
  match times with
  | t :: (t' :: _) as rest => (t' - t <= 50)%Z /\ spaced_at_most_50 rest
  | _ => True
  end.

Fixpoint spaced_over_50 (times : list Z) : Prop :=
  match times with
  | t :: (t' :: _) as rest => (50 < t' - t)%Z /\ spaced_over_50 rest
  | _ => True
  end.

(** A call is accepted when it appends to both buffers and records its
    own position and time; it is a no-op when it leaves [this] as it is. *)
Definition accepted (c : MoveCall) (this : BehaviorAnalyzer) : Prop :=
  let this' := move c this in
  List.length (mouseData this') = S (List.length (mouseData this)) /\
  List.length (movementPoints this') = S (List.length (movementPoints this)) /\
  lastMoveTime this' = call_time c /\
  lastMousePosition this' = (clientX (call_event c), clientY (call_event c)).

Definition no_op (c : MoveCall) (this : BehaviorAnalyzer) : Prop :=
  move c this = this.

(** In a sequence of calls, every call is a no-op / is accepted in the
    state the calls before it have left. *)
Fixpoint each_no_op (calls : list MoveCall) (this : BehaviorAnalyzer) : Prop :=
  match calls with
  | [] => True
  | c :: rest => no_op c this /\ each_no_op rest (move c this)
  end.

Fixpoint each_accepted (calls : list MoveCall) (this : BehaviorAnalyzer) : Prop :=
  match calls with
  | [] => True
  | c :: rest => accepted c this /\ each_accepted rest (move c this)
  end.

(** A pointer move to the origin of a 1000 x 800 window at time [t]. *)
Definition gate_call (t : Z) : MoveCall :=
  {| call_time := t;
     call_window := {| innerWidth := 1000; innerHeight := 800; scrollY := 0 |};
     call_event := {| clientX := 0; clientY := 0; pressure := None |} |}.

(** A short session: twelve pointer moves 100 ms apart, five clicks out
    of order in time, three scrolls. *)
Definition sample_session : BehaviorAnalyzer :=
  let window := {| innerWidth := 1000; innerHeight := 800; scrollY := 100 |} in
  let at_ (x : Z) := {| clientX := Z2F x; clientY := 20; pressure := None |} in
  this (run (map (fun i => mousemove (100 * i)%Z window (at_ (i * i)%Z))
                 [1; 2; 3; 4; 5; 6; 7; 8; 9; 10; 11; 12]%Z
             ++ map (fun t => click t (at_ 10%Z)) [1500; 500; 1000; 0; 30]%Z
             ++ map (fun t => scroll t window) [0; 1000; 2000]%Z)
            (startup 0 0 [])).

(** The number of click events in a run. *)
Definition clicks_in (events : list Event) : nat :=
  List.length (filter (fun e => match e with click _ _ => true | _ => false end) events).

(** The scroll calls at the given offsets and clock readings. *)
Definition scrolls (calls : list (float * Z)) (this : BehaviorAnalyzer) : BehaviorAnalyzer :=
  fold_left
    (fun a c => handleScroll (snd c) {| innerWidth := 0; innerHeight := 0; scrollY := fst c |} a)
    calls this.

(** The comparator of [calculateDecisionSpeed]. *)
Definition ascending_order (a b : Z) : Z := (a - b)%Z.

(* ------------------------------------------------------------------ *)
(** *** Invariants *)

(** No stored click carries pressure 0. *)
Definition pressures_set (a : BehaviorAnalyzer) : Prop :=
  Forall (fun c => is_zero (ClickSample.pressure c) = false) (clickData a).

(** After [n] cells were created in an initially empty container, it
    holds the cells numbered from [n - 50] on, oldest first. *)
Definition heatmap_holds (n : nat) (doc : Document) : Prop :=
  created doc = n /\
  exists cells, clickHeatmap doc = map ElementNode cells
                /\ map nodeId cells = seq (n - 50) (Nat.min n 50).

(* ------------------------------------------------------------------ *)
(** *** Classes of binary64 values, on their specification *)

Module Binary64.
(** The result is a zero, an infinity or a finite number of sign [s]. *)
Definition of_sign (s : bool) (x : spec_float) : Prop :=
  match x with
  | S754_zero s' | S754_infinity s' | S754_finite s' _ _ => s' = s
  | S754_nan => False
  end.

Definition not_nan (x : spec_float) : Prop :=
  match x with S754_nan => False | _ => True end.

(** Zero or a finite number, of either sign. *)
Definition finite (x : spec_float) : Prop :=
  match x with S754_zero _ | S754_finite _ _ _ => True | _ => False end.

(** A finite number greater than zero. *)
Definition positive_finite (x : spec_float) : Prop :=
  match x with S754_finite false _ _ => True | _ => False end.

(** The number 1. *)
Definition one_sf : spec_float := S754_finite false 4503599627370496 (-52).
End Binary64.

(* ------------------------------------------------------------------ *)
(** *** The order of binary64 values, on their specification *)

Module Binary64Order.
(** Where a value that is not NaN stands in the order: its class
    (infinities, negative, zero, positive), then exponent and mantissa,
    negated for negative numbers. *)
Definition key (x : spec_float) : Z * Z * Z :=
  match x with
  | S754_nan => (0, 0, 0)%Z
  | S754_infinity true => (-2, 0, 0)%Z
  | S754_infinity false => (2, 0, 0)%Z
  | S754_zero _ => (0, 0, 0)%Z
  | S754_finite true m e => (-1, - e, Zneg m)%Z
  | S754_finite false m e => (1, e, Zpos m)%Z
  end.

Definition lex3 (a b : Z * Z * Z) : comparison :=
  match (fst (fst a) ?= fst (fst b))%Z with
  | Eq => match (snd (fst a) ?= snd (fst b))%Z with
          | Eq => (snd a ?= snd b)%Z
          | c => c
          end
  | c => c
  end.

(** NaN, or a value that is not negative. *)
Definition nan_or_nonneg (x : spec_float) : Prop :=
  match x with
  | S754_nan => True
  | S754_zero s | S754_infinity s | S754_finite s _ _ => s = false
  end.

(** A positive normal number with its exponent between [lo] and [hi]. *)
Definition normal_in (lo hi : Z) (x : spec_float) : Prop :=
  match x with
  | S754_finite false m e => Zpos (digits2_pos m) = 53%Z /\ (lo <= e <= hi)%Z
  | _ => False
  end.
End Binary64Order.

(* ------------------------------------------------------------------ *)
(** *** What [updateAnalysis] shows *)

(** The values [updateAnalysis] writes into the page from a snapshot: the
    width of the progress bar in percent, the scroll-pattern label, the
    trait badges and the insight.  (The rounded texts of [avgSpeed] and
    [clickActivity] are left out.) *)
Record AnalysisView := mkAnalysisView {
  mouseActivityProgress : float;
  scrollPattern : string;
  personalityTraits : list Trait;
  behaviorInsight : string
}.

Definition analysisView (patterns : Patterns) : AnalysisView :=
  let traits := generatePersonalityProfile patterns in
  let insight := generateInsight patterns traits in
  {| mouseActivityProgress := Math_min2 (avgSpeed patterns / 10) 100;
     scrollPattern := if 100 <? scrollIntensity patterns then "Энергичный" else "Плавный";
     personalityTraits := traits;
     behaviorInsight := insight |}.

(** The rows of the trait table that fire, in table order. *)
Definition fired_rows (p : Patterns) : list Trait :=
  (if 500 <? avgSpeed p then [Label.Decisive]
   else if avgSpeed p <? 200 then [Label.Attentive] else [])
  ++ (if 5 <? clickFrequency p then [Label.Active] else [])
  ++ (if 0.7 <? movementConsistency p then [Label.Systematic] else [])
  ++ (if 0.8 <? decisionSpeed p then [Label.QuickReacting] else [])
  ++ (if 100 <? scrollIntensity p then [Label.Energetic] else []).

(* ------------------------------------------------------------------ *)
(** *** What a run of events records *)

(** The clicks of a run, in order of arrival: position and clock reading. *)
Definition clicks_of (events : list Event) : list (float * float * Z) :=
  flat_map (fun e => match e with
                     | click now event => [(clientX event, clientY event, now)]
                     | _ => []
                     end) events.

(** The scrolls of a run: offset and clock reading. *)
Definition scrolls_of (events : list Event) : list (float * Z) :=
  flat_map (fun e => match e with
                     | scroll now window => [(scrollY window, now)]
                     | _ => []
                     end) events.

(** The child nodes that are not elements. *)
Definition other_nodes (childNodes : list Node) : list Node :=
  filter (fun n => match n with ElementNode _ => false | TextNode _ => true end) childNodes.

(** The pointer buffers after construction at [now']: both hold the same
    timestamps, more than 50 ms apart from each other and from [now'], and
    the last of them and its position are the ones remembered. *)
Definition pointer_buffers_agree (now' : Z) (a : BehaviorAnalyzer) : Prop :=
  map PointerSample.timestamp (mouseData a) = map MovementPoint.time (movementPoints a)
  /\ spaced_over_50 (now' :: map PointerSample.timestamp (mouseData a))
  /\ lastMoveTime a = last (map PointerSample.timestamp (mouseData a)) now'
  /\ lastMousePosition a
     = last (map (fun s => (PointerSample.x s, PointerSample.y s)) (mouseData a)) (0, 0).

(** After [n] cells were created in a container that held one text node:
    the text node stays in front until the 51st cell is added, and from
    then on the container holds the cells numbered from [n - 51] on. *)
Definition heatmap_behind_text (data : string) (n : nat) (doc : Document) : Prop :=
  created doc = n /\
  exists cells,
    clickHeatmap doc
    = (if (n <=? 50)%nat then [TextNode data] else []) ++ map ElementNode cells
    /\ map nodeId cells = seq (n - 51) (Nat.min n 51).

(** The smallest and the largest of a list of timestamps. *)
Definition earliest (times : list Z) : Z :=
  match times with
  | [] => 0%Z
  | t :: rest => fold_right Z.min t rest
  end.

Definition latest (times : list Z) : Z :=
  match times with
  | [] => 0%Z
  | t :: rest => fold_right Z.max t rest
  end.

(** Every pointer move of a run carries finite coordinates, and a clock
    reading in the range of the whole numbers a double holds exactly. *)
Definition finite_moves (events : list Event) : Prop :=
  Forall (fun e => match e with
                   | mousemove now _ event =>
                       is_finite (clientX event) = true
                       /\ is_finite (clientY event) = true
                       /\ (0 <= now < 2 ^ 53)%Z
                   | _ => True
                   end) events.

(** The speeds stored so far are numbers, and so is the position the
    next distance is measured from. *)
Definition pointer_state_finite (a : BehaviorAnalyzer) : Prop :=
  Forall (fun s => Binary64.of_sign false (Prim2SF (PointerSample.speed s))) (mouseData a)
  /\ is_finite (fst (lastMousePosition a)) = true
  /\ is_finite (snd (lastMousePosition a)) = true
  /\ (0 <= lastMoveTime a)%Z.

(** Consecutive timestamps a positive whole number of milliseconds
    (below 2^53) apart. *)
Fixpoint ticking (times : list Z) : Prop :=
  match times with
  | t :: (t' :: _) as rest => (0 < t' - t < 2 ^ 53)%Z /\ ticking rest
  | _ => True
  end.

(** The classes of the cell made when [clicks] clicks are stored. *)
Definition cell_classes (clicks : nat) : list string :=
  if (8 <=? clicks)%nat then ["heatmap-cell"; "active"; "intense"]%string
  else ["heatmap-cell"; "active"]%string.

(** The positions and clock readings the pointer speeds are measured
    between: the origin at construction time, then the stored samples. *)
Definition pointer_track (now' : Z) (samples : list PointerSample.t)
    : list (float * float * Z) :=
  (0, 0, now')
  :: map (fun s => (PointerSample.x s, PointerSample.y s, PointerSample.timestamp s)) samples.

Definition speed_between (p q : float * float * Z) : float :=
  calculateDistance (fst (fst p)) (snd (fst p)) (fst (fst q)) (snd (fst q))
  / (Z2F (snd q - snd p) / 1000).

(** The scroll velocity between two entries. *)
Definition velocity_between (prev last : ScrollSample.t) : float :=
  Math_abs (ScrollSample.position last - ScrollSample.position prev)
  / (Z2F (ScrollSample.timestamp last - ScrollSample.timestamp prev) / 1000).

(** The stored speeds are those between neighbours of the track, and the
    remembered position and time are its end. *)
Definition speeds_follow_track (now' : Z) (a : BehaviorAnalyzer) : Prop :=
  map PointerSample.speed (mouseData a)
  = Spec.consecutive speed_between (pointer_track now' (mouseData a))
  /\ last (pointer_track now' (mouseData a)) (0, 0, now')
     = (fst (lastMousePosition a), snd (lastMousePosition a), lastMoveTime a).

(** Every stored velocity is the one between the two entries before its
    own, and 0 for the first two entries. *)
Definition velocities_lag (entries : list ScrollSample.t) : Prop :=
  map ScrollSample.velocity entries
  = firstn (List.length entries) (0 :: 0 :: Spec.consecutive velocity_between entries).

(* ================================================================== *)
(** * Proofs *)

(** ** The classifier *)

Lemma profile_when_no_rule_fires (p : Patterns) :
  some_rule_fires p = false -> generatePersonalityProfile p = [Label.Balanced].
Proof.
  unfold some_rule_fires, generatePersonalityProfile.
  intros H.
  repeat (apply orb_false_iff in H; destruct H as [H ?]).
  repeat match goal with E : _ = false |- _ => rewrite E; clear E end.
  reflexivity.
Qed.

Lemma fallback_only_when_no_rule_fires (p : Patterns) :
  In Label.Balanced (generatePersonalityProfile p) -> some_rule_fires p = false.
Proof.
  unfold some_rule_fires, generatePersonalityProfile.
  destruct (500 <? avgSpeed p), (avgSpeed p <? 200), (5 <? clickFrequency p),
    (0.7 <? movementConsistency p), (0.8 <? decisionSpeed p), (100 <? scrollIntensity p);
    cbn; intros H; try reflexivity;
    repeat (destruct H as [H | H]; [discriminate H |]); contradiction.
Qed.

(** C1 as stated fails: at the neutral defaults the row [avgSpeed < 200]
    fires, so the profile is the single trait Attentive, not the fallback. *)
Lemma neutral_defaults_are_not_balanced :
  generatePersonalityProfile neutral_defaults = [Label.Attentive]
  /\ generatePersonalityProfile neutral_defaults <> [Label.Balanced].
Proof.
  split; [reflexivity | discriminate].
Qed.

(** C1, amended.  At the neutral defaults the classifier emits exactly the
    trait Attentive / cautious and the default insight.  The fallback
    Balanced / confident is emitted exactly when no row of the trait table
    fires, and then it is the only trait; this happens, for instance, for
    [avgSpeed = 300] with the other metrics at their defaults. *)
Theorem classifier_at_neutral_defaults :
  classify neutral_defaults = ([Label.Attentive], Insight.adaptive)
  /\ (forall p, In Label.Balanced (generatePersonalityProfile p) <-> some_rule_fires p = false)
  /\ (forall p, In Label.Balanced (generatePersonalityProfile p) ->
                generatePersonalityProfile p = [Label.Balanced])
  /\ classify {| avgSpeed := 300; clickFrequency := 0; scrollIntensity := 0;
                 movementConsistency := 0.5; decisionSpeed := 0.5 |}
     = ([Label.Balanced], Insight.adaptive).
Proof.
  split; [reflexivity |].
  split; [| split; [| reflexivity]].
  - intros p; split.
    + apply fallback_only_when_no_rule_fires.
    + intros H. rewrite (profile_when_no_rule_fires p H). left; reflexivity.
  - intros p H. apply profile_when_no_rule_fires, fallback_only_when_no_rule_fires, H.
Qed.

Lemma classifier_at_neutral_defaults_witness :
  some_rule_fires {| avgSpeed := 300; clickFrequency := 0; scrollIntensity := 0;
                     movementConsistency := 0.5; decisionSpeed := 0.5 |} = false
  /\ generatePersonalityProfile
       {| avgSpeed := 300; clickFrequency := 0; scrollIntensity := 0;
          movementConsistency := 0.5; decisionSpeed := 0.5 |}
     = [Label.Balanced].
Proof.
  destruct classifier_at_neutral_defaults as (_ & Hiff & Honly & _).
  split.
  - apply Hiff. left. reflexivity.
  - apply Honly. left. reflexivity.
Defined.

(** C7.  With [avgSpeed = 650] and [clickFrequency = 9] the insight is
    that of rule 1 whatever the other three metrics are, and the traits
    include Decisive / confident and Active / impulsive; with the others at
    their neutral defaults these are the only two traits. *)
Theorem classifier_fast_and_frequent :
  (forall scrollI consistency decision,
     let p := {| avgSpeed := 650; clickFrequency := 9; scrollIntensity := scrollI;
                 movementConsistency := consistency; decisionSpeed := decision |} in
     generateInsight p (generatePersonalityProfile p) = Insight.energetic
     /\ In Label.Decisive (generatePersonalityProfile p)
     /\ In Label.Active (generatePersonalityProfile p))
  /\ classify {| avgSpeed := 650; clickFrequency := 9; scrollIntensity := 0;
                 movementConsistency := 0.5; decisionSpeed := 0.5 |}
     = ([Label.Decisive; Label.Active], Insight.energetic).
Proof.
  split; [| reflexivity].
  intros scrollI consistency decision p.
  split; [reflexivity |].
  unfold generatePersonalityProfile; cbn.
  destruct (0.7 <? consistency), (0.8 <? decision), (100 <? scrollI); cbn; auto.
Qed.

(* ================================================================== *)
(** ** Click recording *)

Lemma or_default_not_zero (v : option float) : is_zero (or_default v 0.5) = false.
Proof.
  destruct v as [a|]; [| reflexivity].
  unfold or_default, truthy.
  destruct (is_zero a) eqn:Ha; [reflexivity |].
  destruct (is_nan a); [reflexivity | exact Ha].
Qed.

Lemma or_default_cases (v : option float) :
  or_default v 0.5
  = match v with
    | Some a => if is_zero a || is_nan a then 0.5 else a
    | None => 0.5
    end.
Proof.
  destruct v as [a|]; [| reflexivity].
  unfold or_default, truthy. destruct (is_zero a || is_nan a); reflexivity.
Qed.

Lemma handleMouseMove_clickData now window event a :
  clickData (handleMouseMove now window event a) = clickData a.
Proof.
  unfold handleMouseMove. destruct (50 <? now - lastMoveTime a)%Z; reflexivity.
Qed.

Lemma dispatch_pressures_set page e :
  pressures_set (this page) -> pressures_set (this (dispatch page e)).
Proof.
  unfold pressures_set.
  destruct e as [now window event | now event | now window | key]; cbn; intros H.
  - rewrite handleMouseMove_clickData. exact H.
  - apply Forall_app; split; [exact H |].
    constructor; [| constructor]. cbn. apply or_default_not_zero.
  - exact H.
  - exact H.
Qed.

Lemma run_pressures_set events : forall page,
  pressures_set (this page) -> pressures_set (this (run events page)).
Proof.
  induction events as [| e events IH]; intros page H; cbn; [exact H |].
  apply IH, dispatch_pressures_set, H.
Qed.

(** C10.  [handleClick] stores the event's pressure unless it is falsy
    (missing, 0, -0 or NaN), in which case it stores 0.5; an explicit
    pressure of exactly 0 is replaced like a missing one, and in no state
    reached from start-up does a stored click have pressure 0. *)
Theorem click_pressure_defaults_when_falsy :
  (forall now event page,
     clickData (this (handleClick now event page))
     = clickData (this page) ++
       [ {| ClickSample.x := clientX event;
            ClickSample.y := clientY event;
            ClickSample.timestamp := now;
            ClickSample.pressure :=
              match pressure event with
              | Some a => if is_zero a || is_nan a then 0.5 else a
              | None => 0.5
              end |} ])
  /\ or_default (Some 0) 0.5 = 0.5
  /\ or_default (Some (-0)) 0.5 = 0.5
  /\ or_default None 0.5 = 0.5
  /\ (forall events now now' childNodes,
        Forall (fun c => is_zero (ClickSample.pressure c) = false)
               (clickData (this (run events (startup now now' childNodes))))).
Proof.
  split.
  { intros now event page. cbn. rewrite or_default_cases. reflexivity. }
  repeat (split; [reflexivity |]).
  intros events now now' childNodes.
  apply (run_pressures_set events). constructor.
Qed.

(* ================================================================== *)
(** ** The heat map *)

Lemma map_tl {A B} (f : A -> B) (l : list A) : map f (tl l) = tl (map f l).
Proof. destruct l; reflexivity. Qed.

Lemma children_elements (cells : list Element) :
  children (map ElementNode cells) = cells.
Proof.
  induction cells as [| c cells IH]; cbn; [reflexivity |].
  unfold children in IH. rewrite IH. reflexivity.
Qed.

Lemma updateClickHeatmap_holds x y a n doc :
  heatmap_holds n doc -> heatmap_holds (S n) (updateClickHeatmap x y a doc).
Proof.
  intros [Hn (cells & Hcells & Hids)].
  unfold updateClickHeatmap. rewrite Hcells, Hn.
  set (cell := {| nodeId := n; classList := _ |}).
  change (map ElementNode cells ++ [ElementNode cell])
    with (map ElementNode cells ++ map ElementNode [cell]).
  rewrite <- map_app, children_elements.
  assert (Hlen : List.length (cells ++ [cell]) = S (Nat.min n 50)).
  { rewrite length_app, <- (length_map nodeId cells), Hids, length_seq. cbn. lia. }
  assert (Hall : map nodeId (cells ++ [cell]) = seq (n - 50) (S (Nat.min n 50))).
  { rewrite map_app, Hids, seq_S. cbn. f_equal. f_equal. lia. }
  rewrite Hlen. split; [reflexivity |].
  destruct (50 <? S (Nat.min n 50))%nat eqn:Hfull.
  - apply Nat.ltb_lt in Hfull.
    exists (tl (cells ++ [cell])). split; [symmetry; apply map_tl |].
    rewrite map_tl, Hall. cbn [seq tl].
    replace (S n - 50)%nat with (S (n - 50)) by lia.
    replace (Nat.min (S n) 50) with (Nat.min n 50) by lia. reflexivity.
  - apply Nat.ltb_ge in Hfull.
    exists (cells ++ [cell]). split; [reflexivity |].
    rewrite Hall. f_equal; lia.
Qed.

Lemma dispatch_heatmap_holds page e n :
  heatmap_holds n (document page) ->
  heatmap_holds (n + clicks_in [e]) (document (dispatch page e)).
Proof.
  intros H. destruct e; cbn; rewrite ?Nat.add_0_r; try exact H.
  rewrite Nat.add_1_r. apply updateClickHeatmap_holds, H.
Qed.

Lemma clicks_in_cons e events : clicks_in (e :: events) = (clicks_in [e] + clicks_in events)%nat.
Proof.
  unfold clicks_in. cbn. destruct e; reflexivity.
Qed.

Lemma run_heatmap_holds events : forall page n,
  heatmap_holds n (document page) ->
  heatmap_holds (n + clicks_in events) (document (run events page)).
Proof.
  induction events as [| e events IH]; intros page n H.
  - cbn. rewrite Nat.add_0_r. exact H.
  - rewrite clicks_in_cons, Nat.add_assoc. cbn [run fold_left].
    apply IH, dispatch_heatmap_holds, H.
Qed.

(** C8.  Starting from an empty container, after any run of events the
    heat map holds at most 50 cells, all of them elements, and they are
    the most recently created ones in order of creation (the cell made by
    the k-th click is numbered k - 1); after 60 clicks these are the cells
    10 to 59. *)
Theorem heatmap_keeps_most_recent_50 :
  (forall events now now',
     let heatmap := clickHeatmap (document (run events (startup now now' []))) in
     (List.length heatmap <= 50)%nat
     /\ List.length (children heatmap) = List.length heatmap
     /\ map nodeId (children heatmap)
        = seq (clicks_in events - 50) (Nat.min (clicks_in events) 50))
  /\ (forall events now now',
        clicks_in events = 60%nat ->
        map nodeId (children (clickHeatmap (document (run events (startup now now' [])))))
        = seq 10 50).
Proof.
  assert (H : forall events now now',
             heatmap_holds (clicks_in events) (document (run events (startup now now' [])))).
  { intros events now now'.
    apply (run_heatmap_holds events (startup now now' []) 0).
    split; [reflexivity |]. exists []. split; reflexivity. }
  split.
  - intros events now now' heatmap.
    destruct (H events now now') as [_ (cells & Hcells & Hids)].
    subst heatmap. rewrite Hcells, children_elements, length_map.
    split; [| split; [reflexivity | exact Hids]].
    rewrite <- (length_map nodeId cells), Hids, length_seq. lia.
  - intros events now now' H60.
    destruct (H events now now') as [_ (cells & Hcells & Hids)].
    rewrite Hcells, children_elements, Hids, H60. reflexivity.
Qed.

Lemma heatmap_keeps_most_recent_50_witness :
  clicks_in (repeat (click 0 {| clientX := 0; clientY := 0; pressure := None |}) 60) = 60%nat
  /\ map nodeId (children (clickHeatmap (document
       (run (repeat (click 0 {| clientX := 0; clientY := 0; pressure := None |}) 60)
            (startup 0 0 [])))))
     = seq 10 50.
Proof.
  split; [reflexivity |].
  apply (proj2 heatmap_keeps_most_recent_50). reflexivity.
Defined.

(* ================================================================== *)
(** ** The rate gate of pointer moves *)

Lemma move_no_op c a : (call_time c - lastMoveTime a <= 50)%Z -> no_op c a.
Proof.
  intros H. unfold no_op, move, handleMouseMove.
  destruct (50 <? call_time c - lastMoveTime a)%Z eqn:E; [| reflexivity].
  apply Z.ltb_lt in E. lia.
Qed.

Lemma move_accepted c a : (50 < call_time c - lastMoveTime a)%Z -> accepted c a.
Proof.
  intros H. unfold accepted, move, handleMouseMove.
  apply Z.ltb_lt in H. rewrite H. cbn.
  rewrite !length_app. cbn. repeat split; lia.
Qed.

Lemma move_accepted_fields c a :
  (50 < call_time c - lastMoveTime a)%Z ->
  map PointerSample.timestamp (mouseData (move c a))
    = map PointerSample.timestamp (mouseData a) ++ [call_time c]
  /\ map MovementPoint.time (movementPoints (move c a))
    = map MovementPoint.time (movementPoints a) ++ [call_time c]
  /\ lastMoveTime (move c a) = call_time c.
Proof.
  intros H. unfold move, handleMouseMove.
  apply Z.ltb_lt in H. rewrite H. cbn.
  rewrite !map_app. repeat split; reflexivity.
Qed.

Lemma moves_no_ops calls : forall a,
  Forall (fun c => (call_time c - lastMoveTime a <= 50)%Z) calls ->
  each_no_op calls a /\ moves calls a = a.
Proof.
  induction calls as [| c calls IH]; intros a H; [split; [exact I | reflexivity] |].
  inversion H as [| ? ? Hc Hrest]; subst.
  pose proof (move_no_op c a Hc) as Hno. unfold no_op in Hno.
  cbn [each_no_op moves fold_left]. rewrite Hno.
  destruct (IH a Hrest) as [IH1 IH2].
  split; [split; [exact Hno | exact IH1] | exact IH2].
Qed.

Lemma moves_all_accepted calls : forall a,
  spaced_over_50 (lastMoveTime a :: map call_time calls) ->
  each_accepted calls a
  /\ map PointerSample.timestamp (mouseData (moves calls a))
     = map PointerSample.timestamp (mouseData a) ++ map call_time calls
  /\ map MovementPoint.time (movementPoints (moves calls a))
     = map MovementPoint.time (movementPoints a) ++ map call_time calls.
Proof.
  induction calls as [| c calls IH]; intros a H.
  - cbn. rewrite !app_nil_r. repeat split.
  - cbn [map spaced_over_50] in H. destruct H as [Hc Hrest].
    destruct (move_accepted_fields c a Hc) as (Hm & Hp & Ht).
    destruct (IH (move c a)) as (IH1 & IH2 & IH3).
    { rewrite Ht. exact Hrest. }
    cbn [each_accepted moves fold_left map].
    fold (moves calls (move c a)).
    rewrite IH2, IH3, Hm, Hp, <- !app_assoc.
    split; [split; [apply move_accepted, Hc | exact IH1] |].
    split; reflexivity.
Qed.

(** C3 as stated fails: the calls at 100, 150 and 200 ms are 50 ms apart,
    yet after the first is accepted and the second ignored, the third
    comes 100 ms after the last accepted one and is accepted too.  And of
    the calls at 10, 70 and 130 ms, 60 ms apart, the first is ignored,
    coming 10 ms after the analyzer was constructed. *)
Lemma closely_spaced_moves_are_not_all_ignored :
  (spaced_at_most_50 [100; 150; 200]%Z
   /\ accepted (gate_call 100) (constructor 0 0)
   /\ no_op (gate_call 150) (move (gate_call 100) (constructor 0 0))
   /\ accepted (gate_call 200) (move (gate_call 150) (move (gate_call 100) (constructor 0 0)))
   /\ ~ each_no_op [gate_call 150; gate_call 200] (move (gate_call 100) (constructor 0 0)))
  /\ (spaced_over_50 [10; 70; 130]%Z
      /\ no_op (gate_call 10) (constructor 0 0)
      /\ ~ each_accepted [gate_call 10; gate_call 70; gate_call 130] (constructor 0 0)).
Proof.
  split.
  - split; [cbn; lia |].
    split; [apply move_accepted; cbn; lia |].
    split; [apply move_no_op; cbn; lia |].
    split; [apply move_accepted; cbn; lia |].
    intros (_ & H & _). unfold no_op in H.
    apply (f_equal lastMoveTime) in H. cbn in H. discriminate H.
  - split; [cbn; lia |].
    split; [apply move_no_op; cbn; lia |].
    intros ((_ & _ & H & _) & _). cbn in H. discriminate H.
Qed.

(** C3, amended.  The gate compares a call with the last accepted one
    (at first, with the construction time): a call at most 50 ms after it
    is a no-op, a call more than 50 ms after it is accepted.  So once a
    call is accepted, the calls that follow within 50 ms of that call are
    all no-ops; and in a sequence that starts more than 50 ms after the
    last accepted call and whose consecutive calls are more than 50 ms
    apart, every call is accepted, each adding one sample with its own
    timestamp to [mouseData] and to [movementPoints]. *)
Theorem pointer_gate_counts_from_last_accepted :
  (forall c a, (call_time c - lastMoveTime a <= 50)%Z -> no_op c a)
  /\ (forall c a, (50 < call_time c - lastMoveTime a)%Z -> accepted c a)
  /\ (forall first rest a,
        (50 < call_time first - lastMoveTime a)%Z ->
        Forall (fun c => (call_time c - call_time first <= 50)%Z) rest ->
        accepted first a
        /\ each_no_op rest (move first a)
        /\ moves (first :: rest) a = move first a)
  /\ (forall calls a,
        spaced_over_50 (lastMoveTime a :: map call_time calls) ->
        each_accepted calls a
        /\ map PointerSample.timestamp (mouseData (moves calls a))
           = map PointerSample.timestamp (mouseData a) ++ map call_time calls
        /\ map MovementPoint.time (movementPoints (moves calls a))
           = map MovementPoint.time (movementPoints a) ++ map call_time calls).
Proof.
  split; [exact move_no_op |].
  split; [exact move_accepted |].
  split; [| intros calls a; apply moves_all_accepted].
  intros first rest a Hfirst Hrest.
  destruct (move_accepted_fields first a Hfirst) as (_ & _ & Ht).
  destruct (moves_no_ops rest (move first a)) as [H1 H2].
  { rewrite Ht. exact Hrest. }
  split; [apply move_accepted, Hfirst |].
  split; [exact H1 | exact H2].
Qed.

Lemma pointer_gate_counts_from_last_accepted_witness :
  (accepted (gate_call 100) (constructor 0 0)
   /\ each_no_op [gate_call 120; gate_call 150] (move (gate_call 100) (constructor 0 0))
   /\ moves [gate_call 100; gate_call 120; gate_call 150] (constructor 0 0)
      = move (gate_call 100) (constructor 0 0))
  /\ (each_accepted [gate_call 51; gate_call 102; gate_call 153] (constructor 0 0)
      /\ map PointerSample.timestamp
           (mouseData (moves [gate_call 51; gate_call 102; gate_call 153] (constructor 0 0)))
         = [51; 102; 153]%Z
      /\ map MovementPoint.time
           (movementPoints (moves [gate_call 51; gate_call 102; gate_call 153] (constructor 0 0)))
         = [51; 102; 153]%Z).
Proof.
  destruct pointer_gate_counts_from_last_accepted as (_ & _ & Hclose & Hfar).
  split.
  - apply Hclose; [cbn; lia |].
    repeat constructor; cbn; lia.
  - apply (Hfar [gate_call 51; gate_call 102; gate_call 153] (constructor 0 0)).
    cbn; lia.
Defined.

(* ================================================================== *)
(** ** Scroll recording *)

Lemma calculateScrollVelocity_two_stored a entries prev last :
  scrollData a = entries ++ [prev; last] ->
  calculateScrollVelocity a
  = Math_abs (ScrollSample.position last - ScrollSample.position prev)
    / (Z2F (ScrollSample.timestamp last - ScrollSample.timestamp prev) / 1000).
Proof.
  intros H. unfold calculateScrollVelocity. rewrite H, rev_app_distr. reflexivity.
Qed.

Lemma calculateScrollVelocity_few_stored a :
  (List.length (scrollData a) < 2)%nat -> calculateScrollVelocity a = 0.
Proof.
  unfold calculateScrollVelocity.
  destruct (scrollData a) as [| s [| s' l]]; cbn [List.length]; intros H;
    [reflexivity | reflexivity | lia].
Qed.

(** C2 (what the code does).  [handleScroll] evaluates
    [calculateScrollVelocity] before it pushes the new entry, so the
    velocity it stores is the one between the two entries stored before
    the call, whatever the offset and time of the new entry; it is 0 while
    fewer than two entries are stored.  Offsets 0, 100, 100 at 0, 1000,
    2000 ms are stored with velocities 0, 0, 100. *)
Theorem scroll_velocity_is_of_the_two_previous_entries :
  (forall now window a,
     scrollData (handleScroll now window a)
     = scrollData a ++
       [ {| ScrollSample.position := scrollY window;
            ScrollSample.timestamp := now;
            ScrollSample.velocity := calculateScrollVelocity a |} ])
  /\ (forall a entries prev last,
        scrollData a = entries ++ [prev; last] ->
        calculateScrollVelocity a
        = Math_abs (ScrollSample.position last - ScrollSample.position prev)
          / (Z2F (ScrollSample.timestamp last - ScrollSample.timestamp prev) / 1000))
  /\ (forall a, (List.length (scrollData a) < 2)%nat -> calculateScrollVelocity a = 0)
  /\ map ScrollSample.velocity
       (scrollData (scrolls [(0, 0%Z); (100, 1000%Z); (100, 2000%Z)] (constructor 0 0)))
     = [0; 0; 100].
Proof.
  split; [reflexivity |].
  split; [exact calculateScrollVelocity_two_stored |].
  split; [exact calculateScrollVelocity_few_stored |].
  reflexivity.
Qed.

(* ================================================================== *)
(** ** Loops, sums and sorting *)

Section IndexLoop.
Context {A B : Type} (f : A -> A -> B) (array : list A).
Variable body : nat -> list B -> completion (list B).
Hypothesis body_step : forall i acc a b,
  nth_error array (i - 1) = Some a -> nth_error array i = Some b ->
  body i acc = Normal (acc ++ [f a b]).

(** The index loop from [i] to the end visits the neighbours in order. *)
Lemma for_loop_from rest : forall before a acc,
  array = before ++ a :: rest ->
  for_loop (List.length rest) (S (List.length before)) body acc
  = Normal (acc ++ Spec.consecutive f (a :: rest)).
Proof.
  induction rest as [| b rest IH]; intros before a acc Harray.
  - cbn. rewrite app_nil_r. reflexivity.
  - cbn [List.length for_loop].
    rewrite (body_step (S (List.length before)) acc a b).
    + cbn [bind].
      replace (S (S (List.length before))) with (S (List.length (before ++ [a])))
        by (rewrite length_app; cbn; lia).
      rewrite (IH (before ++ [a]) b (acc ++ [f a b])).
      * rewrite <- app_assoc. reflexivity.
      * rewrite <- app_assoc. exact Harray.
    + rewrite Harray. cbn. rewrite Nat.sub_0_r.
      rewrite nth_error_app2 by lia. rewrite Nat.sub_diag. reflexivity.
    + rewrite Harray. rewrite nth_error_app2 by lia.
      replace (S (List.length before) - List.length before)%nat with 1%nat by lia.
      reflexivity.
Qed.

Lemma for_loop_whole l :
  array = l ->
  for_loop (List.length l - 1) 1 body [] = Normal (Spec.consecutive f l).
Proof.
  intros E. destruct l as [| a rest]; [reflexivity |].
  cbn [List.length]. rewrite Nat.sub_succ, Nat.sub_0_r.
  exact (for_loop_from rest [] a [] E).
Qed.

Lemma for_loop_consecutive :
  for_loop (List.length array - 1) 1 body [] = Normal (Spec.consecutive f array).
Proof. apply for_loop_whole. reflexivity. Qed.
End IndexLoop.

Lemma consecutive_length {A B} (f : A -> A -> B) (l : list A) :
  List.length (Spec.consecutive f l) = (List.length l - 1)%nat.
Proof.
  induction l as [| a [| b l] IH]; [reflexivity | reflexivity |].
  cbn [Spec.consecutive List.length] in *. rewrite IH. lia.
Qed.

Lemma fold_left_Zadd l : forall a, fold_left Z.add l a = (a + fold_right Z.add 0 l)%Z.
Proof.
  induction l as [| b l IH]; intros a; cbn; [lia |].
  rewrite IH. lia.
Qed.

Lemma reduce1_Zadd l :
  l <> [] -> reduce1 Z.add l = Normal (fold_right Z.add 0%Z l).
Proof.
  destruct l as [| a l]; [congruence |]. intros _. cbn.
  rewrite fold_left_Zadd. reflexivity.
Qed.

Lemma last_cons {A} (l : list A) : forall a b, last (b :: l) a = last l b.
Proof.
  induction l as [| c l IH]; intros a b; [reflexivity |].
  change (last (b :: c :: l) a) with (last (c :: l) a).
  rewrite (IH a c), (IH b c). reflexivity.
Qed.

(** The intervals of a list add up to the distance from its first to its
    last entry. *)
Lemma intervals_telescope l : forall a,
  fold_right Z.add 0%Z (Spec.intervals (a :: l)) = (last l a - a)%Z.
Proof.
  induction l as [| b l IH]; intros a; [cbn; lia |].
  change (Spec.intervals (a :: b :: l)) with ((b - a)%Z :: Spec.intervals (b :: l)).
  cbn [fold_right]. rewrite IH, (last_cons l a b). lia.
Qed.

(** *** [sort] with the comparator [a - b] *)

Lemma insert_by_perm a l : Permutation (insert_by ascending_order a l) (a :: l).
Proof.
  induction l as [| b l IH]; cbn; [reflexivity |].
  destruct (ascending_order a b <=? 0)%Z; [reflexivity |].
  rewrite IH. apply perm_swap.
Qed.

Lemma sort_by_perm l : Permutation (sort_by ascending_order l) l.
Proof.
  induction l as [| a l IH]; cbn; [reflexivity |].
  rewrite insert_by_perm, IH. reflexivity.
Qed.

Lemma insert_by_sorted a l :
  StronglySorted Z.le l -> StronglySorted Z.le (insert_by ascending_order a l).
Proof.
  induction 1 as [| b l Hs IH Hb]; cbn; [repeat constructor |].
  unfold ascending_order at 1.
  destruct (a - b <=? 0)%Z eqn:E.
  - apply Z.leb_le in E. constructor; [constructor; assumption |].
    constructor; [lia |].
    eapply Forall_impl; [| exact Hb]. cbn. intros; lia.
  - apply Z.leb_gt in E. constructor; [exact IH |].
    rewrite (insert_by_perm a l). constructor; [lia | exact Hb].
Qed.

Lemma sort_by_sorted l : StronglySorted Z.le (sort_by ascending_order l).
Proof.
  induction l as [| a l IH]; cbn; [constructor |].
  apply insert_by_sorted, IH.
Qed.

(** An ascending list is determined by its entries. *)
Lemma ascending_unique l : forall l',
  StronglySorted Z.le l -> StronglySorted Z.le l' -> Permutation l l' -> l = l'.
Proof.
  induction l as [| a l IH]; intros l' Hl Hl' Hp.
  - apply Permutation_nil in Hp. congruence.
  - destruct l' as [| b l'].
    { symmetry in Hp. apply Permutation_nil in Hp. discriminate. }
    inversion Hl as [| ? ? Hs Ha]; subst.
    inversion Hl' as [| ? ? Hs' Hb]; subst.
    assert (a = b) as ->.
    { assert (Hin : In a (b :: l')) by (eapply Permutation_in; [exact Hp | left; reflexivity]).
      assert (Hin' : In b (a :: l))
        by (eapply Permutation_in; [symmetry; exact Hp | left; reflexivity]).
      rewrite Forall_forall in Ha, Hb.
      destruct Hin as [-> | Hin]; [reflexivity |].
      destruct Hin' as [-> | Hin']; [reflexivity |].
      specialize (Ha _ Hin'). specialize (Hb _ Hin). lia. }
    f_equal. apply IH; [assumption | assumption |].
    eapply Permutation_cons_inv. exact Hp.
Qed.

Lemma sort_by_ascending l ascending :
  Permutation ascending l -> Sorted Z.le ascending ->
  sort_by ascending_order l = ascending.
Proof.
  intros Hp Hs. apply ascending_unique.
  - apply sort_by_sorted.
  - apply Sorted_StronglySorted; [| exact Hs]. intros x y z; apply Z.le_trans.
  - rewrite sort_by_perm. symmetry. exact Hp.
Qed.

(* ================================================================== *)
(** ** Decision speed *)

Lemma calculateDecisionSpeed_eq a :
  calculateDecisionSpeed a
  = Normal (Spec.decisionSpeed
              (sort_by ascending_order (map ClickSample.timestamp (clickData a)))).
Proof.
  unfold calculateDecisionSpeed, Spec.decisionSpeed.
  fold ascending_order.
  set (times := sort_by ascending_order (map ClickSample.timestamp (clickData a))).
  assert (Hlen : List.length times = List.length (clickData a)).
  { unfold times. rewrite (Permutation_length (sort_by_perm _)). apply length_map. }
  rewrite Hlen.
  destruct (List.length (clickData a) <? 2)%nat eqn:E; [reflexivity |].
  apply Nat.ltb_ge in E.
  rewrite <- Hlen.
  rewrite (for_loop_consecutive (fun t t' => (t' - t)%Z) times).
  - cbn [bind]. fold (Spec.intervals times).
    rewrite reduce1_Zadd.
    + reflexivity.
    + intros Hnil. apply (f_equal (@List.length Z)) in Hnil.
      unfold Spec.intervals in Hnil. rewrite consecutive_length in Hnil. cbn in Hnil. lia.
  - intros i acc t t' Ht Ht'. unfold get. rewrite Ht, Ht'. reflexivity.
Qed.

(** C5.  [calculateDecisionSpeed] returns 0.5 for fewer than 2 clicks;
    otherwise, with the click timestamps put in ascending order, it
    returns min(1, 1000 / m) for m the mean of the intervals between
    neighbouring timestamps.  For clicks at 0, 500, 1000 and 1500 ms it
    returns exactly 1. *)
Theorem decisionSpeed_is_min_of_1_and_1000_over_mean_interval :
  (forall a, (List.length (clickData a) < 2)%nat -> calculateDecisionSpeed a = Normal 0.5)
  /\ (forall a ascending,
        (2 <= List.length (clickData a))%nat ->
        Permutation ascending (map ClickSample.timestamp (clickData a)) ->
        Sorted Z.le ascending ->
        calculateDecisionSpeed a
        = Normal (Math_min2 1 (1000 / Spec.meanInterval ascending)))
  /\ (forall a,
        map ClickSample.timestamp (clickData a) = [0; 500; 1000; 1500]%Z ->
        calculateDecisionSpeed a = Normal 1).
Proof.
  split; [| split].
  - intros a H. unfold calculateDecisionSpeed.
    apply Nat.ltb_lt in H. rewrite H. reflexivity.
  - intros a ascending Hlen Hp Hs.
    rewrite calculateDecisionSpeed_eq, (sort_by_ascending _ ascending Hp Hs).
    unfold Spec.decisionSpeed.
    rewrite (Permutation_length Hp), length_map.
    apply Nat.ltb_ge in Hlen. rewrite Hlen. reflexivity.
  - intros a H. rewrite calculateDecisionSpeed_eq, H. reflexivity.
Qed.

Lemma decisionSpeed_is_min_of_1_and_1000_over_mean_interval_witness :
  calculateDecisionSpeed (this (run [click 900 (mkMouseEvent 1 2 None)] (startup 0 0 [])))
    = Normal 0.5
  /\ calculateDecisionSpeed
       (this (run [click 900 (mkMouseEvent 1 2 None); click 100 (mkMouseEvent 3 4 None);
                   click 400 (mkMouseEvent 5 6 None)] (startup 0 0 [])))
     = Normal (Math_min2 1 (1000 / Spec.meanInterval [100; 400; 900]%Z))
  /\ calculateDecisionSpeed
       (this (run [click 0 (mkMouseEvent 1 2 None); click 500 (mkMouseEvent 1 2 None);
                   click 1000 (mkMouseEvent 1 2 None); click 1500 (mkMouseEvent 1 2 None)]
                  (startup 0 0 [])))
     = Normal 1.
Proof.
  destruct decisionSpeed_is_min_of_1_and_1000_over_mean_interval as (Hfew & Hmany & Hexact).
  split; [| split].
  - apply Hfew. cbn. lia.
  - apply Hmany.
    + cbn. lia.
    + cbn. apply Permutation_sym.
      apply (perm_trans (perm_swap 100%Z 900%Z [400%Z])).
      apply perm_skip, perm_swap.
    + repeat constructor; lia.
  - apply Hexact. reflexivity.
Defined.

(* ================================================================== *)
(** ** Movement consistency *)

Lemma reduce1_sum speeds :
  speeds <> [] -> reduce1 (fun a b => a + b) speeds = Normal (Spec.sum speeds).
Proof.
  destruct speeds; [congruence | reflexivity].
Qed.

Lemma calculateMovementConsistency_eq a :
  calculateMovementConsistency a = Normal (Spec.movementConsistency (movementPoints a)).
Proof.
  unfold calculateMovementConsistency, Spec.movementConsistency.
  destruct (List.length (movementPoints a) <? 10)%nat eqn:E; [reflexivity |].
  apply Nat.ltb_ge in E.
  rewrite (for_loop_consecutive Spec.stepSpeed (movementPoints a)).
  - cbn [bind]. fold (Spec.perStepSpeeds (movementPoints a)).
    rewrite reduce1_sum.
    + reflexivity.
    + intros Hnil. apply (f_equal (@List.length float)) in Hnil.
      unfold Spec.perStepSpeeds in Hnil. rewrite consecutive_length in Hnil.
      cbn in Hnil. lia.
  - intros i acc p q Hp Hq. unfold get. rewrite Hp, Hq. reflexivity.
Qed.

(* ================================================================== *)
(** ** Metric extraction on the heap *)

Module HeapFacts.
Local Abbreviation on_values := analyzeBehaviorPatterns (only parsing).
Import Heap.

Lemma bind_run {A B} (m : M A) (k : A -> M B) h a h' :
  m h = (Normal a, h') -> bind m k h = k a h'.
Proof. intros E. unfold bind. rewrite E. reflexivity. Qed.

(** A throw ends the computation with the heap it has reached. *)
Lemma bind_outcome {A B} (m : M A) (k : A -> M B) h c h' :
  m h = (c, h') ->
  bind m k h = match c with
               | Normal a => k a h'
               | TypeError => (TypeError, h')
               | RangeError => (RangeError, h')
               end.
Proof. intros E. unfold bind. rewrite E. reflexivity. Qed.

Lemma read_run h r a : nth_error h r = Some a -> read r h = (Normal a, h).
Proof. intros E. unfold read. rewrite E. reflexivity. Qed.

Lemma array_length_run h r a :
  nth_error h r = Some a -> array_length r h = (Normal (List.length a), h).
Proof. intros E. unfold array_length. rewrite (bind_run _ _ _ _ _ (read_run _ _ _ E)). reflexivity. Qed.

Lemma index_run h r a i :
  nth_error h r = Some a -> index r i h = (Normal (nth i a Undefined), h).
Proof. intros E. unfold index. rewrite (bind_run _ _ _ _ _ (read_run _ _ _ E)). reflexivity. Qed.

Lemma nth_error_old (h fresh : heap) r a :
  nth_error h r = Some a -> nth_error (h ++ fresh) r = Some a.
Proof.
  intros E. rewrite nth_error_app1; [exact E |].
  apply nth_error_Some. congruence.
Qed.

Lemma nth_error_new (h : heap) a : nth_error (h ++ [a]) (List.length h) = Some a.
Proof. rewrite nth_error_app2 by lia. rewrite Nat.sub_diag. reflexivity. Qed.

Lemma update_new (h : heap) a b : update (List.length h) b (h ++ [a]) = h ++ [b].
Proof. induction h as [| c h IH]; cbn; [reflexivity | rewrite IH; reflexivity]. Qed.

Lemma push_run (h : heap) a v :
  push (List.length h) v (h ++ [a]) = (Normal tt, h ++ [a ++ [v]]).
Proof.
  unfold push. rewrite (bind_run _ _ _ _ _ (read_run _ _ _ (nth_error_new h a))).
  unfold write. rewrite update_new. reflexivity.
Qed.

Lemma represents_old h fresh o a : represents h o a -> represents (h ++ fresh) o a.
Proof.
  intros (H1 & H2 & H3 & H4 & H5).
  repeat split; try (apply nth_error_old; assumption). exact H5.
Qed.

Lemma nth_map_move points i q :
  nth_error points i = Some q -> nth i (map MoveV points) Undefined = MoveV q.
Proof.
  intros E. rewrite (nth_indep _ Undefined (MoveV q)).
  - rewrite map_nth. f_equal. apply nth_error_nth, E.
  - rewrite length_map. apply nth_error_Some. congruence.
Qed.

Lemma nth_map_int times i t :
  nth_error times i = Some t -> nth i (map Int times) Undefined = Int t.
Proof.
  intros E. rewrite (nth_indep _ Undefined (Int t)).
  - rewrite map_nth. f_equal. apply nth_error_nth, E.
  - rewrite length_map. apply nth_error_Some. congruence.
Qed.

(** A callback that reads one property of every entry. *)
Lemma each_run {A} (inj : A -> value) (field : string) (prop : A -> value) (l : list A) h :
  (forall a, dot field (inj a) = ret (prop a)) ->
  each (dot field) (map inj l) h = (Normal (map prop l), h).
Proof.
  intros Hdot. induction l as [| a l IH]; [reflexivity |].
  cbn [map each]. rewrite Hdot. unfold bind at 1. cbn [ret].
  unfold bind at 1. rewrite IH. reflexivity.
Qed.

Lemma array_map_run {A} (inj : A -> value) (field : string) (prop : A -> value)
    (l : list A) h r :
  (forall a, dot field (inj a) = ret (prop a)) ->
  nth_error h r = Some (map inj l) ->
  array_map (dot field) r h = (Normal (List.length h), h ++ [map prop l]).
Proof.
  intros Hdot Hr. unfold array_map.
  rewrite (bind_run _ _ _ _ _ (read_run _ _ _ Hr)).
  rewrite (bind_run _ _ _ _ _ (each_run inj field prop l h Hdot)).
  reflexivity.
Qed.

(** A fold whose callback never throws. *)
Lemma fold_run {A B} (inj : A -> value) (f : B -> value -> M B) (g : B -> A -> B) (l : list A) :
  (forall x a, f x (inj a) = ret (g x a)) ->
  forall init,
    fold_left (fun acc b => bind acc (fun x => f x b)) (map inj l) (ret init)
    = ret (fold_left g l init).
Proof.
  intros Hf. induction l as [| a l IH]; intros init; [reflexivity |].
  cbn [map fold_left].
  change (bind (ret init) (fun x => f x (inj a))) with (f init (inj a)).
  rewrite Hf. apply IH.
Qed.

Lemma array_reduce1_run {A} (inj : A -> value) (f : value -> value -> M value)
    (g : value -> A -> value) d ds h r :
  (forall x a, f x (inj a) = ret (g x a)) ->
  nth_error h r = Some (map inj (d :: ds)) ->
  array_reduce1 f r h = (Normal (fold_left g ds (inj d)), h).
Proof.
  intros Hf Hr. unfold array_reduce1.
  rewrite (bind_run _ _ _ _ _ (read_run _ _ _ Hr)).
  cbn [map]. rewrite (fold_run inj f g ds Hf). reflexivity.
Qed.

Lemma array_reduce_run {A B} (inj : A -> value) (f : B -> value -> M B)
    (g : B -> A -> B) init l h r :
  (forall x a, f x (inj a) = ret (g x a)) ->
  nth_error h r = Some (map inj l) ->
  array_reduce f init r h = (Normal (fold_left g l init), h).
Proof.
  intros Hf Hr. unfold array_reduce.
  rewrite (bind_run _ _ _ _ _ (read_run _ _ _ Hr)).
  rewrite (fold_run inj f g l Hf). reflexivity.
Qed.

(** The sort of an array of timestamps. *)
Lemma insert_by_int t times :
  insert_by (fun x y => sign_of (minus x y)) (Int t) (map Int times)
  = map Int (insert_by ascending_order t times).
Proof.
  induction times as [| t' times IH]; [reflexivity |].
  cbn [map insert_by]. cbn [minus sign_of]. unfold ascending_order at 1.
  destruct (t - t' <=? 0)%Z; [reflexivity |].
  rewrite IH. reflexivity.
Qed.

Lemma sort_by_int times :
  sort_by (fun x y => sign_of (minus x y)) (map Int times)
  = map Int (sort_by ascending_order times).
Proof.
  induction times as [| t times IH]; [reflexivity |].
  cbn [map sort_by]. rewrite IH. apply insert_by_int.
Qed.

Lemma filter_int_defined times :
  filter (fun v => negb (is_undefined v)) (map Int times) = map Int times.
Proof. induction times as [| t times IH]; cbn; [reflexivity | rewrite IH; reflexivity]. Qed.

Lemma filter_int_undefined times : filter is_undefined (map Int times) = [].
Proof. induction times as [| t times IH]; cbn; [reflexivity | exact IH]. Qed.

Lemma array_sort_run (h : heap) times :
  array_sort minus (List.length h) (h ++ [map Int times])
  = (Normal (List.length h), h ++ [map Int (sort_by ascending_order times)]).
Proof.
  unfold array_sort.
  rewrite (bind_run _ _ _ _ _ (read_run _ _ _ (nth_error_new h _))).
  rewrite filter_int_defined, filter_int_undefined, app_nil_r, sort_by_int.
  unfold bind, write. rewrite update_new. reflexivity.
Qed.

(** The index loops, each pushing into the array allocated last. *)
Section HeapLoop.
Context {A B : Type} (f : A -> A -> B) (inj : B -> value).
Variables (h : heap) (array : list A) (body : nat -> M unit).
Hypothesis body_step : forall i acc a b,
  nth_error array (i - 1) = Some a -> nth_error array i = Some b ->
  body i (h ++ [map inj acc]) = (Normal tt, h ++ [map inj (acc ++ [f a b])]).

Lemma heap_loop_from rest : forall before a acc,
  array = before ++ a :: rest ->
  for_loop (List.length rest) (S (List.length before)) body (h ++ [map inj acc])
  = (Normal tt, h ++ [map inj (acc ++ Spec.consecutive f (a :: rest))]).
Proof.
  induction rest as [| b rest IH]; intros before a acc Harray.
  - cbn. rewrite app_nil_r. reflexivity.
  - cbn [List.length for_loop].
    assert (Ha : nth_error array (S (List.length before) - 1) = Some a).
    { rewrite Harray. cbn. rewrite Nat.sub_0_r.
      rewrite nth_error_app2 by lia. rewrite Nat.sub_diag. reflexivity. }
    assert (Hb : nth_error array (S (List.length before)) = Some b).
    { rewrite Harray. rewrite nth_error_app2 by lia.
      replace (S (List.length before) - List.length before)%nat with 1%nat by lia.
      reflexivity. }
    rewrite (bind_run _ _ _ _ _ (body_step (S (List.length before)) acc a b Ha Hb)).
    replace (S (S (List.length before))) with (S (List.length (before ++ [a])))
      by (rewrite length_app; cbn; lia).
    rewrite (IH (before ++ [a]) b (acc ++ [f a b])).
    + rewrite <- app_assoc. reflexivity.
    + rewrite <- app_assoc. exact Harray.
Qed.

Lemma heap_loop_whole l :
  array = l ->
  for_loop (List.length l - 1) 1 body (h ++ [[]])
  = (Normal tt, h ++ [map inj (Spec.consecutive f l)]).
Proof.
  intros E. destruct l as [| a rest]; [reflexivity |].
  cbn [List.length]. rewrite Nat.sub_succ, Nat.sub_0_r.
  exact (heap_loop_from rest [] a [] E).
Qed.
End HeapLoop.

Lemma calculateDecisionSpeed_run h o a :
  represents h o a ->
  exists fresh,
    calculateDecisionSpeed o h
    = (Normal (Spec.decisionSpeed
                 (sort_by ascending_order (map ClickSample.timestamp (clickData a)))),
       h ++ fresh).
Proof.
  intros (_ & Hclick & _).
  unfold calculateDecisionSpeed, Spec.decisionSpeed.
  rewrite (bind_run _ _ _ _ _ (array_length_run _ _ _ Hclick)).
  set (times := sort_by ascending_order (map ClickSample.timestamp (clickData a))).
  assert (Hlen : List.length times = List.length (clickData a)).
  { unfold times. rewrite (Permutation_length (sort_by_perm _)). apply length_map. }
  rewrite Hlen, length_map.
  destruct (List.length (clickData a) <? 2)%nat eqn:E.
  { exists []. rewrite app_nil_r. reflexivity. }
  apply Nat.ltb_ge in E.
  rewrite (bind_run _ _ _ _ _
             (array_map_run ClickV "timestamp" (fun c => Int (ClickSample.timestamp c))
                            (clickData a) h _ (fun c => eq_refl) Hclick)).
  rewrite <- (map_map ClickSample.timestamp Int).
  rewrite (bind_run _ _ _ _ _ (array_sort_run h _)).
  fold times.
  unfold alloc at 1. unfold bind at 1.
  rewrite (bind_run _ _ _ _ _
             (array_length_run _ _ _
                (nth_error_old _ [[]] _ _ (nth_error_new h (map Int times))))).
  rewrite length_map.
  rewrite length_app. cbn [List.length]. rewrite Nat.add_1_r.
  replace (S (List.length h)) with (List.length (h ++ [map Int times]))
    by (rewrite length_app; cbn; lia).
  assert (Hbody : forall i acc t t',
             nth_error times (i - 1) = Some t -> nth_error times i = Some t' ->
             (t1 <- index (List.length h) i ;;
              t0 <- index (List.length h) (i - 1) ;;
              push (List.length (h ++ [map Int times])) (minus t1 t0))
               ((h ++ [map Int times]) ++ [map Int acc])
             = (Normal tt, (h ++ [map Int times]) ++ [map Int (acc ++ [(t' - t)%Z])])).
  { intros i acc t t' Ht Ht'.
    rewrite (bind_run _ _ _ _ _
               (index_run _ _ _ i (nth_error_old _ [map Int acc] _ _ (nth_error_new h _)))).
    rewrite (bind_run _ _ _ _ _
               (index_run _ _ _ (i - 1) (nth_error_old _ [map Int acc] _ _ (nth_error_new h _)))).
    rewrite (nth_map_int _ _ _ Ht), (nth_map_int _ _ _ Ht').
    cbn [minus]. rewrite push_run, map_app. reflexivity. }
  rewrite (bind_run _ _ _ _ _
             (heap_loop_whole (fun t t' => (t' - t)%Z) Int (h ++ [map Int times]) times _ Hbody
                             times eq_refl)).
  fold (Spec.intervals times).
  assert (Hne : Spec.intervals times <> []).
  { intros Hnil. apply (f_equal (@List.length Z)) in Hnil.
    unfold Spec.intervals in Hnil. rewrite consecutive_length in Hnil.
    cbn in Hnil. lia. }
  unfold Spec.meanInterval.
  destruct (Spec.intervals times) as [| d ds]; [congruence |].
  rewrite (bind_run _ _ _ _ _
             (array_reduce1_run Int (fun a b => ret (plus a b))
                (fun (x : value) (b : Z) => plus x (Int b)) d ds _ _
                (fun x b => eq_refl) (nth_error_new _ _))).
  rewrite (bind_run _ _ _ _ _ (array_length_run _ _ _ (nth_error_new _ _))).
  unfold ret.
  exists [map Int times; map Int (d :: ds)].
  rewrite <- app_assoc. cbn [app].
  do 3 f_equal.
  assert (Hfold : forall l z, fold_left (fun (x : value) (b : Z) => plus x (Int b)) l (Int z)
                              = Int (fold_left Z.add l z)).
  { induction l as [| b l IH]; intros z; [reflexivity | cbn; apply IH]. }
  rewrite Hfold. cbn [ToNumber fold_right]. rewrite fold_left_Zadd, length_map.
  reflexivity.
Qed.

Lemma fold_plus_num l : forall a,
  fold_left (fun (x : value) (b : float) => plus x (Num b)) l (Num a)
  = Num (fold_left add l a).
Proof. induction l as [| b l IH]; intros a; [reflexivity | cbn; apply IH]. Qed.

Lemma calculateMovementConsistency_run h o a :
  represents h o a ->
  exists fresh,
    calculateMovementConsistency o h
    = (Normal (Spec.movementConsistency (movementPoints a)), h ++ fresh).
Proof.
  intros (_ & _ & _ & Hmove & _).
  unfold calculateMovementConsistency, Spec.movementConsistency.
  rewrite (bind_run _ _ _ _ _ (array_length_run _ _ _ Hmove)), length_map.
  destruct (List.length (movementPoints a) <? 10)%nat eqn:E.
  { exists []. rewrite app_nil_r. reflexivity. }
  apply Nat.ltb_ge in E.
  rewrite (bind_run _ _ _ _ _ (eq_refl : alloc [] h = (Normal (List.length h), h ++ [[]]))).
  set (points := movementPoints a) in *.
  assert (Hbody : forall i acc p q,
             nth_error points (i - 1) = Some p -> nth_error points i = Some q ->
             (p <- index (ref_movementPoints o) (i - 1) ;;
              px <- dot "x" p ;;
              py <- dot "y" p ;;
              q <- index (ref_movementPoints o) i ;;
              qx <- dot "x" q ;;
              qy <- dot "y" q ;;
              let dist := calculateDistance px py qx qy in
              qt <- dot "time" q ;;
              pt <- dot "time" p ;;
              let timeDiff := minus qt pt in
              push (List.length h) (Num (ToNumber dist / (ToNumber timeDiff / 1000))))
               (h ++ [map Num acc])
             = (Normal tt, h ++ [map Num (acc ++ [Spec.stepSpeed p q])])).
  { intros i acc p q Hp Hq.
    rewrite (bind_run _ _ _ _ _
               (index_run _ _ _ (i - 1) (nth_error_old _ [map Num acc] _ _ Hmove))).
    rewrite (nth_map_move _ _ _ Hp).
    change (dot "x" (MoveV p)) with (ret (Num (MovementPoint.x p))).
    change (dot "y" (MoveV p)) with (ret (Num (MovementPoint.y p))).
    change (dot "time" (MoveV p)) with (ret (Int (MovementPoint.time p))).
    unfold bind at 1, ret at 1. unfold bind at 1, ret at 1.
    rewrite (bind_run _ _ _ _ _
               (index_run _ _ _ i (nth_error_old _ [map Num acc] _ _ Hmove))).
    rewrite (nth_map_move _ _ _ Hq).
    change (dot "x" (MoveV q)) with (ret (Num (MovementPoint.x q))).
    change (dot "y" (MoveV q)) with (ret (Num (MovementPoint.y q))).
    change (dot "time" (MoveV q)) with (ret (Int (MovementPoint.time q))).
    unfold bind at 1, ret at 1. unfold bind at 1, ret at 1.
    unfold bind at 1, ret at 1. unfold bind at 1, ret at 1.
    rewrite push_run, map_app. reflexivity. }
  rewrite (bind_run _ _ _ _ _
             (heap_loop_whole Spec.stepSpeed Num h points _ Hbody points eq_refl)).
  fold (Spec.perStepSpeeds points).
  assert (Hne : Spec.perStepSpeeds points <> []).
  { intros Hnil. apply (f_equal (@List.length float)) in Hnil.
    unfold Spec.perStepSpeeds in Hnil. rewrite consecutive_length in Hnil.
    cbn in Hnil. lia. }
  unfold Spec.variance, Spec.mean.
  destruct (Spec.perStepSpeeds points) as [| d ds]; [congruence |].
  rewrite (bind_run _ _ _ _ _
             (array_reduce1_run Num (fun a b => ret (plus a b))
                (fun (x : value) (b : float) => plus x (Num b)) d ds _ _
                (fun x b => eq_refl) (nth_error_new _ _))).
  rewrite (bind_run _ _ _ _ _ (array_length_run _ _ _ (nth_error_new _ _))).
  rewrite fold_plus_num, length_map. cbn [ToNumber].
  rewrite (bind_run _ _ _ _ _
             (array_reduce_run Num _
                (fun x b => x + Math_pow_2 (b - fold_left add ds d / of_length (List.length (d :: ds))))
                0 (d :: ds) _ _ (fun x b => eq_refl) (nth_error_new _ _))).
  rewrite (bind_run _ _ _ _ _ (array_length_run _ _ _ (nth_error_new _ _))).
  rewrite length_map.
  exists [map Num (d :: ds)]. reflexivity.
Qed.

Lemma analyzeBehaviorPatterns_run maxArguments now h o a :
  represents h o a ->
  exists fresh,
    analyzeBehaviorPatterns maxArguments now o h
    = (on_values maxArguments now a, h ++ fresh).
Proof.
  intros Hrep.
  pose proof Hrep as (Hmouse & Hclick & Hscroll & Hmove & Hstart).
  unfold analyzeBehaviorPatterns, on_values.
  rewrite calculateMovementConsistency_eq, calculateDecisionSpeed_eq.
  rewrite (bind_run _ _ _ _ _ (array_length_run _ _ _ Hmouse)), length_map.
  assert (Havg :
    (if (0 <? List.length (mouseData a))%nat
     then total <- array_reduce
                     (fun sum point => speed <- dot "speed" point ;; ret (sum + ToNumber speed))
                     0 (ref_mouseData o) ;;
          len <- array_length (ref_mouseData o) ;;
          ret (total / of_length len)
     else ret 0) h
    = (Normal (if (0 <? List.length (mouseData a))%nat
               then reduce (fun sum point => sum + PointerSample.speed point) 0 (mouseData a)
                    / of_length (List.length (mouseData a))
               else 0), h)).
  { destruct (0 <? List.length (mouseData a))%nat; [| reflexivity].
    rewrite (bind_run _ _ _ _ _
               (array_reduce_run PointerV _
                  (fun sum point => sum + PointerSample.speed point)
                  0 (mouseData a) _ _ (fun x b => eq_refl) Hmouse)).
    rewrite (bind_run _ _ _ _ _ (array_length_run _ _ _ Hmouse)), length_map.
    reflexivity. }
  rewrite (bind_run _ _ _ _ _ Havg). clear Havg.
  rewrite (bind_run _ _ _ _ _ (array_length_run _ _ _ Hclick)), length_map.
  rewrite (bind_run _ _ _ _ _ (array_length_run _ _ _ Hscroll)), length_map.
  assert (Hscr : exists fresh1,
    (if (0 <? List.length (scrollData a))%nat
     then velocities <- array_map (dot "velocity") (ref_scrollData o) ;;
          spread <- read velocities ;;
          if (List.length spread <=? maxArguments)%nat
          then ret (Math_max (map ToNumber spread))
          else throw_range
     else ret 0) h
    = (if (0 <? List.length (scrollData a))%nat
       then call_spread maxArguments Math_max (map ScrollSample.velocity (scrollData a))
       else Normal 0, h ++ fresh1)).
  { destruct (0 <? List.length (scrollData a))%nat.
    - rewrite (bind_run _ _ _ _ _
                 (array_map_run ScrollV "velocity" (fun s => Num (ScrollSample.velocity s))
                                (scrollData a) h _ (fun s => eq_refl) Hscroll)).
      rewrite (bind_run _ _ _ _ _ (read_run _ _ _ (nth_error_new _ _))).
      unfold call_spread. rewrite !length_map, map_map. cbn [ToNumber].
      eexists. destruct (List.length (scrollData a) <=? maxArguments)%nat; reflexivity.
    - exists []. rewrite app_nil_r. reflexivity. }
  destruct Hscr as [fresh1 Hscr].
  rewrite (bind_outcome _ _ _ _ _ Hscr). clear Hscr.
  destruct (if (0 <? List.length (scrollData a))%nat
            then call_spread maxArguments Math_max (map ScrollSample.velocity (scrollData a))
            else Normal 0) as [scrollIntensity | |];
    cbn [JS.bind]; [| exists fresh1; reflexivity | exists fresh1; reflexivity].
  destruct (calculateMovementConsistency_run (h ++ fresh1) o a (represents_old _ _ _ _ Hrep))
    as [fresh2 Hcons].
  rewrite (bind_run _ _ _ _ _ Hcons). clear Hcons.
  destruct (calculateDecisionSpeed_run ((h ++ fresh1) ++ fresh2) o a
              (represents_old _ _ _ _ (represents_old _ _ _ _ Hrep)))
    as [fresh3 Hdec].
  rewrite (bind_run _ _ _ _ _ Hdec). clear Hdec.
  exists (fresh1 ++ fresh2 ++ fresh3).
  unfold ret. rewrite Hstart, <- !app_assoc. reflexivity.
Qed.
End HeapFacts.

(** C9.  Run on a heap that holds the four buffers, metric extraction
    leaves every array that existed before the call as it was: the heap
    after the call is the heap before it followed by freshly allocated
    arrays, so the buffers still hold the same samples in the same order
    ([sort] works on the array made by [map], not on [clickData]).  This
    is so when the snapshot is returned and when the spread call throws;
    the outcome is the one computed from the buffer contents, a snapshot
    whenever [scrollData] is within what the spread call takes.  A second
    computation at the same time has the same outcome. *)
Theorem metric_extraction_leaves_the_buffers_unchanged :
  forall maxArguments now h o a,
    Heap.represents h o a ->
    (exists fresh,
       Heap.analyzeBehaviorPatterns maxArguments now o h
       = (analyzeBehaviorPatterns maxArguments now a, h ++ fresh)
       /\ Heap.represents (h ++ fresh) o a
       /\ exists fresh',
            Heap.analyzeBehaviorPatterns maxArguments now o (h ++ fresh)
            = (analyzeBehaviorPatterns maxArguments now a, (h ++ fresh) ++ fresh'))
    /\ ((List.length (scrollData a) <= maxArguments)%nat ->
        exists p, analyzeBehaviorPatterns maxArguments now a = Normal p).
Proof.
  intros maxArguments now h o a Hrep. split.
  - destruct (HeapFacts.analyzeBehaviorPatterns_run maxArguments now h o a Hrep)
      as (fresh & Hrun).
    exists fresh.
    split; [exact Hrun |].
    split; [apply HeapFacts.represents_old, Hrep |].
    apply (HeapFacts.analyzeBehaviorPatterns_run maxArguments now (h ++ fresh) o a).
    apply HeapFacts.represents_old, Hrep.
  - intros Hlen. unfold analyzeBehaviorPatterns, call_spread.
    rewrite calculateMovementConsistency_eq, calculateDecisionSpeed_eq, length_map.
    apply Nat.leb_le in Hlen. rewrite Hlen.
    destruct (0 <? List.length (scrollData a))%nat; eexists; reflexivity.
Qed.

Lemma metric_extraction_leaves_the_buffers_unchanged_witness :
  (exists fresh,
     Heap.analyzeBehaviorPatterns 100 3000 (Heap.handle sample_session)
       (Heap.store sample_session)
     = (analyzeBehaviorPatterns 100 3000 sample_session, Heap.store sample_session ++ fresh)
     /\ Heap.represents (Heap.store sample_session ++ fresh)
          (Heap.handle sample_session) sample_session
     /\ exists fresh',
          Heap.analyzeBehaviorPatterns 100 3000 (Heap.handle sample_session)
            (Heap.store sample_session ++ fresh)
          = (analyzeBehaviorPatterns 100 3000 sample_session,
             (Heap.store sample_session ++ fresh) ++ fresh'))
  /\ exists p, analyzeBehaviorPatterns 100 3000 sample_session = Normal p.
Proof.
  destruct (metric_extraction_leaves_the_buffers_unchanged 100 3000
              (Heap.store sample_session) (Heap.handle sample_session) sample_session)
    as [Hheap Hreturns].
  - repeat split.
  - split; [exact Hheap |]. apply Hreturns. cbn. lia.
Defined.

(* ================================================================== *)
(** ** Facts about binary64 arithmetic

    Signs and special values of the results of the operations, read off
    their specification on [spec_float]. *)

Module FloatFacts.
Import Binary64.
Local Open Scope Z_scope.

Lemma of_sign_not_nan s x : of_sign s x -> not_nan x.
Proof. destruct x; cbn; tauto. Qed.

(** *** Shifting and rounding keep a mantissa non-negative *)

Lemma shr_1_nonneg mrs : 0 <= shr_m mrs -> 0 <= shr_m (shr_1 mrs).
Proof.
  destruct mrs as [m r s]. destruct m as [| p | p]; cbn; intros H;
    try destruct p; cbn; lia.
Qed.

Lemma iter_shr_1_nonneg p : forall mrs,
  0 <= shr_m mrs -> 0 <= shr_m (iter_pos shr_1 p mrs).
Proof.
  induction p as [p IH | p IH |]; intros mrs H; cbn.
  - apply IH, IH, shr_1_nonneg, H.
  - apply IH, IH, H.
  - apply shr_1_nonneg, H.
Qed.

Lemma shr_record_of_loc_m m l : shr_m (shr_record_of_loc m l) = m.
Proof. destruct l as [| c]; [reflexivity | destruct c; reflexivity]. Qed.

Lemma shr_fexp_nonneg m e l :
  0 <= m -> 0 <= shr_m (fst (shr_fexp prec emax m e l)).
Proof.
  intros H. unfold shr_fexp, shr.
  destruct (fexp prec emax (Zdigits2 m + e) - e) as [| p | p]; cbn [fst];
    try (rewrite shr_record_of_loc_m; exact H).
  apply iter_shr_1_nonneg. rewrite shr_record_of_loc_m. exact H.
Qed.

Lemma round_nearest_even_nonneg m l : 0 <= m -> 0 <= round_nearest_even m l.
Proof.
  intros H. destruct l as [| c]; cbn; [exact H |].
  destruct c; try destruct (Z.even m); lia.
Qed.

Lemma binary_round_aux_sign s m e l :
  0 <= m -> of_sign s (binary_round_aux prec emax s m e l).
Proof.
  intros H. unfold binary_round_aux.
  pose proof (shr_fexp_nonneg m e l H) as H1.
  destruct (shr_fexp prec emax m e l) as [mrs' e']. cbn [fst] in H1.
  pose proof (shr_fexp_nonneg _ e' loc_Exact
                (round_nearest_even_nonneg _ (loc_of_shr_record mrs') H1)) as H2.
  destruct (shr_fexp prec emax _ e' loc_Exact) as [mrs'' e'']. cbn [fst] in H2.
  destruct (shr_m mrs'') as [| p | p]; [reflexivity | | lia].
  destruct (e'' <=? emax - prec); reflexivity.
Qed.

Lemma binary_round_sign s m e : of_sign s (binary_round prec emax s m e).
Proof.
  unfold binary_round.
  destruct (shl_align m e _) as [mz ez].
  apply binary_round_aux_sign. lia.
Qed.

Lemma binary_normalize_not_nan m e : not_nan (binary_normalize prec emax m e false).
Proof.
  destruct m; cbn; [exact I | |]; eapply of_sign_not_nan, binary_round_sign.
Qed.

Lemma binary_normalize_nonneg m e :
  0 <= m -> of_sign false (binary_normalize prec emax m e false).
Proof.
  destruct m; cbn; intros H; [reflexivity | apply binary_round_sign | lia].
Qed.

(** *** Signs of the operations *)

Lemma SFmul_square x : not_nan x -> of_sign false (SF64mul x x).
Proof.
  destruct x as [s | s | | s m e]; cbn; intros H; try contradiction;
    try (destruct s; reflexivity).
  replace (xorb s s) with false by (destruct s; reflexivity).
  apply binary_round_aux_sign. lia.
Qed.

Lemma SFadd_nonneg x y : of_sign false x -> of_sign false y -> of_sign false (SF64add x y).
Proof.
  destruct x as [sx | sx | | sx mx ex]; cbn [of_sign]; intros Hx; try contradiction; subst sx;
    destruct y as [sy | sy | | sy my ey]; cbn [of_sign]; intros Hy; try contradiction; subst sy;
    try reflexivity.
  unfold SF64add, SFadd, cond_Zopp. apply binary_normalize_nonneg. lia.
Qed.


Lemma SFsub_finite_l x y : finite x -> not_nan y -> not_nan (SF64sub x y).
Proof.
  destruct x as [sx | sx | | sx mx ex]; cbn [finite]; intros Hx; try contradiction;
    destruct y as [sy | sy | | sy my ey]; cbn [not_nan]; intros Hy; try contradiction;
    try exact I; try (destruct sx, sy; exact I).
  apply binary_normalize_not_nan.
Qed.

Lemma div_eucl_nonneg a b : 0 <= a -> 0 < b -> 0 <= fst (Z.div_eucl a b).
Proof.
  intros Ha Hb. change (fst (Z.div_eucl a b)) with (a / b). apply Z.div_pos; assumption.
Qed.

Lemma SFdiv_core_nonneg m1 e1 m2 e2 :
  0 <= fst (fst (SFdiv_core_binary prec emax (Zpos m1) e1 (Zpos m2) e2)).
Proof.
  unfold SFdiv_core_binary.
  set (s := _ - _ - _).
  set (m' := match s with Z0 => _ | Zpos _ => _ | Zneg _ => _ end).
  assert (Hm : 0 <= m').
  { subst m'. destruct s; [lia | | lia]. apply Z.shiftl_nonneg. lia. }
  pose proof (div_eucl_nonneg m' (Zpos m2) Hm ltac:(lia)) as Hq.
  destruct (Z.div_eucl m' (Zpos m2)) as [q r]. exact Hq.
Qed.

Lemma SFdiv_positive_finite s x y :
  of_sign s x -> positive_finite y -> of_sign s (SF64div x y).
Proof.
  destruct y as [sy | sy | | sy my ey]; cbn; try contradiction.
  destruct sy; [contradiction |]. intros Hx _.
  destruct x as [sx | sx | | sx mx ex]; cbn in *; try contradiction; subst sx;
    try (destruct s; reflexivity).
  pose proof (SFdiv_core_nonneg mx ex my ey) as Hq.
  destruct (SFdiv_core_binary prec emax (Zpos mx) ex (Zpos my) ey) as [[mz ez] lz].
  cbn [fst] in Hq.
  replace (xorb s false) with s by (destruct s; reflexivity).
  apply binary_round_aux_sign, Hq.
Qed.


(** A positive finite number divided by a number that is not negative. *)
Lemma SFdiv_by_nonneg x y :
  positive_finite x -> of_sign false y -> of_sign false (SF64div x y).
Proof.
  destruct x as [sx | sx | | sx mx ex]; cbn; try contradiction.
  destruct sx; [contradiction |]. intros _.
  destruct y as [sy | sy | | sy my ey]; cbn; intros Hy; try contradiction; subst sy;
    try reflexivity.
  pose proof (SFdiv_core_nonneg mx ex my ey) as Hq.
  destruct (SFdiv_core_binary prec emax (Zpos mx) ex (Zpos my) ey) as [[mz ez] lz].
  apply binary_round_aux_sign, Hq.
Qed.

(** *** Sizes of mantissas *)

Lemma digits2_pos_bounds p :
  2 ^ (Zpos (digits2_pos p) - 1) <= Zpos p < 2 ^ Zpos (digits2_pos p).
Proof.
  induction p as [p IH | p IH |]; cbn [digits2_pos]; [| | cbn; lia];
    rewrite Pos2Z.inj_succ;
    replace (Z.succ (Zpos (digits2_pos p)) - 1) with (Z.succ (Zpos (digits2_pos p) - 1)) by lia;
    rewrite !Z.pow_succ_r by lia;
    replace (2 ^ Zpos (digits2_pos p)) with (2 * 2 ^ (Zpos (digits2_pos p) - 1)) in *
      by (rewrite <- Z.pow_succ_r by lia; f_equal; lia);
    lia.
Qed.

Lemma Zdigits2_lt m k : 0 <= k -> 0 <= m < 2 ^ k -> Zdigits2 m <= k.
Proof.
  intros Hk [H0 Hm]. destruct m as [| p | p]; cbn; [lia | | lia].
  pose proof (digits2_pos_bounds p) as [Hlow _].
  assert (H : 2 ^ (Zpos (digits2_pos p) - 1) < 2 ^ k) by lia.
  apply Z.pow_lt_mono_r_iff in H; lia.
Qed.

Lemma Zdigits2_le m k : 0 <= k -> 0 <= m <= 2 ^ k -> Zdigits2 m <= k + 1.
Proof.
  intros Hk [H0 Hm]. destruct m as [| p | p]; cbn; [lia | | lia].
  pose proof (digits2_pos_bounds p) as [Hlow _].
  assert (H : 2 ^ (Zpos (digits2_pos p) - 1) <= 2 ^ k) by lia.
  apply Z.pow_le_mono_r_iff in H; lia.
Qed.

Lemma iter_xO m d : Zpos (Pos.iter xO m d) = Zpos m * 2 ^ Zpos d.
Proof.
  induction d as [| d IH] using Pos.peano_ind.
  - cbn. lia.
  - rewrite Pos.iter_succ, Pos2Z.inj_xO, IH, Pos2Z.inj_succ, Z.pow_succ_r by lia. lia.
Qed.

Lemma digits2_iter_xO m d :
  Zpos (digits2_pos (Pos.iter xO m d)) = Zpos (digits2_pos m) + Zpos d.
Proof.
  induction d as [| d IH] using Pos.peano_ind.
  - cbn. lia.
  - rewrite Pos.iter_succ. cbn [digits2_pos]. rewrite !Pos2Z.inj_succ, IH. lia.
Qed.

(** *** Shifting divides *)

Lemma shr_1_bound mrs : 0 <= shr_m mrs -> shr_m (shr_1 mrs) * 2 <= shr_m mrs.
Proof.
  destruct mrs as [m r s]. destruct m as [| p | p]; cbn; intros H;
    try destruct p; cbn; lia.
Qed.

Lemma iter_shr_1_bound p : forall mrs,
  0 <= shr_m mrs -> shr_m (iter_pos shr_1 p mrs) * 2 ^ Zpos p <= shr_m mrs.
Proof.
  induction p as [p IH | p IH |]; intros mrs H; cbn [iter_pos].
  - pose proof (shr_1_bound mrs H) as H1.
    pose proof (shr_1_nonneg mrs H) as H1'.
    pose proof (IH _ H1') as H2.
    pose proof (iter_shr_1_nonneg p _ H1') as H2'.
    pose proof (IH _ H2') as H3.
    pose proof (iter_shr_1_nonneg p _ H2') as H3'.
    replace (Zpos p~1) with (Zpos p + Zpos p + 1) by lia.
    rewrite !Z.pow_add_r by lia. change (2 ^ 1) with 2.
    assert (0 < 2 ^ Zpos p) by (apply Z.pow_pos_nonneg; lia). nia.
  - pose proof (IH _ H) as H2.
    pose proof (iter_shr_1_nonneg p _ H) as H2'.
    pose proof (IH _ H2') as H3.
    pose proof (iter_shr_1_nonneg p _ H2') as H3'.
    replace (Zpos p~0) with (Zpos p + Zpos p) by lia.
    rewrite !Z.pow_add_r by lia.
    assert (0 < 2 ^ Zpos p) by (apply Z.pow_pos_nonneg; lia). nia.
  - cbn. pose proof (shr_1_bound mrs H). lia.
Qed.

Lemma fexp_eq e : fexp prec emax e = Z.max (e - 53) (-1074).
Proof. reflexivity. Qed.

(** A value below 1 stays below 1 when it is shifted to its exponent. *)
Lemma shr_fexp_below_1 m e l :
  0 <= m < 2 ^ (- e) -> e <= -52 ->
  0 <= shr_m (fst (shr_fexp prec emax m e l)) < 2 ^ (- snd (shr_fexp prec emax m e l))
  /\ snd (shr_fexp prec emax m e l) <= -52.
Proof.
  intros Hm He.
  pose proof (shr_fexp_nonneg m e l (proj1 Hm)) as Hnn.
  revert Hnn. unfold shr_fexp, shr. rewrite fexp_eq.
  pose proof (Zdigits2_lt m (- e) ltac:(lia) Hm) as Hd.
  destruct (Z.max (Zdigits2 m + e - 53) (-1074) - e) as [| p | p] eqn:En; cbn [fst snd];
    rewrite ?shr_record_of_loc_m; intros Hnn; try (split; [exact Hm | exact He]).
  pose proof (iter_shr_1_bound p (shr_record_of_loc m l)) as Hb.
  rewrite shr_record_of_loc_m in Hb. specialize (Hb (proj1 Hm)).
  split; [| lia]. split; [exact Hnn |].
  assert (Hpow : 2 ^ (- e) = 2 ^ (- (e + Zpos p)) * 2 ^ Zpos p).
  { rewrite <- Z.pow_add_r by lia. f_equal. lia. }
  assert (0 < 2 ^ Zpos p) by (apply Z.pow_pos_nonneg; lia).
  nia.
Qed.

(** The same for a value that may have been rounded up to 1. *)
Lemma shr_fexp_at_most_1 m e l :
  0 <= m <= 2 ^ (- e) -> e <= -52 ->
  0 <= shr_m (fst (shr_fexp prec emax m e l)) <= 2 ^ (- snd (shr_fexp prec emax m e l))
  /\ snd (shr_fexp prec emax m e l) <= -52.
Proof.
  intros Hm He.
  pose proof (shr_fexp_nonneg m e l (proj1 Hm)) as Hnn.
  revert Hnn. unfold shr_fexp, shr. rewrite fexp_eq.
  pose proof (Zdigits2_le m (- e) ltac:(lia) Hm) as Hd.
  destruct (Z.max (Zdigits2 m + e - 53) (-1074) - e) as [| p | p] eqn:En; cbn [fst snd];
    rewrite ?shr_record_of_loc_m; intros Hnn; try (split; [exact Hm | exact He]).
  pose proof (iter_shr_1_bound p (shr_record_of_loc m l)) as Hb.
  rewrite shr_record_of_loc_m in Hb. specialize (Hb (proj1 Hm)).
  split; [| lia]. split; [exact Hnn |].
  assert (Hpow : 2 ^ (- e) = 2 ^ (- (e + Zpos p)) * 2 ^ Zpos p).
  { rewrite <- Z.pow_add_r by lia. f_equal. lia. }
  assert (0 < 2 ^ Zpos p) by (apply Z.pow_pos_nonneg; lia).
  nia.
Qed.

Lemma round_nearest_even_step m l : m <= round_nearest_even m l <= m + 1.
Proof.
  destruct l as [| c]; cbn; [lia |].
  destruct c; try destruct (Z.even m); lia.
Qed.

Lemma binary_round_aux_at_most_1 m e l :
  0 <= m < 2 ^ (- e) -> e <= -52 ->
  SFleb (binary_round_aux prec emax false m e l) one_sf = true.
Proof.
  intros Hm He. unfold binary_round_aux.
  pose proof (shr_fexp_below_1 m e l Hm He) as [H1 H1e].
  destruct (shr_fexp prec emax m e l) as [mrs' e']. cbn [fst snd] in H1, H1e.
  pose proof (round_nearest_even_step (shr_m mrs') (loc_of_shr_record mrs')) as Hr.
  pose proof (shr_fexp_at_most_1 (round_nearest_even (shr_m mrs') (loc_of_shr_record mrs'))
                e' loc_Exact ltac:(lia) H1e) as [H2 H2e].
  destruct (shr_fexp prec emax _ e' loc_Exact) as [mrs'' e'']. cbn [fst snd] in H2, H2e.
  destruct (shr_m mrs'') as [| p | p]; [reflexivity | | lia].
  replace (e'' <=? emax - prec) with true by (symmetry; apply Z.leb_le; cbn; lia).
  unfold SFleb, SFcompare, one_sf.
  destruct (Z.compare_spec e'' (-52)) as [Heq | Hlt | Hgt]; [| reflexivity | lia].
  subst e''. change (2 ^ (- -52)) with 4503599627370496 in H2.
  rewrite Pos.compare_cont_spec. cbn [Pos.switch_Eq].
  destruct (Pos.compare_spec p 4503599627370496); [reflexivity | reflexivity | lia].
Qed.

Lemma binary_round_at_most_1 m e :
  Zpos m < 2 ^ (- e) -> e <= -52 ->
  SFleb (binary_round prec emax false m e) one_sf = true.
Proof.
  intros Hm He. unfold binary_round, shl_align.
  destruct (fexp prec emax (Zpos (digits2_pos m) + e) - e) as [| d | d] eqn:Ed;
    try (apply binary_round_aux_at_most_1; [lia | exact He]).
  apply binary_round_aux_at_most_1; [| lia].
  rewrite iter_xO. split; [lia |].
  replace (- fexp prec emax (Zpos (digits2_pos m) + e)) with (- e + Zpos d) by lia.
  rewrite Z.pow_add_r by lia.
  assert (0 < 2 ^ Zpos d) by (apply Z.pow_pos_nonneg; lia). nia.
Qed.

(** [1 - q <= 1] for every [q] that is not negative. *)
Lemma SFsub_one_at_most_1 q :
  of_sign false q -> SFleb (SF64sub one_sf q) one_sf = true.
Proof.
  destruct q as [s | s | | s m e]; cbn [of_sign]; intros H;
    [subst s; reflexivity | subst s; reflexivity | contradiction | subst s].
  unfold SF64sub, SFsub, one_sf, cond_Zopp, binary_normalize.
  set (ez := Z.min (-52) e).
  assert (Hone : Zpos (fst (shl_align 4503599627370496 (-52) ez)) = 2 ^ (- ez)).
  { unfold shl_align. destruct (ez - -52) as [| d | d] eqn:Ed; cbn [fst].
    - replace ez with (-52) by lia. reflexivity.
    - lia.
    - rewrite iter_xO. replace 4503599627370496 with (2 ^ 52) by reflexivity.
      rewrite <- Z.pow_add_r by lia. f_equal. lia. }
  rewrite Hone.
  destruct (2 ^ (- ez) - Zpos (fst (shl_align m e ez))) as [| p | p] eqn:Ediff.
  - reflexivity.
  - apply binary_round_at_most_1; lia.
  - pose proof (binary_round_sign true p ez) as Hs.
    destruct (binary_round prec emax true p ez) as [s | s | | s m' e'];
      cbn [of_sign] in Hs; try contradiction; subst s; reflexivity.
Qed.

(** *** From the primitive operations to their specification *)

Lemma SFcompare_refl x : not_nan x -> SFcompare x x = Some Eq.
Proof.
  destruct x as [s | s | | s m e]; cbn [not_nan]; intros H; try contradiction;
    try (destruct s; reflexivity).
  unfold SFcompare. rewrite Z.compare_refl, Pos.compare_cont_spec, Pos.compare_refl.
  destruct s; reflexivity.
Qed.

Lemma is_nan_false f : not_nan (Prim2SF f) -> is_nan f = false.
Proof.
  intros H. unfold is_nan. rewrite eqb_spec. unfold SFeqb.
  rewrite (SFcompare_refl _ H). reflexivity.
Qed.

Lemma Prim2SF_infinity : Prim2SF infinity = S754_infinity false.
Proof. reflexivity. Qed.

Lemma Prim2SF_one : Prim2SF 1%float = one_sf.
Proof. reflexivity. Qed.

Lemma Prim2SF_zero : Prim2SF 0%float = S754_zero false.
Proof. reflexivity. Qed.

Lemma is_finite_spec f : is_finite f = true -> finite (Prim2SF f).
Proof.
  unfold is_finite, is_nan, is_infinity.
  rewrite !eqb_spec, abs_spec, Prim2SF_infinity.
  destruct (Prim2SF f) as [s | s | | s m e]; intros H; cbn [finite]; try exact I;
    cbn in H; try destruct s; discriminate H.
Qed.

Lemma finite_is_finite f : finite (Prim2SF f) -> is_finite f = true.
Proof.
  intros H. unfold is_finite.
  rewrite (is_nan_false f) by (destruct (Prim2SF f); cbn in *; tauto).
  unfold is_infinity. rewrite eqb_spec, abs_spec, Prim2SF_infinity.
  destruct (Prim2SF f) as [s | s | | s m e]; cbn in *; try contradiction; reflexivity.
Qed.

Lemma finite_not_nan x : finite x -> not_nan x.
Proof. destruct x; cbn; tauto. Qed.

Lemma ltb_leb x y : (x <? y)%float = true -> (x <=? y)%float = true.
Proof.
  rewrite ltb_spec, leb_spec. unfold SFltb, SFleb.
  destruct (SFcompare (Prim2SF x) (Prim2SF y)) as [[| |] |]; congruence.
Qed.

(** *** Integers as doubles *)

Lemma Z2F_nonneg z : 0 <= z -> of_sign false (Prim2SF (Z2F z)).
Proof.
  intros H. destruct z as [| p | p]; [reflexivity | | lia].
  unfold Z2F. rewrite of_uint63_spec.
  apply binary_normalize_nonneg.
  apply (Uint63.to_Z_bounded (Uint63.of_Z (Zpos p))).
Qed.

(** A canonical mantissa and exponent are left as they are by rounding. *)
Lemma binary_round_aux_canonical s m e :
  Zpos (digits2_pos m) = 53 -> -1074 <= e <= 971 ->
  binary_round_aux prec emax s (Zpos m) e loc_Exact = S754_finite s m e.
Proof.
  intros Hd He. unfold binary_round_aux, shr_fexp. rewrite !fexp_eq.
  cbn [Zdigits2 shr_record_of_loc]. rewrite Hd.
  replace (Z.max (53 + e - 53) (-1074) - e) with 0 by lia.
  cbn [shr shr_m loc_of_shr_record round_nearest_even Zdigits2 shr_r shr_s].
  rewrite ?Hd, ?fexp_eq.
  replace (Z.max (53 + e - 53) (-1074) - e) with 0 by lia.
  cbn [shr shr_m].
  replace (e <=? emax - prec) with true by (symmetry; apply Z.leb_le; cbn; lia).
  reflexivity.
Qed.

Lemma binary_round_integer p :
  Zpos p < 2 ^ 53 -> positive_finite (binary_round prec emax false p 0).
Proof.
  intros Hp. unfold binary_round, shl_align. rewrite fexp_eq.
  pose proof (digits2_pos_bounds p) as [Hlow _].
  assert (Hd : Zpos (digits2_pos p) <= 53).
  { assert (H : 2 ^ (Zpos (digits2_pos p) - 1) < 2 ^ 53) by lia.
    apply Z.pow_lt_mono_r_iff in H; lia. }
  destruct (Z.max (Zpos (digits2_pos p) + 0 - 53) (-1074) - 0) as [| d | d] eqn:Ed.
  - rewrite binary_round_aux_canonical; [exact I | lia | lia].
  - lia.
  - rewrite binary_round_aux_canonical; [exact I | | lia].
    rewrite digits2_iter_xO. lia.
Qed.

Lemma Z2F_positive z : 0 < z < 2 ^ 53 -> positive_finite (Prim2SF (Z2F z)).
Proof.
  intros [H0 H]. destruct z as [| p | p]; [lia | | lia].
  unfold Z2F. rewrite of_uint63_spec, Uint63.of_Z_spec.
  rewrite Z.mod_small.
  - apply (binary_round_integer p H).
  - split; [lia |]. eapply Z.lt_trans; [exact H | reflexivity].
Qed.

Lemma of_length_positive n :
  (0 < n)%nat -> Z.of_nat n < 2 ^ 32 -> positive_finite (Prim2SF (of_length n)).
Proof.
  intros H0 H. apply Z2F_positive. split; [lia |].
  eapply Z.lt_trans; [exact H | reflexivity].
Qed.

Lemma positive_finite_sign x : positive_finite x -> of_sign false x.
Proof. destruct x as [| | | [|] m e]; cbn; tauto. Qed.

(** *** Sums, means and variances *)





(** [max(0, 1 - v / 10000)] for a variance [v] that is not negative. *)
Lemma consistency_score_in_unit_interval v :
  of_sign false (Prim2SF v) ->
  Spec.in_unit_interval (Math_max2 0 (1 - v / 10000)) = true.
Proof.
  intros Hv.
  assert (Hq : of_sign false (Prim2SF (v / 10000))).
  { rewrite div_spec. apply SFdiv_positive_finite; [exact Hv | exact I]. }
  set (t := (1 - v / 10000)%float).
  assert (Hle : (t <=? 1)%float = true).
  { unfold t. rewrite leb_spec, sub_spec, Prim2SF_one. apply SFsub_one_at_most_1, Hq. }
  assert (Hnan : is_nan t = false).
  { apply is_nan_false. unfold t. rewrite sub_spec, Prim2SF_one.
    apply SFsub_finite_l; [exact I | eapply of_sign_not_nan, Hq]. }
  unfold Math_max2, Spec.in_unit_interval. rewrite Hnan.
  change (is_nan 0) with false. cbn [orb].
  destruct (0 <? t)%float eqn:Hpos.
  - rewrite (ltb_leb _ _ Hpos), Hle. reflexivity.
  - destruct (t <? 0)%float; [reflexivity |].
    change (get_sign 0) with false. reflexivity.
Qed.

(** [min(1, x)] for an [x] that is not negative. *)
Lemma decision_score_defined x :
  of_sign false (Prim2SF x) ->
  Spec.defined (Math_min2 1 x) = true /\ Spec.in_unit_interval (Math_min2 1 x) = true.
Proof.
  intros Hx.
  assert (Hnan : is_nan x = false) by (eapply is_nan_false, of_sign_not_nan, Hx).
  assert (H0 : (0 <=? x)%float = true).
  { rewrite leb_spec, Prim2SF_zero.
    destruct (Prim2SF x) as [s | s | | s m e]; cbn [of_sign] in Hx; try contradiction;
      subst s; reflexivity. }
  unfold Math_min2, Spec.defined, Spec.in_unit_interval. rewrite Hnan.
  change (is_nan 1) with false. cbn [orb].
  destruct (1 <? x)%float eqn:Hgt; [split; reflexivity |].
  change (get_sign 1) with false.
  assert (Hcmp : (x <? 1)%float = true \/ SFcompare (Prim2SF x) one_sf = Some Eq).
  { rewrite ltb_spec, Prim2SF_one in *. unfold SFltb in *.
    destruct (Prim2SF x) as [s | s | | s m e]; cbn [of_sign] in Hx; try contradiction;
      subst s; [left; reflexivity | cbn in Hgt; discriminate Hgt |].
    revert Hgt. unfold SFcompare, one_sf.
    rewrite (Z.compare_antisym e (-52)).
    destruct (e ?= -52); cbn [CompOpp]; [| left; reflexivity | discriminate].
    rewrite !Pos.compare_cont_spec. cbn [Pos.switch_Eq].
    rewrite (Pos.compare_antisym m 4503599627370496).
    destruct (m ?= 4503599627370496)%positive; cbn [CompOpp];
      [right; reflexivity | left; reflexivity | discriminate]. }
  assert (Hfin : is_finite x = true /\ (x <=? 1)%float = true).
  { destruct Hcmp as [Hlt | Heq].
    - split; [| apply ltb_leb, Hlt].
      apply finite_is_finite. rewrite ltb_spec, Prim2SF_one in Hlt.
      destruct (Prim2SF x) as [s | s | | s m e]; cbn [of_sign] in Hx; try contradiction;
        subst s; [exact I | discriminate Hlt | exact I].
    - split.
      + apply finite_is_finite.
        destruct (Prim2SF x) as [s | s | | s m e]; cbn [of_sign] in Hx; try contradiction;
          subst s; [exact I | discriminate Heq | exact I].
      + rewrite leb_spec, Prim2SF_one. unfold SFleb. rewrite Heq. reflexivity. }
  destruct Hfin as [Hfin Hle].
  destruct (x <? 1)%float; rewrite Hfin, H0, Hle; split; reflexivity.
Qed.
End FloatFacts.

(* ================================================================== *)
(** ** Ranges of the two scores *)

Lemma last_in {A} (l : list A) : forall d, last l d = d \/ In (last l d) l.
Proof.
  induction l as [| a l IH]; intros d; [left; reflexivity |].
  rewrite last_cons. destruct (IH a) as [-> | H]; right; [left; reflexivity | right; exact H].
Qed.

Lemma intervals_sum_nonneg times :
  StronglySorted Z.le times -> (0 <= fold_right Z.add 0 (Spec.intervals times))%Z.
Proof.
  intros Hs. destruct times as [| a l]; [cbn; lia |].
  rewrite intervals_telescope.
  inversion Hs as [| ? ? _ Ha]; subst.
  destruct (last_in l a) as [-> | Hin]; [lia |].
  rewrite Forall_forall in Ha. specialize (Ha _ Hin). lia.
Qed.

Lemma calculateDecisionSpeed_defined a :
  (Z.of_nat (List.length (clickData a)) < 2 ^ 32)%Z ->
  exists r, calculateDecisionSpeed a = Normal r
            /\ Spec.defined r = true /\ Spec.in_unit_interval r = true.
Proof.
  intros Hlen. rewrite calculateDecisionSpeed_eq. eexists. split; [reflexivity |].
  unfold Spec.decisionSpeed.
  set (times := sort_by ascending_order (map ClickSample.timestamp (clickData a))).
  assert (Htimes : List.length times = List.length (clickData a)).
  { unfold times. rewrite (Permutation_length (sort_by_perm _)). apply length_map. }
  destruct (List.length times <? 2)%nat eqn:E; [split; reflexivity |].
  apply Nat.ltb_ge in E.
  apply FloatFacts.decision_score_defined.
  rewrite div_spec. apply FloatFacts.SFdiv_by_nonneg; [exact I |].
  unfold Spec.meanInterval. rewrite div_spec.
  apply FloatFacts.SFdiv_positive_finite.
  - apply FloatFacts.Z2F_nonneg, intervals_sum_nonneg. apply sort_by_sorted.
  - unfold Spec.intervals. rewrite consecutive_length.
    apply FloatFacts.of_length_positive; lia.
Qed.

(** C4 (what the code does).  [clickFrequency] is computed without a
    guard: when no time has elapsed since [sessionStart] it is Infinity
    with a click recorded and NaN with none.  The mean interval behind
    [decisionSpeed] is guarded: the score is always a defined number
    between 0 and 1. *)
Theorem clickFrequency_divides_by_zero_elapsed_time :
  (forall maxArguments now c,
     analyzeBehaviorPatterns maxArguments now
       {| mouseData := []; clickData := [c]; scrollData := []; sessionStart := now;
          movementPoints := []; lastMousePosition := (0, 0); lastMoveTime := now |}
     = Normal {| avgSpeed := 0; clickFrequency := infinity; scrollIntensity := 0;
                 movementConsistency := 0.5; decisionSpeed := 0.5 |})
  /\ (forall maxArguments now,
        analyzeBehaviorPatterns maxArguments now (constructor now now)
        = Normal {| avgSpeed := 0; clickFrequency := nan; scrollIntensity := 0;
                    movementConsistency := 0.5; decisionSpeed := 0.5 |})
  /\ (forall a,
        (Z.of_nat (List.length (clickData a)) < 2 ^ 32)%Z ->
        exists r, calculateDecisionSpeed a = Normal r
                  /\ Spec.defined r = true /\ Spec.in_unit_interval r = true).
Proof.
  split; [| split].
  - intros maxArguments now c. unfold analyzeBehaviorPatterns.
    cbn [clickData sessionStart mouseData scrollData].
    rewrite Z.sub_diag. reflexivity.
  - intros maxArguments now. unfold analyzeBehaviorPatterns, constructor.
    cbn [clickData sessionStart mouseData scrollData].
    rewrite Z.sub_diag. reflexivity.
  - exact calculateDecisionSpeed_defined.
Qed.




(* ================================================================== *)
(** ** The order of binary64 values *)

Module FloatOrder.
Import Binary64 Binary64Order.
Local Open Scope Z_scope.

Lemma SFcompare_key x y :
  not_nan x -> not_nan y -> SFcompare x y = Some (lex3 (key x) (key y)).
Proof.
  destruct x as [sx | sx | | sx mx ex]; cbn [not_nan]; intros Hx; try contradiction;
    destruct y as [sy | sy | | sy my ey]; cbn [not_nan]; intros Hy; try contradiction;
    try (destruct sx, sy; reflexivity).
  unfold SFcompare, lex3, key.
  destruct sx, sy; cbn [fst snd]; try reflexivity.
  rewrite Z.compare_opp, (Z.compare_antisym ex ey).
  destruct (ex ?= ey); reflexivity.
Qed.

Lemma lex3_Lt a b :
  lex3 a b = Lt <->
  fst (fst a) < fst (fst b)
  \/ (fst (fst a) = fst (fst b)
      /\ (snd (fst a) < snd (fst b) \/ (snd (fst a) = snd (fst b) /\ snd a < snd b))).
Proof.
  unfold lex3.
  destruct (Z.compare_spec (fst (fst a)) (fst (fst b)));
    destruct (Z.compare_spec (snd (fst a)) (snd (fst b)));
    destruct (Z.compare_spec (snd a) (snd b)); split; intros; try discriminate;
    try reflexivity; lia.
Qed.

Lemma lex3_Eq a b :
  lex3 a b = Eq <->
  fst (fst a) = fst (fst b) /\ snd (fst a) = snd (fst b) /\ snd a = snd b.
Proof.
  unfold lex3.
  destruct (Z.compare_spec (fst (fst a)) (fst (fst b)));
    destruct (Z.compare_spec (snd (fst a)) (snd (fst b)));
    destruct (Z.compare_spec (snd a) (snd b)); split; intros; try discriminate;
    try reflexivity; lia.
Qed.

Lemma lex3_Gt a b : lex3 a b = Gt <-> lex3 b a = Lt.
Proof.
  rewrite lex3_Lt. unfold lex3.
  destruct (Z.compare_spec (fst (fst a)) (fst (fst b)));
    destruct (Z.compare_spec (snd (fst a)) (snd (fst b)));
    destruct (Z.compare_spec (snd a) (snd b)); split; intros; try discriminate;
    try reflexivity; lia.
Qed.

(** The comparisons of the primitive operations, through the keys. *)
Lemma ltb_true x y :
  (x <? y)%float = true <->
  not_nan (Prim2SF x) /\ not_nan (Prim2SF y) /\ lex3 (key (Prim2SF x)) (key (Prim2SF y)) = Lt.
Proof.
  rewrite ltb_spec. unfold SFltb.
  destruct (Prim2SF x) as [sx | sx | | sx mx ex] eqn:Ex;
    destruct (Prim2SF y) as [sy | sy | | sy my ey] eqn:Ey;
    try (cbn [SFcompare not_nan]; split; [discriminate | tauto]);
    rewrite SFcompare_key by exact I;
    destruct (lex3 _ _); cbn [not_nan];
    intuition (try discriminate; try congruence).
Qed.

Lemma leb_true x y :
  (x <=? y)%float = true <->
  not_nan (Prim2SF x) /\ not_nan (Prim2SF y) /\ lex3 (key (Prim2SF x)) (key (Prim2SF y)) <> Gt.
Proof.
  rewrite leb_spec. unfold SFleb.
  destruct (Prim2SF x) as [sx | sx | | sx mx ex] eqn:Ex;
    destruct (Prim2SF y) as [sy | sy | | sy my ey] eqn:Ey;
    try (cbn [SFcompare not_nan]; split; [discriminate | tauto]);
    rewrite SFcompare_key by exact I;
    destruct (lex3 _ _); cbn [not_nan];
    intuition (try discriminate; try congruence).
Qed.

Lemma is_nan_true f : is_nan f = true <-> Prim2SF f = S754_nan.
Proof.
  unfold is_nan. rewrite eqb_spec. unfold SFeqb. split.
  - destruct (Prim2SF f) as [s | s | | s m e] eqn:E; [| | reflexivity |];
      rewrite FloatFacts.SFcompare_refl by exact I; discriminate.
  - intros ->. reflexivity.
Qed.

Lemma not_nan_iff f : not_nan (Prim2SF f) <-> is_nan f = false.
Proof.
  split; [apply FloatFacts.is_nan_false |].
  intros H. destruct (Prim2SF f) eqn:E; try exact I.
  apply is_nan_true in E. congruence.
Qed.

Lemma ltb_trans x y z :
  (x <? y)%float = true -> (y <? z)%float = true -> (x <? z)%float = true.
Proof.
  rewrite !ltb_true, !lex3_Lt. intros (Hx & Hy & H1) (_ & Hz & H2).
  repeat split; try assumption. lia.
Qed.

Lemma ltb_asym x y : (x <? y)%float = true -> (y <? x)%float = false.
Proof.
  intros H. destruct (y <? x)%float eqn:E; [| reflexivity].
  apply ltb_true in H. apply ltb_true in E.
  destruct H as (_ & _ & H), E as (_ & _ & E). rewrite lex3_Lt in *. lia.
Qed.

Lemma leb_trans x y z :
  (x <=? y)%float = true -> (y <=? z)%float = true -> (x <=? z)%float = true.
Proof.
  rewrite !leb_true. intros (Hx & Hy & H1) (_ & Hz & H2).
  repeat split; try assumption.
  intros H3. apply lex3_Gt, lex3_Lt in H3.
  destruct (lex3 (key (Prim2SF x)) (key (Prim2SF y))) eqn:E1; [| | congruence];
    destruct (lex3 (key (Prim2SF y)) (key (Prim2SF z))) eqn:E2; try congruence;
    rewrite ?lex3_Lt, ?lex3_Eq in *; lia.
Qed.

Lemma leb_refl x : is_nan x = false -> (x <=? x)%float = true.
Proof.
  intros H. apply not_nan_iff in H. apply leb_true. repeat split; try assumption.
  intros E. apply lex3_Gt, lex3_Lt in E. lia.
Qed.

(** Two numbers neither of which is below the other compare as equal. *)
Lemma not_ltb_leb x y :
  is_nan x = false -> is_nan y = false ->
  (x <? y)%float = false -> (y <=? x)%float = true.
Proof.
  intros Hx Hy H. apply not_nan_iff in Hx, Hy.
  apply leb_true. repeat split; try assumption.
  intros E. apply lex3_Gt in E.
  assert ((x <? y)%float = true) by (apply ltb_true; tauto). congruence.
Qed.
End FloatOrder.

(* ================================================================== *)
(** ** More on the classifier *)

Lemma profile_of_fired_rows p :
  generatePersonalityProfile p
  = match fired_rows p with [] => [Label.Balanced] | _ :: _ => fired_rows p end.
Proof.
  unfold generatePersonalityProfile, fired_rows.
  destruct (500 <? avgSpeed p), (avgSpeed p <? 200), (5 <? clickFrequency p),
    (0.7 <? movementConsistency p), (0.8 <? decisionSpeed p), (100 <? scrollIntensity p);
    reflexivity.
Qed.

Lemma In_profile t p :
  t <> Label.Balanced ->
  (In t (generatePersonalityProfile p) <-> In t (fired_rows p)).
Proof.
  intros Ht. rewrite profile_of_fired_rows.
  destruct (fired_rows p); [| reflexivity].
  cbn. split; [intros [H | []]; congruence | intros []].
Qed.

Lemma In_row (c : bool) (t t' : Trait) :
  In t (if c then [t'] else []) <-> c = true /\ t = t'.
Proof.
  destruct c; cbn; split.
  - intros [H | []]. split; congruence.
  - intros [_ H]. left. congruence.
  - intros [].
  - intros [H _]. discriminate.
Qed.

Lemma In_fired_rows t p :
  In t (fired_rows p) <->
  ((500 <? avgSpeed p) = true /\ t = Label.Decisive)
  \/ ((500 <? avgSpeed p) = false /\ (avgSpeed p <? 200) = true /\ t = Label.Attentive)
  \/ ((5 <? clickFrequency p) = true /\ t = Label.Active)
  \/ ((0.7 <? movementConsistency p) = true /\ t = Label.Systematic)
  \/ ((0.8 <? decisionSpeed p) = true /\ t = Label.QuickReacting)
  \/ ((100 <? scrollIntensity p) = true /\ t = Label.Energetic).
Proof.
  unfold fired_rows. rewrite !in_app_iff, !In_row.
  destruct (500 <? avgSpeed p).
  - cbn. intuition (try discriminate; try congruence).
  - rewrite In_row. intuition (try discriminate; try congruence).
Qed.

(** X1.  The traits of a profile are exactly the rows of the trait table
    whose condition holds: each of the six traits is present if and only
    if its threshold test succeeds (Attentive only when the Decisive test
    fails, being its else-branch). *)
Theorem profile_has_a_trait_iff_its_rule_fires p :
  (In Label.Decisive (generatePersonalityProfile p) <-> (500 <? avgSpeed p) = true)
  /\ (In Label.Attentive (generatePersonalityProfile p)
      <-> (500 <? avgSpeed p) = false /\ (avgSpeed p <? 200) = true)
  /\ (In Label.Active (generatePersonalityProfile p) <-> (5 <? clickFrequency p) = true)
  /\ (In Label.Systematic (generatePersonalityProfile p)
      <-> (0.7 <? movementConsistency p) = true)
  /\ (In Label.QuickReacting (generatePersonalityProfile p)
      <-> (0.8 <? decisionSpeed p) = true)
  /\ (In Label.Energetic (generatePersonalityProfile p)
      <-> (100 <? scrollIntensity p) = true).
Proof.
  pose proof (fun t Ht => conj (In_profile t p Ht) (In_fired_rows t p)) as Hrows.
  split; [| split; [| split; [| split; [| split]]]];
    match goal with |- In ?t _ <-> _ =>
      destruct (Hrows t ltac:(discriminate)) as [H1 H2]; rewrite H1, H2
    end;
    clear; intuition (try discriminate; try congruence).
Qed.

Lemma fired_rows_shape p :
  (List.length (fired_rows p) <= 5)%nat /\ NoDup (fired_rows p)
  /\ ~ In Label.Balanced (fired_rows p).
Proof.
  unfold fired_rows.
  destruct (500 <? avgSpeed p), (avgSpeed p <? 200), (5 <? clickFrequency p),
    (0.7 <? movementConsistency p), (0.8 <? decisionSpeed p), (100 <? scrollIntensity p);
    cbn; (split; [lia |]); (split; [| intuition discriminate]);
    repeat (constructor; [cbn; intuition discriminate |]); constructor.
Qed.

(** X2.  A profile holds between one and five traits, no trait twice, and
    never both Decisive and Attentive. *)
Theorem profile_has_one_to_five_distinct_traits p :
  (1 <= List.length (generatePersonalityProfile p) <= 5)%nat
  /\ NoDup (generatePersonalityProfile p)
  /\ ~ (In Label.Decisive (generatePersonalityProfile p)
        /\ In Label.Attentive (generatePersonalityProfile p)).
Proof.
  destruct (fired_rows_shape p) as (Hlen & Hdup & _).
  split; [| split].
  - rewrite profile_of_fired_rows.
    destruct (fired_rows p); cbn in *; lia.
  - rewrite profile_of_fired_rows.
    destruct (fired_rows p); [repeat constructor; intros [] | exact Hdup].
  - intros [Hd Ha].
    apply In_profile in Hd; [| discriminate]. apply In_profile in Ha; [| discriminate].
    apply In_fired_rows in Hd. apply In_fired_rows in Ha.
    intuition (try discriminate; try congruence).
Qed.

Lemma insight_cases p traits :
  (generateInsight p traits = Insight.energetic
   -> (600 <? avgSpeed p) = true /\ (8 <? clickFrequency p) = true)
  /\ (generateInsight p traits = Insight.methodical
      -> (avgSpeed p <? 300) = true /\ (0.8 <? movementConsistency p) = true)
  /\ (generateInsight p traits = Insight.intuitive -> (0.9 <? decisionSpeed p) = true).
Proof.
  unfold generateInsight.
  destruct (600 <? avgSpeed p), (8 <? clickFrequency p), (avgSpeed p <? 300),
    (0.8 <? movementConsistency p), (0.9 <? decisionSpeed p);
    cbn; (split; [| split]); intros H; try (split; reflexivity); try reflexivity;
    discriminate H.
Qed.

(** X3.  The insight agrees with the traits.  The energetic insight comes
    with the traits Decisive and Active, the methodical one with
    Systematic and without Decisive, the intuitive one with Quick-reacting;
    and a profile that is only Balanced gets the adaptive insight. *)
Theorem insight_is_backed_by_traits p :
  (generateInsight p (generatePersonalityProfile p) = Insight.energetic ->
   In Label.Decisive (generatePersonalityProfile p)
   /\ In Label.Active (generatePersonalityProfile p))
  /\ (generateInsight p (generatePersonalityProfile p) = Insight.methodical ->
      In Label.Systematic (generatePersonalityProfile p)
      /\ ~ In Label.Decisive (generatePersonalityProfile p))
  /\ (generateInsight p (generatePersonalityProfile p) = Insight.intuitive ->
      In Label.QuickReacting (generatePersonalityProfile p))
  /\ (In Label.Balanced (generatePersonalityProfile p) ->
      generateInsight p (generatePersonalityProfile p) = Insight.adaptive).
Proof.
  destruct (insight_cases p (generatePersonalityProfile p)) as (He & Hm & Hi).
  split; [| split; [| split]].
  - intros H. destruct (He H) as [Ha Hc].
    split; (apply In_profile; [discriminate |]); apply In_fired_rows.
    + left. split; [| reflexivity].
      apply (FloatOrder.ltb_trans 500 600); [reflexivity | exact Ha].
    + right; right; left. split; [| reflexivity].
      apply (FloatOrder.ltb_trans 5 8); [reflexivity | exact Hc].
  - intros H. destruct (Hm H) as [Ha Hc]. split.
    + apply In_profile; [discriminate |]. apply In_fired_rows.
      right; right; right; left. split; [| reflexivity].
      apply (FloatOrder.ltb_trans 0.7 0.8); [reflexivity | exact Hc].
    + intros Hd. apply In_profile in Hd; [| discriminate]. apply In_fired_rows in Hd.
      assert (Hfast : (500 <? avgSpeed p) = true)
        by intuition (try discriminate; try congruence).
      pose proof (FloatOrder.ltb_trans (avgSpeed p) 300 500 Ha eq_refl) as Hlow.
      apply FloatOrder.ltb_asym in Hlow. congruence.
  - intros H. apply In_profile; [discriminate |]. apply In_fired_rows.
    right; right; right; right; left. split; [| reflexivity].
    apply (FloatOrder.ltb_trans 0.8 0.9); [reflexivity | exact (Hi H)].
  - intros H. apply fallback_only_when_no_rule_fires in H.
    unfold some_rule_fires in H.
    repeat (apply orb_false_iff in H; destruct H as [H ?]).
    unfold generateInsight.
    destruct (600 <? avgSpeed p) eqn:E1.
    { pose proof (FloatOrder.ltb_trans 500 600 _ eq_refl E1). congruence. }
    destruct (0.8 <? movementConsistency p) eqn:E2.
    { pose proof (FloatOrder.ltb_trans 0.7 0.8 _ eq_refl E2). congruence. }
    destruct (0.9 <? decisionSpeed p) eqn:E3.
    { pose proof (FloatOrder.ltb_trans 0.8 0.9 _ eq_refl E3). congruence. }
    rewrite andb_false_r. reflexivity.
Qed.

Lemma insight_is_backed_by_traits_witness :
  (In Label.Decisive
     (generatePersonalityProfile
        {| avgSpeed := 650; clickFrequency := 9; scrollIntensity := 0;
           movementConsistency := 0.5; decisionSpeed := 0.5 |})
   /\ In Label.Active
        (generatePersonalityProfile
           {| avgSpeed := 650; clickFrequency := 9; scrollIntensity := 0;
              movementConsistency := 0.5; decisionSpeed := 0.5 |}))
  /\ generateInsight
       {| avgSpeed := 300; clickFrequency := 0; scrollIntensity := 0;
          movementConsistency := 0.5; decisionSpeed := 0.5 |}
       (generatePersonalityProfile
          {| avgSpeed := 300; clickFrequency := 0; scrollIntensity := 0;
             movementConsistency := 0.5; decisionSpeed := 0.5 |})
     = Insight.adaptive.
Proof.
  split.
  - apply (proj1 (insight_is_backed_by_traits _)). reflexivity.
  - apply (proj2 (proj2 (proj2 (insight_is_backed_by_traits _)))). left. reflexivity.
Defined.

Lemma progress_at_most_100 a : (100 <? Math_min2 (a / 10) 100) = false.
Proof.
  unfold Math_min2.
  destruct (is_nan (a / 10) || is_nan 100); [reflexivity |].
  destruct (a / 10 <? 100) eqn:E1; [apply FloatOrder.ltb_asym, E1 |].
  destruct (100 <? a / 10) eqn:E2; [reflexivity |].
  destruct (get_sign (a / 10)); [exact E2 | reflexivity].
Qed.

(** X4.  Whatever the snapshot, the progress bar is never set wider than
    100 percent, and the scroll-pattern label reads Energetic exactly when
    the Energetic trait is among the badges. *)
Theorem analysis_view_is_consistent p :
  (100 <? mouseActivityProgress (analysisView p)) = false
  /\ (scrollPattern (analysisView p) = "Энергичный"%string
      <-> In Label.Energetic (personalityTraits (analysisView p))).
Proof.
  split; [apply progress_at_most_100 |].
  unfold analysisView; cbn [scrollPattern personalityTraits].
  rewrite (In_profile Label.Energetic p) by discriminate.
  rewrite In_fired_rows.
  destruct (100 <? scrollIntensity p);
    intuition (try discriminate; try congruence).
Qed.

(* ================================================================== *)
(** ** What the handlers keep *)

Lemma handleMouseMove_grows now window event a :
  exists samples points,
    mouseData (handleMouseMove now window event a) = mouseData a ++ samples
    /\ movementPoints (handleMouseMove now window event a) = movementPoints a ++ points
    /\ clickData (handleMouseMove now window event a) = clickData a
    /\ scrollData (handleMouseMove now window event a) = scrollData a
    /\ sessionStart (handleMouseMove now window event a) = sessionStart a.
Proof.
  unfold handleMouseMove. destruct (50 <? now - lastMoveTime a)%Z.
  - eexists _, _. cbn. repeat split; reflexivity.
  - exists [], []. rewrite !app_nil_r. repeat split; reflexivity.
Qed.

Lemma dispatch_grows page e :
  exists samples clicks scrolls points,
    mouseData (this (dispatch page e)) = mouseData (this page) ++ samples
    /\ clickData (this (dispatch page e)) = clickData (this page) ++ clicks
    /\ scrollData (this (dispatch page e)) = scrollData (this page) ++ scrolls
    /\ movementPoints (this (dispatch page e)) = movementPoints (this page) ++ points
    /\ sessionStart (this (dispatch page e)) = sessionStart (this page).
Proof.
  destruct e as [now window event | now event | now window | key]; cbn [dispatch this].
  - destruct (handleMouseMove_grows now window event (this page))
      as (samples & points & H1 & H2 & H3 & H4 & H5).
    exists samples, [], [], points. rewrite H1, H2, H3, H4, H5, !app_nil_r.
    repeat split; reflexivity.
  - eexists [], _, [], []. cbn.
    repeat split; try reflexivity; symmetry; apply app_nil_r.
  - eexists [], [], _, []. cbn.
    repeat split; try reflexivity; symmetry; apply app_nil_r.
  - exists [], [], [], []. cbn. rewrite !app_nil_r. repeat split; reflexivity.
Qed.

Lemma run_grows events : forall page,
  exists samples clicks scrolls points,
    mouseData (this (run events page)) = mouseData (this page) ++ samples
    /\ clickData (this (run events page)) = clickData (this page) ++ clicks
    /\ scrollData (this (run events page)) = scrollData (this page) ++ scrolls
    /\ movementPoints (this (run events page)) = movementPoints (this page) ++ points
    /\ sessionStart (this (run events page)) = sessionStart (this page).
Proof.
  induction events as [| e events IH]; intros page.
  - exists [], [], [], []. cbn. rewrite !app_nil_r. repeat split; reflexivity.
  - cbn [run fold_left]. fold (run events (dispatch page e)).
    destruct (IH (dispatch page e)) as (m2 & c2 & s2 & p2 & H1 & H2 & H3 & H4 & H5).
    destruct (dispatch_grows page e) as (m1 & c1 & s1 & p1 & G1 & G2 & G3 & G4 & G5).
    exists (m1 ++ m2), (c1 ++ c2), (s1 ++ s2), (p1 ++ p2).
    rewrite H1, H2, H3, H4, H5, G1, G2, G3, G4, G5, !app_assoc.
    repeat split; reflexivity.
Qed.

Lemma nth_error_kept {A} (l more : list A) i (a : A) :
  nth_error l i = Some a -> nth_error (l ++ more) i = Some a.
Proof.
  intros H. rewrite nth_error_app1; [exact H |].
  apply nth_error_Some. congruence.
Qed.

(** X5.  The buffers only grow: whatever events are handled, an entry
    stored at some index of a buffer is found unchanged at that index
    ever after (nothing is overwritten, reordered or evicted), and
    [sessionStart] stays what the constructor set. *)
Theorem buffers_are_append_only events page i :
  (forall s, nth_error (mouseData (this page)) i = Some s ->
             nth_error (mouseData (this (run events page))) i = Some s)
  /\ (forall c, nth_error (clickData (this page)) i = Some c ->
                nth_error (clickData (this (run events page))) i = Some c)
  /\ (forall s, nth_error (scrollData (this page)) i = Some s ->
                nth_error (scrollData (this (run events page))) i = Some s)
  /\ (forall p, nth_error (movementPoints (this page)) i = Some p ->
                nth_error (movementPoints (this (run events page))) i = Some p)
  /\ sessionStart (this (run events page)) = sessionStart (this page).
Proof.
  destruct (run_grows events page) as (m & c & s & p & H1 & H2 & H3 & H4 & H5).
  rewrite H1, H2, H3, H4, H5.
  repeat split; intros ?; apply nth_error_kept.
Qed.

Lemma run_app events events' page :
  run (events ++ events') page = run events' (run events page).
Proof. unfold run. apply fold_left_app. Qed.

Lemma dispatch_records page e :
  map (fun c => (ClickSample.x c, ClickSample.y c, ClickSample.timestamp c))
      (clickData (this (dispatch page e)))
  = map (fun c => (ClickSample.x c, ClickSample.y c, ClickSample.timestamp c))
        (clickData (this page)) ++ clicks_of [e]
  /\ map (fun s => (ScrollSample.position s, ScrollSample.timestamp s))
         (scrollData (this (dispatch page e)))
     = map (fun s => (ScrollSample.position s, ScrollSample.timestamp s))
           (scrollData (this page)) ++ scrolls_of [e].
Proof.
  destruct e as [now window event | now event | now window | key]; cbn [dispatch this].
  - destruct (handleMouseMove_grows now window event (this page))
      as (_ & _ & _ & _ & H3 & H4 & _).
    rewrite H3, H4. cbn. rewrite !app_nil_r. split; reflexivity.
  - cbn. rewrite map_app, !app_nil_r. split; reflexivity.
  - cbn. rewrite map_app, !app_nil_r. split; reflexivity.
  - cbn. rewrite !app_nil_r. split; reflexivity.
Qed.

(** X6.  Clicks and scrolls are recorded without a gate: after a run from
    start-up [clickData] holds one entry per click event, in order of
    arrival, with the event's position and the clock reading, and
    [scrollData] one entry per scroll event with the window's offset and
    the clock reading, also when the clock readings are not in order. *)
Theorem clicks_and_scrolls_are_all_recorded events : forall now now' childNodes,
  map (fun c => (ClickSample.x c, ClickSample.y c, ClickSample.timestamp c))
      (clickData (this (run events (startup now now' childNodes))))
  = clicks_of events
  /\ map (fun s => (ScrollSample.position s, ScrollSample.timestamp s))
         (scrollData (this (run events (startup now now' childNodes))))
     = scrolls_of events.
Proof.
  intros now now' childNodes.
  induction events as [| e events IH] using rev_ind; [split; reflexivity |].
  rewrite run_app. cbn [run fold_left].
  destruct (dispatch_records (run events (startup now now' childNodes)) e) as [H1 H2].
  destruct IH as [IH1 IH2].
  unfold clicks_of, scrolls_of in *. rewrite !flat_map_app, H1, H2, IH1, IH2.
  split; reflexivity.
Qed.

(** *** Pointer samples *)

Lemma spaced_over_50_snoc times : forall t,
  spaced_over_50 (times ++ [t]) ->
  forall t', (50 < t' - t)%Z -> spaced_over_50 ((times ++ [t]) ++ [t']).
Proof.
  induction times as [| a times IH]; intros t H t' Ht.
  - cbn. lia.
  - destruct times as [| b times].
    + cbn in *. lia.
    + cbn [app spaced_over_50] in *. destruct H as [Hab H].
      split; [exact Hab |]. apply (IH t H t' Ht).
Qed.

Lemma last_snoc {A} (l : list A) (a d : A) : last (l ++ [a]) d = a.
Proof. apply last_last. Qed.

Lemma handleMouseMove_pointer_buffers_agree now' now window event a :
  pointer_buffers_agree now' a ->
  pointer_buffers_agree now' (handleMouseMove now window event a).
Proof.
  intros (Htimes & Hspaced & Hlast & Hpos). unfold handleMouseMove.
  destruct (50 <? now - lastMoveTime a)%Z eqn:Hgate;
    [ | split; [ | split; [ | split ] ]; assumption ].
  apply Z.ltb_lt in Hgate.
  unfold pointer_buffers_agree. cbn [mouseData movementPoints lastMoveTime lastMousePosition].
  rewrite !map_app. cbn [map PointerSample.timestamp PointerSample.x PointerSample.y
                         MovementPoint.time].
  split; [ rewrite Htimes; reflexivity | ].
  split; [ | split; [ symmetry; apply last_snoc | symmetry; apply last_snoc ] ].
  rewrite Hlast in Hgate.
  clear Htimes Hlast Hpos.
  induction (map PointerSample.timestamp (mouseData a)) as [| t times _] using rev_ind.
  - cbn in *. lia.
  - rewrite last_snoc in Hgate.
    change (spaced_over_50 (((now' :: times) ++ [t]) ++ [now])).
    apply spaced_over_50_snoc; assumption.
Qed.

Lemma dispatch_pointer_buffers_agree now' page e :
  pointer_buffers_agree now' (this page) ->
  pointer_buffers_agree now' (this (dispatch page e)).
Proof.
  destruct e as [now window event | now event | now window | key]; cbn [dispatch this];
    intros H; try exact H.
  apply handleMouseMove_pointer_buffers_agree, H.
Qed.

Lemma run_pointer_buffers_agree now' events : forall page,
  pointer_buffers_agree now' (this page) ->
  pointer_buffers_agree now' (this (run events page)).
Proof.
  induction events as [| e events IH]; intros page H; [exact H |].
  cbn [run fold_left]. apply IH, dispatch_pointer_buffers_agree, H.
Qed.

(** X7.  The two pointer buffers stay in step: after any run of events
    from start-up, [mouseData] and [movementPoints] hold entries with the
    same timestamps, each more than 50 ms after the one before (the first
    more than 50 ms after construction), and [lastMoveTime] and
    [lastMousePosition] are those of the newest stored sample. *)
Theorem pointer_buffers_stay_in_step events now now' childNodes :
  let a := this (run events (startup now now' childNodes)) in
  map PointerSample.timestamp (mouseData a) = map MovementPoint.time (movementPoints a)
  /\ spaced_over_50 (now' :: map PointerSample.timestamp (mouseData a))
  /\ lastMoveTime a = last (map PointerSample.timestamp (mouseData a)) now'
  /\ lastMousePosition a
     = last (map (fun s => (PointerSample.x s, PointerSample.y s)) (mouseData a)) (0, 0).
Proof.
  apply (run_pointer_buffers_agree now' events (startup now now' childNodes)).
  split; [ | split; [ | split ] ]; cbn; auto.
Qed.

(* ================================================================== *)
(** ** The heat map next to other nodes *)

Lemma nodes_split (nodes : list Node) :
  List.length nodes
  = (List.length (children nodes) + List.length (other_nodes nodes))%nat.
Proof.
  induction nodes as [| [e | data] nodes IH]; [reflexivity | |];
    unfold children, other_nodes in *; cbn; rewrite IH; lia.
Qed.

Lemma children_app (l l' : list Node) : children (l ++ l') = children l ++ children l'.
Proof. apply flat_map_app. Qed.

Lemma other_nodes_app (l l' : list Node) :
  other_nodes (l ++ l') = other_nodes l ++ other_nodes l'.
Proof. apply filter_app. Qed.

Lemma other_nodes_tl (l : list Node) :
  (List.length (other_nodes (tl l)) <= List.length (other_nodes l))%nat.
Proof. destruct l as [| [e | data] l]; cbn; lia. Qed.

Lemma updateClickHeatmap_bound x y a doc (bound others : nat) :
  (50 <= bound)%nat ->
  (List.length (clickHeatmap doc) <= bound + others)%nat ->
  (List.length (other_nodes (clickHeatmap doc)) <= others)%nat ->
  (List.length (clickHeatmap (updateClickHeatmap x y a doc)) <= bound + others)%nat
  /\ (List.length (other_nodes (clickHeatmap (updateClickHeatmap x y a doc))) <= others)%nat.
Proof.
  intros Hb Hlen Hothers. unfold updateClickHeatmap. cbn [clickHeatmap].
  set (cell := {| nodeId := created doc; classList := _ |}).
  set (heatmap := clickHeatmap doc ++ [ElementNode cell]).
  assert (Ho : other_nodes heatmap = other_nodes (clickHeatmap doc)).
  { unfold heatmap. rewrite other_nodes_app. cbn. apply app_nil_r. }
  assert (Hl : List.length heatmap = S (List.length (clickHeatmap doc))).
  { unfold heatmap. rewrite length_app. cbn. lia. }
  destruct (50 <? List.length (children heatmap))%nat eqn:Hfull.
  - split.
    + assert (Ht : List.length (tl heatmap) = List.length (clickHeatmap doc)).
      { clearbody heatmap. destruct heatmap; cbn [tl List.length] in *; lia. }
      lia.
    + pose proof (other_nodes_tl heatmap) as Ht. rewrite Ho in Ht. lia.
  - apply Nat.ltb_ge in Hfull. rewrite Ho. split; [| exact Hothers].
    rewrite (nodes_split heatmap), Ho. lia.
Qed.

Lemma run_heatmap_bound (bound others : nat) events : forall page,
  (50 <= bound)%nat ->
  (List.length (clickHeatmap (document page)) <= bound + others)%nat ->
  (List.length (other_nodes (clickHeatmap (document page))) <= others)%nat ->
  (List.length (clickHeatmap (document (run events page))) <= bound + others)%nat.
Proof.
  induction events as [| e events IH]; intros page Hb Hlen Ho; [exact Hlen |].
  cbn [run fold_left]. apply (IH (dispatch page e) Hb);
    destruct e as [now window event | now event | now window | key];
    cbn [dispatch document handleClick]; try assumption;
    apply (updateClickHeatmap_bound _ _ _ _ bound others); assumption.
Qed.

(** X8.  Whatever nodes [#clickHeatmap] holds when the analyzer starts,
    the number of heat-map elements never exceeds the larger of 50 and
    the initial number of elements, plus the number of initial nodes
    that are not elements (text or comment nodes, which [firstChild]
    removes in place of a cell). *)
Theorem heatmap_size_is_bounded events now now' childNodes :
  (List.length (children (clickHeatmap (document (run events (startup now now' childNodes)))))
   <= Nat.max 50 (List.length (children childNodes)) + List.length (other_nodes childNodes))%nat.
Proof.
  pose proof (run_heatmap_bound (Nat.max 50 (List.length (children childNodes)))
                (List.length (other_nodes childNodes)) events
                (startup now now' childNodes)) as H.
  cbn [startup document clickHeatmap] in H.
  specialize (H ltac:(lia)).
  rewrite (nodes_split childNodes) in H. specialize (H ltac:(lia) ltac:(lia)).
  rewrite nodes_split in H. lia.
Qed.

Lemma updateClickHeatmap_behind_text data x y a n doc :
  heatmap_behind_text data n doc ->
  heatmap_behind_text data (S n) (updateClickHeatmap x y a doc).
Proof.
  intros [Hn (cells & Hcells & Hids)].
  unfold updateClickHeatmap. rewrite Hcells, Hn.
  set (cell := {| nodeId := n; classList := _ |}).
  assert (Hlen : List.length (cells ++ [cell]) = S (Nat.min n 51)).
  { rewrite length_app, <- (length_map nodeId cells), Hids, length_seq. cbn. lia. }
  assert (Hall : map nodeId (cells ++ [cell]) = seq (n - 51) (S (Nat.min n 51))).
  { rewrite map_app, Hids, seq_S. cbn. f_equal. f_equal. lia. }
  assert (Hch : children (((if (n <=? 50)%nat then [TextNode data] else [])
                           ++ map ElementNode cells) ++ [ElementNode cell])
                = cells ++ [cell]).
  { rewrite !children_app, children_elements. destruct (n <=? 50)%nat; reflexivity. }
  rewrite Hch, Hlen. split; [reflexivity |].
  destruct (n <=? 50)%nat eqn:Hn50; [apply Nat.leb_le in Hn50 | apply Nat.leb_gt in Hn50].
  - replace (Nat.min n 51) with n in * by lia.
    destruct (50 <? S n)%nat eqn:Hfull;
      [apply Nat.ltb_lt in Hfull | apply Nat.ltb_ge in Hfull].
    + assert (n = 50)%nat as -> by lia. cbn [Nat.leb app tl].
      exists (cells ++ [cell]). split.
      * rewrite map_app. reflexivity.
      * rewrite Hall. reflexivity.
    + replace (S n <=? 50)%nat with true by (symmetry; apply Nat.leb_le; lia).
      exists (cells ++ [cell]). split.
      * cbn [app]. rewrite map_app. reflexivity.
      * rewrite Hall. f_equal; lia.
  - replace (Nat.min n 51) with 51%nat in * by lia.
    replace (S n <=? 50)%nat with false by (symmetry; apply Nat.leb_gt; lia).
    cbn [app Nat.ltb Nat.leb].
    exists (tl (cells ++ [cell])). split.
    + change (map ElementNode cells ++ [ElementNode cell])
        with (map ElementNode cells ++ map ElementNode [cell]).
      rewrite <- map_app. symmetry. apply map_tl.
    + rewrite map_tl, Hall. cbn [seq tl].
      replace (S n - 51)%nat with (S (n - 51)) by lia.
      replace (Nat.min (S n) 51) with 51%nat by lia. reflexivity.
Qed.

Lemma run_heatmap_behind_text data events : forall page n,
  heatmap_behind_text data n (document page) ->
  heatmap_behind_text data (n + clicks_in events) (document (run events page)).
Proof.
  induction events as [| e events IH]; intros page n H.
  - cbn. rewrite Nat.add_0_r. exact H.
  - rewrite clicks_in_cons, Nat.add_assoc. cbn [run fold_left].
    apply IH. destruct e; cbn; rewrite ?Nat.add_0_r; try exact H.
    rewrite Nat.add_1_r. apply updateClickHeatmap_behind_text, H.
Qed.

(** X9.  When [#clickHeatmap] starts with one text node in it (the
    white space of the markup), the 51st click removes that text node
    and no cell, and from then on the heat map holds 51 cells, the most
    recent ones. *)
Theorem heatmap_holds_51_cells_behind_a_text_node data events now now' :
  (51 <= clicks_in events)%nat ->
  let heatmap := clickHeatmap (document (run events (startup now now' [TextNode data]))) in
  map nodeId (children heatmap) = seq (clicks_in events - 51) 51
  /\ List.length (children heatmap) = 51%nat
  /\ other_nodes heatmap = [].
Proof.
  intros Hn heatmap.
  destruct (run_heatmap_behind_text data events (startup now now' [TextNode data]) 0)
    as [_ (cells & Hcells & Hids)].
  { split; [reflexivity |]. exists []. split; reflexivity. }
  cbn [Nat.add] in Hcells, Hids. subst heatmap. rewrite Hcells.
  replace (clicks_in events <=? 50)%nat with false by (symmetry; apply Nat.leb_gt; lia).
  cbn [app]. rewrite children_elements, Hids.
  replace (Nat.min (clicks_in events) 51) with 51%nat by lia.
  split; [reflexivity |]. split.
  - rewrite <- (length_map nodeId cells), Hids, length_seq. lia.
  - clear. induction cells as [| c cells IH]; [reflexivity | exact IH].
Qed.

Lemma heatmap_holds_51_cells_behind_a_text_node_witness :
  let events := repeat (click 0 {| clientX := 0; clientY := 0; pressure := None |}) 60 in
  let heatmap := clickHeatmap (document (run events (startup 0 0 [TextNode " "]))) in
  (51 <= clicks_in events)%nat
  /\ map nodeId (children heatmap) = seq 9 51
  /\ List.length (children heatmap) = 51%nat
  /\ other_nodes heatmap = [].
Proof.
  intros events heatmap.
  assert (H : (51 <= clicks_in events)%nat) by (vm_compute; lia).
  split; [exact H |].
  exact (heatmap_holds_51_cells_behind_a_text_node " " events 0 0 H).
Defined.

(* ================================================================== *)
(** ** The analysis as a whole *)

(** X10.  The analysis never raises a [TypeError]: the index loops stay
    inside their arrays and no empty array is reduced without an initial
    value.  [updateAnalysis] has patterns, traits and an insight to show
    whenever [scrollData] holds no more entries than the spread call
    [Math.max(...)] takes as arguments; with more entries it throws a
    [RangeError]. *)
Theorem updateAnalysis_completes_within_the_argument_limit maxArguments now a :
  ((List.length (scrollData a) <= maxArguments)%nat ->
   exists patterns traits insight,
     updateAnalysis maxArguments now a = Normal (patterns, traits, insight))
  /\ ((maxArguments < List.length (scrollData a))%nat ->
      updateAnalysis maxArguments now a = RangeError).
Proof.
  unfold updateAnalysis, analyzeBehaviorPatterns, call_spread.
  rewrite calculateMovementConsistency_eq, calculateDecisionSpeed_eq, length_map.
  split; intros Hlen.
  - apply Nat.leb_le in Hlen. rewrite Hlen.
    destruct (0 <? List.length (scrollData a))%nat; eexists _, _, _; reflexivity.
  - replace (0 <? List.length (scrollData a))%nat with true
      by (symmetry; apply Nat.ltb_lt; lia).
    apply Nat.leb_gt in Hlen. rewrite Hlen. reflexivity.
Qed.

Lemma updateAnalysis_completes_within_the_argument_limit_witness :
  (exists patterns traits insight,
     updateAnalysis 100 5000 sample_session = Normal (patterns, traits, insight))
  /\ updateAnalysis 2 5000 sample_session = RangeError.
Proof.
  split.
  - apply (proj1 (updateAnalysis_completes_within_the_argument_limit 100 5000 sample_session)).
    cbn. lia.
  - apply (proj2 (updateAnalysis_completes_within_the_argument_limit 2 5000 sample_session)).
    cbn. lia.
Defined.

(* ================================================================== *)
(** ** Decision speed from the first and the last click *)

Lemma earliest_spec t rest :
  In (earliest (t :: rest)) (t :: rest)
  /\ Forall (Z.le (earliest (t :: rest))) (t :: rest).
Proof.
  cbn [earliest]. induction rest as [| b rest [IHin IHle]]; cbn [fold_right].
  - split; [left; reflexivity | constructor; [lia | constructor]].
  - inversion IHle as [| ? ? Ht Hrest]; subst.
    destruct (Z.min_spec b (fold_right Z.min t rest)) as [[Hlt ->] | [Hge ->]].
    + split; [right; left; reflexivity |].
      constructor; [lia |]. constructor; [lia |].
      eapply Forall_impl; [| exact Hrest]. cbn. intros; lia.
    + split.
      * destruct IHin as [<- | Hin]; [left; reflexivity | right; right; exact Hin].
      * constructor; [exact Ht |]. constructor; [lia | exact Hrest].
Qed.

Lemma latest_spec t rest :
  In (latest (t :: rest)) (t :: rest)
  /\ Forall (fun u => (u <= latest (t :: rest))%Z) (t :: rest).
Proof.
  cbn [latest]. induction rest as [| b rest [IHin IHle]]; cbn [fold_right].
  - split; [left; reflexivity | constructor; [lia | constructor]].
  - inversion IHle as [| ? ? Ht Hrest]; subst.
    destruct (Z.max_spec b (fold_right Z.max t rest)) as [[Hlt ->] | [Hge ->]].
    + split.
      * destruct IHin as [<- | Hin]; [left; reflexivity | right; right; exact Hin].
      * constructor; [exact Ht |]. constructor; [lia | exact Hrest].
    + split; [right; left; reflexivity |].
      constructor; [lia |]. constructor; [lia |].
      eapply Forall_impl; [| exact Hrest]. cbn. intros; lia.
Qed.

Lemma sorted_last_largest l : forall a,
  StronglySorted Z.le (a :: l) ->
  In (last l a) (a :: l) /\ Forall (fun u => (u <= last l a)%Z) (a :: l).
Proof.
  induction l as [| b l IH]; intros a Hs.
  - split; [left; reflexivity | constructor; [cbn; lia | constructor]].
  - inversion Hs as [| ? ? Hrest Ha]; subst.
    destruct (IH b Hrest) as [Hin Hle].
    rewrite (last_cons l a b).
    split; [right; exact Hin |].
    constructor; [| exact Hle].
    rewrite Forall_forall in Ha. apply Ha. exact Hin.
Qed.

Lemma sorted_ends times a l :
  times <> [] ->
  sort_by ascending_order times = a :: l ->
  a = earliest times /\ last l a = latest times.
Proof.
  intros Hne Hsort.
  pose proof (sort_by_perm times) as Hp. pose proof (sort_by_sorted times) as Hs.
  rewrite Hsort in Hp, Hs.
  destruct times as [| t rest]; [congruence |].
  destruct (earliest_spec t rest) as [Ein Ele].
  destruct (latest_spec t rest) as [Lin Lle].
  destruct (sorted_last_largest l a Hs) as [Sin Sle].
  inversion Hs as [| ? ? _ Ha]; subst.
  rewrite Forall_forall in Ele, Lle, Sle, Ha.
  assert (Hmem : forall u, In u (a :: l) <-> In u (t :: rest)).
  { intros u. split; apply Permutation_in; [exact Hp | symmetry; exact Hp]. }
  split.
  - assert (H1 : (earliest (t :: rest) <= a)%Z)
      by (apply Ele, Hmem; left; reflexivity).
    apply Hmem in Ein. destruct Ein as [E | Ein]; [exact E |].
    specialize (Ha _ Ein). lia.
  - assert (H1 : (last l a <= latest (t :: rest))%Z) by (apply Lle, Hmem, Sin).
    apply Hmem in Lin. specialize (Sle _ Lin). lia.
Qed.

(** X11.  With two or more clicks the decision speed depends only on
    the number of clicks and on the earliest and the latest timestamp:
    it is min(1, 1000 / ((latest - earliest) / (n - 1))), in whatever
    order the clicks were stored and wherever the others lie between. *)
Theorem decisionSpeed_depends_on_first_last_and_count a :
  (2 <= List.length (clickData a))%nat ->
  let times := map ClickSample.timestamp (clickData a) in
  calculateDecisionSpeed a
  = Normal (Math_min2 1 (1000 / (Z2F (latest times - earliest times)
                                 / of_length (List.length (clickData a) - 1)))).
Proof.
  intros Hlen times. rewrite calculateDecisionSpeed_eq. fold times.
  assert (Hl : List.length (sort_by ascending_order times) = List.length (clickData a)).
  { rewrite (Permutation_length (sort_by_perm times)). apply length_map. }
  unfold Spec.decisionSpeed, Spec.meanInterval. rewrite Hl.
  replace (List.length (clickData a) <? 2)%nat with false
    by (symmetry; apply Nat.ltb_ge; exact Hlen).
  unfold Spec.intervals at 2. rewrite consecutive_length, Hl.
  destruct (sort_by ascending_order times) as [| s0 rest] eqn:Hsort.
  { cbn in Hl. lia. }
  rewrite intervals_telescope.
  destruct (sorted_ends times s0 rest) as [-> ->]; [| exact Hsort | reflexivity].
  intros Hnil. unfold times in Hnil. apply map_eq_nil in Hnil.
  rewrite Hnil in Hlen. cbn in Hlen. lia.
Qed.

Lemma decisionSpeed_depends_on_first_last_and_count_witness :
  let a := this (run [click 900 (mkMouseEvent 1 2 None); click 100 (mkMouseEvent 3 4 None);
                      click 400 (mkMouseEvent 5 6 None)] (startup 0 0 [])) in
  (2 <= List.length (clickData a))%nat
  /\ calculateDecisionSpeed a = Normal (Math_min2 1 (1000 / (Z2F (900 - 100) / of_length 2))).
Proof.
  intros a.
  assert (H : (2 <= List.length (clickData a))%nat) by (cbn; lia).
  split; [exact H |].
  exact (decisionSpeed_depends_on_first_last_and_count a H).
Defined.

(* ================================================================== *)
(** ** Signs and sizes of quotients, roots and sums *)

Module FloatSigns.
Import Binary64 Binary64Order FloatFacts.
Local Open Scope Z_scope.

Lemma of_sign_nn x : of_sign false x -> nan_or_nonneg x.
Proof. destruct x; cbn; tauto. Qed.

Lemma nn_cases x : nan_or_nonneg x -> x = S754_nan \/ of_sign false x.
Proof. destruct x; cbn; intros H; try (right; exact H). left; reflexivity. Qed.

Lemma SFmul_square_nn x : nan_or_nonneg (SF64mul x x).
Proof.
  destruct x as [s | s | | s m e]; try exact I;
    apply of_sign_nn, SFmul_square; exact I.
Qed.

Lemma SFadd_nn x y : nan_or_nonneg x -> nan_or_nonneg y -> nan_or_nonneg (SF64add x y).
Proof.
  intros Hx Hy.
  destruct (nn_cases x Hx) as [-> | Hx']; [exact I |].
  destruct (nn_cases y Hy) as [-> | Hy']; [destruct x; exact I |].
  apply of_sign_nn, SFadd_nonneg; assumption.
Qed.

Lemma sqrtrem_nonneg m : 0 <= fst (Z.sqrtrem m).
Proof. rewrite Z.sqrtrem_sqrt. apply Z.sqrt_nonneg. Qed.

Lemma SFsqrt_nonneg x : of_sign false x -> of_sign false (SF64sqrt x).
Proof.
  destruct x as [s | s | | s m e]; cbn [of_sign]; intros H; try contradiction; subst s;
    try reflexivity.
  unfold SF64sqrt, SFsqrt, SFsqrt_core_binary.
  set (m' := match _ - _ with Z0 => _ | Zpos _ => _ | Zneg _ => _ end).
  pose proof (sqrtrem_nonneg m') as Hq.
  destruct (Z.sqrtrem m') as [q r]. cbn [fst] in Hq.
  apply binary_round_aux_sign, Hq.
Qed.

Lemma SFsqrt_nn x : nan_or_nonneg x -> nan_or_nonneg (SF64sqrt x).
Proof.
  intros Hx. destruct (nn_cases x Hx) as [-> | Hx']; [exact I |].
  apply of_sign_nn, SFsqrt_nonneg, Hx'.
Qed.

Lemma SFdiv_nn x y : nan_or_nonneg x -> of_sign false y -> nan_or_nonneg (SF64div x y).
Proof.
  destruct x as [sx | sx | | sx mx ex]; cbn [nan_or_nonneg]; intros Hx; try subst sx;
    destruct y as [sy | sy | | sy my ey]; cbn [of_sign]; intros Hy; try contradiction;
    try subst sy; try exact I; try reflexivity.
  apply of_sign_nn, SFdiv_by_nonneg; [exact I | reflexivity].
Qed.

Lemma nn_not_negative f : nan_or_nonneg (Prim2SF f) -> (f <? 0)%float = false.
Proof.
  rewrite ltb_spec, Prim2SF_zero.
  destruct (Prim2SF f) as [s | s | | s m e]; cbn [nan_or_nonneg]; intros H;
    try subst s; reflexivity.
Qed.

Lemma of_sign_not_negative f :
  of_sign false (Prim2SF f) -> is_nan f = false /\ (0 <=? f)%float = true.
Proof.
  intros H. split; [eapply is_nan_false, of_sign_not_nan, H |].
  rewrite leb_spec, Prim2SF_zero.
  destruct (Prim2SF f) as [s | s | | s m e]; cbn [of_sign] in H;
    try contradiction; subst s; reflexivity.
Qed.

(** *** Quotients of normal numbers *)

Lemma Zdigits2_exact m k : 0 < k -> 2 ^ (k - 1) <= m < 2 ^ k -> Zdigits2 m = k.
Proof.
  intros Hk [Hlo Hhi].
  assert (0 < 2 ^ (k - 1)) by (apply Z.pow_pos_nonneg; lia).
  destruct m as [| p | p]; [lia | | lia]. cbn [Zdigits2].
  pose proof (digits2_pos_bounds p) as [Hl Hh].
  assert (H1 : 2 ^ (k - 1) < 2 ^ Zpos (digits2_pos p)) by lia.
  assert (H2 : 2 ^ (Zpos (digits2_pos p) - 1) < 2 ^ k) by lia.
  apply Z.pow_lt_mono_r_iff in H1; [| lia | lia].
  apply Z.pow_lt_mono_r_iff in H2; [| lia | lia].
  lia.
Qed.

Lemma shr_1_lower mrs : 0 <= shr_m mrs -> shr_m mrs <= 2 * shr_m (shr_1 mrs) + 1.
Proof.
  destruct mrs as [m r s]. destruct m as [| p | p]; cbn; intros H;
    try destruct p; cbn; lia.
Qed.

(** A mantissa of 53 or 54 digits is brought to 53 digits by at most
    one shift. *)
Lemma shr_fexp_normal m e l :
  2 ^ 52 <= m < 2 ^ 54 -> -1074 <= e ->
  2 ^ 52 <= shr_m (fst (shr_fexp prec emax m e l)) < 2 ^ 53
  /\ e <= snd (shr_fexp prec emax m e l) <= e + 1.
Proof.
  intros [Hlo Hhi] He. unfold shr_fexp. rewrite fexp_eq.
  destruct (Z.lt_ge_cases m (2 ^ 53)) as [Hlt | Hge].
  - rewrite (Zdigits2_exact m 53 ltac:(lia) (conj Hlo Hlt)).
    replace (Z.max (53 + e - 53) (-1074) - e) with 0 by lia.
    cbn [shr fst snd]. rewrite shr_record_of_loc_m. lia.
  - rewrite (Zdigits2_exact m 54 ltac:(lia) (conj Hge Hhi)).
    replace (Z.max (54 + e - 53) (-1074) - e) with 1 by lia.
    cbn [shr fst snd iter_pos].
    pose proof (shr_1_bound (shr_record_of_loc m l)) as Hu.
    pose proof (shr_1_lower (shr_record_of_loc m l)) as Hd.
    rewrite shr_record_of_loc_m in Hu, Hd.
    change (2 ^ 52) with 4503599627370496 in *.
    change (2 ^ 53) with 9007199254740992 in *.
    change (2 ^ 54) with 18014398509481984 in *.
    lia.
Qed.

Lemma binary_round_aux_normal m e l :
  2 ^ 52 <= m < 2 ^ 54 -> -1074 <= e <= 969 ->
  normal_in e (e + 2) (binary_round_aux prec emax false m e l).
Proof.
  intros Hm He. unfold binary_round_aux.
  pose proof (shr_fexp_normal m e l Hm (proj1 He)) as [H1 H1e].
  destruct (shr_fexp prec emax m e l) as [mrs' e']. cbn [fst snd] in H1, H1e.
  pose proof (round_nearest_even_step (shr_m mrs') (loc_of_shr_record mrs')) as Hr.
  assert (Hm2 : 2 ^ 52 <= round_nearest_even (shr_m mrs') (loc_of_shr_record mrs') < 2 ^ 54).
  { change (2 ^ 52) with 4503599627370496 in *.
    change (2 ^ 53) with 9007199254740992 in *.
    change (2 ^ 54) with 18014398509481984 in *. lia. }
  pose proof (shr_fexp_normal _ e' loc_Exact Hm2 ltac:(lia)) as [H2 H2e].
  destruct (shr_fexp prec emax _ e' loc_Exact) as [mrs'' e'']. cbn [fst snd] in H2, H2e.
  pose proof (Zdigits2_exact (shr_m mrs'') 53 ltac:(lia) H2) as Hd.
  destruct (shr_m mrs'') as [| p | p];
    [ change (2 ^ (53 - 1)) with 4503599627370496 in H2; lia
    | | change (2 ^ (53 - 1)) with 4503599627370496 in H2; lia ].
  replace (e'' <=? emax - prec) with true by (symmetry; apply Z.leb_le; cbn; lia).
  cbn [normal_in]. cbn [Zdigits2] in Hd. split; [exact Hd | lia].
Qed.

Lemma SFdiv_normal_in lo hi lo' hi' x y :
  normal_in lo hi x -> normal_in lo' hi' y ->
  -400 <= lo -> hi <= 400 -> -400 <= lo' -> hi' <= 400 ->
  normal_in (lo - hi' - 53) (hi - lo' - 51) (SF64div x y).
Proof.
  destruct x as [sx | sx | | sx mx ex]; cbn [normal_in]; try contradiction.
  destruct sx; [contradiction |]. intros [Hdx Hex].
  destruct y as [sy | sy | | sy my ey]; cbn [normal_in]; try contradiction.
  destruct sy; [contradiction |]. intros [Hdy Hey] Hlo Hhi Hlo' Hhi'.
  unfold SF64div, SFdiv, SFdiv_core_binary. cbn [Zdigits2 xorb].
  rewrite Hdx, Hdy, fexp_eq.
  replace (Z.min (Z.max (53 + ex - (53 + ey) - 53) (-1074)) (ex - ey))
    with (ex - ey - 53) by lia.
  replace (ex - ey - (ex - ey - 53)) with 53 by lia.
  rewrite Z.shiftl_mul_pow2 by lia.
  pose proof (digits2_pos_bounds mx) as [Hxl Hxh].
  pose proof (digits2_pos_bounds my) as [Hyl Hyh].
  rewrite Hdx in Hxl, Hxh. rewrite Hdy in Hyl, Hyh.
  change (2 ^ (53 - 1)) with 4503599627370496 in *.
  change (2 ^ 53) with 9007199254740992 in *.
  assert (Hq : 2 ^ 52 <= Zpos mx * 9007199254740992 / Zpos my < 2 ^ 54).
  { change (2 ^ 52) with 4503599627370496. change (2 ^ 54) with 18014398509481984.
    split.
    - apply Z.div_le_lower_bound; [lia | nia].
    - apply Z.div_lt_upper_bound; [lia | nia]. }
  change (Zpos mx * 9007199254740992 / Zpos my)
    with (fst (Z.div_eucl (Zpos mx * 9007199254740992) (Zpos my))) in Hq.
  destruct (Z.div_eucl (Zpos mx * 9007199254740992) (Zpos my)) as [q r]. cbn [fst] in Hq.
  set (l := new_location _ _).
  pose proof (binary_round_aux_normal q (ex - ey - 53) l Hq ltac:(lia)) as Hn.
  destruct (binary_round_aux prec emax false q (ex - ey - 53) l)
    as [s | s | | s m e]; cbn [normal_in] in *; try contradiction.
  destruct s; [contradiction |]. split; [tauto | lia].
Qed.

Lemma SFdiv_normal x y :
  normal_in (-400) 400 x -> normal_in (-400) 400 y ->
  normal_in (-1000) 1000 (SF64div x y).
Proof.
  intros Hx Hy.
  pose proof (SFdiv_normal_in (-400) 400 (-400) 400 x y Hx Hy) as H.
  repeat (specialize (H ltac:(lia))).
  destruct (SF64div x y) as [s | s | | [|] m e]; cbn [normal_in] in *; try contradiction.
  split; [tauto | lia].
Qed.

Lemma normal_positive lo hi x : normal_in lo hi x -> positive_finite x.
Proof. destruct x as [s | s | | [|] m e]; cbn; tauto. Qed.

Lemma normal_widen lo hi lo' hi' x :
  lo' <= lo -> hi <= hi' -> normal_in lo hi x -> normal_in lo' hi' x.
Proof.
  intros Hlo Hhi. destruct x as [s | s | | [|] m e]; cbn; try tauto.
  intros [Hd He]. split; [exact Hd | lia].
Qed.

(** *** Integers and the constants of the source *)

Lemma binary_round_integer_normal k p :
  0 <= k -> 2 ^ k <= Zpos p < 2 ^ 53 ->
  normal_in (k - 52) 0 (binary_round prec emax false p 0).
Proof.
  intros Hk [Hk2 Hp]. unfold binary_round, shl_align. rewrite fexp_eq.
  pose proof (digits2_pos_bounds p) as [Hlow Hhigh].
  assert (Hd : Zpos (digits2_pos p) <= 53).
  { assert (H : 2 ^ (Zpos (digits2_pos p) - 1) < 2 ^ 53) by lia.
    apply Z.pow_lt_mono_r_iff in H; lia. }
  assert (Hd' : k < Zpos (digits2_pos p)).
  { assert (H : 2 ^ k < 2 ^ Zpos (digits2_pos p)) by lia.
    apply Z.pow_lt_mono_r_iff in H; lia. }
  destruct (Z.max (Zpos (digits2_pos p) + 0 - 53) (-1074) - 0) as [| d | d] eqn:Ed.
  - rewrite binary_round_aux_canonical; [| lia | lia].
    cbn [normal_in]. split; lia.
  - lia.
  - rewrite binary_round_aux_canonical; [| rewrite digits2_iter_xO; lia | lia].
    cbn [normal_in]. rewrite digits2_iter_xO. split; lia.
Qed.

Lemma Z2F_normal_from k z :
  0 <= k -> 2 ^ k <= z < 2 ^ 53 -> normal_in (k - 52) 0 (Prim2SF (Z2F z)).
Proof.
  intros Hk [H0 H].
  assert (0 < 2 ^ k) by (apply Z.pow_pos_nonneg; lia).
  destruct z as [| p | p]; [lia | | lia].
  unfold Z2F. rewrite of_uint63_spec, Uint63.of_Z_spec.
  rewrite Z.mod_small.
  - apply (binary_round_integer_normal k p Hk (conj H0 H)).
  - split; [lia |]. eapply Z.lt_trans; [exact H | reflexivity].
Qed.

Lemma Z2F_normal z : 0 < z < 2 ^ 53 -> normal_in (-52) 0 (Prim2SF (Z2F z)).
Proof.
  intros [H0 H]. apply (Z2F_normal_from 0); [lia |]. change (2 ^ 0) with 1. lia.
Qed.

Lemma Prim2SF_1000 : Prim2SF 1000%float = S754_finite false 8796093022208000 (-43).
Proof. reflexivity. Qed.

Lemma Prim2SF_60000 : Prim2SF 60000%float = S754_finite false 8246337208320000 (-37).
Proof. reflexivity. Qed.

(** Whole milliseconds as seconds, and as minutes: never zero, never
    infinite. *)
Lemma seconds_positive z :
  0 < z < 2 ^ 53 -> positive_finite (Prim2SF (Z2F z / 1000)%float).
Proof.
  intros Hz. rewrite div_spec, Prim2SF_1000.
  eapply normal_positive, SFdiv_normal.
  - eapply normal_widen; [| | apply Z2F_normal, Hz]; lia.
  - cbn [normal_in]. split; [reflexivity | lia].
Qed.

Lemma minutes_positive z :
  0 < z < 2 ^ 53 -> positive_finite (Prim2SF (Z2F z / 60000)%float).
Proof.
  intros Hz. rewrite div_spec, Prim2SF_60000.
  eapply normal_positive, SFdiv_normal.
  - eapply normal_widen; [| | apply Z2F_normal, Hz]; lia.
  - cbn [normal_in]. split; [reflexivity | lia].
Qed.

Lemma zero_div f : positive_finite (Prim2SF f) -> (0 / f)%float = 0%float.
Proof.
  intros H. apply Prim2SF_inj. rewrite div_spec, Prim2SF_zero.
  destruct (Prim2SF f) as [s | s | | [|] m e]; cbn in H; try contradiction. reflexivity.
Qed.

Lemma sub_self f : is_finite f = true -> (f - f)%float = 0%float.
Proof.
  intros H. apply is_finite_spec in H.
  apply Prim2SF_inj. rewrite sub_spec, Prim2SF_zero.
  destruct (Prim2SF f) as [s | s | | s m e]; cbn [finite] in H; try contradiction.
  - destruct s; reflexivity.
  - unfold SF64sub, SFsub. rewrite Z.min_id.
    assert (Hs : shl_align m e e = (m, e)).
    { unfold shl_align. rewrite Z.sub_diag. reflexivity. }
    rewrite Hs. cbn [fst]. rewrite Z.sub_diag. reflexivity.
Qed.
End FloatSigns.

(* ================================================================== *)
(** ** Pointer speeds *)

(** The snapshot of a state, when the spread call goes through. *)
Lemma analyzeBehaviorPatterns_within maxArguments now a :
  (List.length (scrollData a) <= maxArguments)%nat ->
  analyzeBehaviorPatterns maxArguments now a
  = Normal
      {| avgSpeed :=
           if (0 <? List.length (mouseData a))%nat
           then reduce (fun sum point => sum + PointerSample.speed point) 0 (mouseData a)
                / of_length (List.length (mouseData a))
           else 0;
         clickFrequency :=
           of_length (List.length (clickData a)) / (Z2F (now - sessionStart a) / 60000);
         scrollIntensity :=
           if (0 <? List.length (scrollData a))%nat
           then Math_max (map ScrollSample.velocity (scrollData a))
           else 0;
         movementConsistency := Spec.movementConsistency (movementPoints a);
         decisionSpeed :=
           Spec.decisionSpeed
             (sort_by ascending_order (map ClickSample.timestamp (clickData a))) |}.
Proof.
  intros Hlen. unfold analyzeBehaviorPatterns, call_spread.
  rewrite calculateMovementConsistency_eq, calculateDecisionSpeed_eq, length_map.
  apply Nat.leb_le in Hlen. rewrite Hlen.
  destruct (0 <? List.length (scrollData a))%nat; reflexivity.
Qed.

Lemma analyzeBehaviorPatterns_beyond maxArguments now a :
  (maxArguments < List.length (scrollData a))%nat ->
  analyzeBehaviorPatterns maxArguments now a = RangeError.
Proof.
  intros Hlen. unfold analyzeBehaviorPatterns, call_spread. rewrite length_map.
  replace (0 <? List.length (scrollData a))%nat with true
    by (symmetry; apply Nat.ltb_lt; lia).
  apply Nat.leb_gt in Hlen. rewrite Hlen. reflexivity.
Qed.

Lemma calculateDistance_nn x1 y1 x2 y2 :
  Binary64Order.nan_or_nonneg (Prim2SF (calculateDistance x1 y1 x2 y2)).
Proof.
  unfold calculateDistance, Math_sqrt, Math_pow_2.
  rewrite sqrt_spec, add_spec, !mul_spec.
  apply FloatSigns.SFsqrt_nn, FloatSigns.SFadd_nn; apply FloatSigns.SFmul_square_nn.
Qed.

Lemma calculateDistance_nonneg x1 y1 x2 y2 :
  is_finite x1 = true -> is_finite y1 = true ->
  is_finite x2 = true -> is_finite y2 = true ->
  Binary64.of_sign false (Prim2SF (calculateDistance x1 y1 x2 y2)).
Proof.
  intros Hx1 Hy1 Hx2 Hy2.
  unfold calculateDistance, Math_sqrt, Math_pow_2.
  rewrite sqrt_spec, add_spec, !mul_spec, !sub_spec.
  apply FloatSigns.SFsqrt_nonneg, FloatFacts.SFadd_nonneg;
    apply FloatFacts.SFmul_square, FloatFacts.SFsub_finite_l;
    try (apply FloatFacts.is_finite_spec; assumption);
    apply FloatFacts.finite_not_nan, FloatFacts.is_finite_spec; assumption.
Qed.

Lemma elapsed_seconds_nonneg d :
  (0 <= d)%Z -> Binary64.of_sign false (Prim2SF (Z2F d / 1000)).
Proof.
  intros Hd. rewrite div_spec.
  apply FloatFacts.SFdiv_positive_finite; [apply FloatFacts.Z2F_nonneg, Hd | exact I].
Qed.

Lemma handleMouseMove_speeds_nn now window event a :
  Forall (fun s => Binary64Order.nan_or_nonneg (Prim2SF (PointerSample.speed s)))
         (mouseData a) ->
  Forall (fun s => Binary64Order.nan_or_nonneg (Prim2SF (PointerSample.speed s)))
         (mouseData (handleMouseMove now window event a)).
Proof.
  intros H. unfold handleMouseMove.
  destruct (50 <? now - lastMoveTime a)%Z eqn:Hgate; [| exact H].
  apply Z.ltb_lt in Hgate. cbn [mouseData].
  apply Forall_app. split; [exact H |].
  constructor; [| constructor]. cbn [PointerSample.speed].
  rewrite div_spec.
  apply FloatSigns.SFdiv_nn; [apply calculateDistance_nn |].
  apply elapsed_seconds_nonneg. lia.
Qed.

Lemma run_speeds_nn events : forall page,
  Forall (fun s => Binary64Order.nan_or_nonneg (Prim2SF (PointerSample.speed s)))
         (mouseData (this page)) ->
  Forall (fun s => Binary64Order.nan_or_nonneg (Prim2SF (PointerSample.speed s)))
         (mouseData (this (run events page))).
Proof.
  induction events as [| e events IH]; intros page H; [exact H |].
  cbn [run fold_left]. apply IH.
  destruct e as [now window event | now event | now window | key];
    cbn [dispatch this handleClick handleScroll handleKeyPress mouseData]; try exact H.
  apply handleMouseMove_speeds_nn, H.
Qed.

Lemma fold_speeds_nn samples : forall acc,
  Binary64Order.nan_or_nonneg (Prim2SF acc) ->
  Forall (fun s => Binary64Order.nan_or_nonneg (Prim2SF (PointerSample.speed s))) samples ->
  Binary64Order.nan_or_nonneg
    (Prim2SF (fold_left (fun sum point => sum + PointerSample.speed point) samples acc)).
Proof.
  induction samples as [| s samples IH]; intros acc Hacc H; [exact Hacc |].
  inversion H as [| ? ? Hs Hrest]; subst. cbn [fold_left].
  apply IH; [| exact Hrest]. rewrite add_spec. apply FloatSigns.SFadd_nn; assumption.
Qed.

Lemma Math_min2_not_negative a b :
  (a <? 0) = false -> (b <? 0) = false -> (Math_min2 a b <? 0) = false.
Proof.
  intros Ha Hb. unfold Math_min2.
  destruct (is_nan a || is_nan b); [reflexivity |].
  destruct (a <? b); [exact Ha |].
  destruct (b <? a); [exact Hb |].
  destruct (get_sign a); assumption.
Qed.

(** X12.  Whatever the events carry (also NaN or infinite coordinates
    and a clock that steps back), no pointer speed stored in [mouseData]
    is negative; and whenever the analysis returns a snapshot
    ([scrollData] within what the spread call takes), neither the average
    speed nor the width given to the progress bar is negative. *)
Theorem pointer_speeds_are_never_negative events now0 now' childNodes maxArguments now :
  let a := this (run events (startup now0 now' childNodes)) in
  Forall (fun s => (PointerSample.speed s <? 0) = false) (mouseData a)
  /\ ((List.length (scrollData a) <= maxArguments)%nat ->
      exists p,
        analyzeBehaviorPatterns maxArguments now a = Normal p
        /\ (avgSpeed p <? 0) = false
        /\ (mouseActivityProgress (analysisView p) <? 0) = false).
Proof.
  intros a.
  assert (Hnn : Forall (fun s => Binary64Order.nan_or_nonneg (Prim2SF (PointerSample.speed s)))
                       (mouseData a)).
  { apply run_speeds_nn. constructor. }
  split.
  - eapply Forall_impl; [| exact Hnn].
    intros s. apply FloatSigns.nn_not_negative.
  - intros Hlen. rewrite (analyzeBehaviorPatterns_within _ _ _ Hlen).
    eexists. split; [reflexivity |].
    cbn [avgSpeed analysisView mouseActivityProgress].
    set (avg := if (0 <? List.length (mouseData a))%nat then _ else _).
    assert (Havg : Binary64Order.nan_or_nonneg (Prim2SF avg)).
    { unfold avg. destruct (0 <? List.length (mouseData a))%nat; [| reflexivity].
      rewrite div_spec. apply FloatSigns.SFdiv_nn.
      - apply fold_speeds_nn; [reflexivity | exact Hnn].
      - apply FloatFacts.Z2F_nonneg. lia. }
    split; [apply FloatSigns.nn_not_negative, Havg |].
    apply Math_min2_not_negative; [| reflexivity].
    apply FloatSigns.nn_not_negative. rewrite div_spec.
    apply FloatSigns.SFdiv_nn; [exact Havg | reflexivity].
Qed.

Lemma pointer_speeds_are_never_negative_witness :
  let window := {| innerWidth := 0; innerHeight := 800; scrollY := 40 |} in
  let events := [mousemove 100 window {| clientX := nan; clientY := 40; pressure := None |};
                 scroll 150 window;
                 mousemove 300 window {| clientX := 60; clientY := infinity; pressure := None |}] in
  let a := this (run events (startup 0 0 [])) in
  Forall (fun s => (PointerSample.speed s <? 0) = false) (mouseData a)
  /\ exists p,
       analyzeBehaviorPatterns 100 3000 a = Normal p
       /\ (avgSpeed p <? 0) = false
       /\ (mouseActivityProgress (analysisView p) <? 0) = false.
Proof.
  intros window events a.
  destruct (pointer_speeds_are_never_negative events 0 0 [] 100 3000) as [Hspeeds Hp].
  split; [exact Hspeeds |]. apply Hp. cbn. lia.
Defined.

Lemma handleMouseMove_pointer_state_finite now window event a :
  is_finite (clientX event) = true -> is_finite (clientY event) = true ->
  (0 <= now < 2 ^ 53)%Z ->
  pointer_state_finite a -> pointer_state_finite (handleMouseMove now window event a).
Proof.
  intros Hx Hy Hnow (Hs & Hlx & Hly & Ht). unfold handleMouseMove.
  destruct (50 <? now - lastMoveTime a)%Z eqn:Hgate;
    [| split; [| split; [| split]]; assumption].
  apply Z.ltb_lt in Hgate.
  split; [| split; [| split]]; cbn [mouseData lastMousePosition lastMoveTime fst snd];
    [| exact Hx | exact Hy | lia].
  apply Forall_app. split; [exact Hs |].
  constructor; [| constructor]. cbn [PointerSample.speed].
  rewrite div_spec.
  apply FloatFacts.SFdiv_positive_finite.
  - apply calculateDistance_nonneg; assumption.
  - apply FloatSigns.seconds_positive. lia.
Qed.

Lemma run_pointer_state_finite events : forall page,
  finite_moves events ->
  pointer_state_finite (this page) -> pointer_state_finite (this (run events page)).
Proof.
  induction events as [| e events IH]; intros page Hev H; [exact H |].
  inversion Hev as [| ? ? He Hrest]; subst.
  cbn [run fold_left]. apply IH; [exact Hrest |].
  destruct e as [now window event | now event | now window | key];
    cbn [dispatch this]; try exact H.
  destruct He as (Hx & Hy & Hnow).
  apply handleMouseMove_pointer_state_finite; assumption.
Qed.

Lemma fold_speeds_nonneg samples : forall acc,
  Binary64.of_sign false (Prim2SF acc) ->
  Forall (fun s => Binary64.of_sign false (Prim2SF (PointerSample.speed s))) samples ->
  Binary64.of_sign false
    (Prim2SF (fold_left (fun sum point => sum + PointerSample.speed point) samples acc)).
Proof.
  induction samples as [| s samples IH]; intros acc Hacc H; [exact Hacc |].
  inversion H as [| ? ? Hs Hrest]; subst. cbn [fold_left].
  apply IH; [| exact Hrest]. rewrite add_spec. apply FloatFacts.SFadd_nonneg; assumption.
Qed.

(** X13.  When every pointer move has finite coordinates and the clock
    readings are whole numbers below 2^53, every stored pointer speed is
    a number that is not negative (never NaN), and so is the average
    speed of fewer than 2^32 samples whenever the analysis returns a
    snapshot ([scrollData] within what the spread call takes). *)
Theorem pointer_speeds_are_numbers events now0 now' childNodes maxArguments now :
  finite_moves events -> (0 <= now')%Z ->
  let a := this (run events (startup now0 now' childNodes)) in
  (Z.of_nat (List.length (mouseData a)) < 2 ^ 32)%Z ->
  Forall (fun s => is_nan (PointerSample.speed s) = false
                   /\ (0 <=? PointerSample.speed s) = true) (mouseData a)
  /\ ((List.length (scrollData a) <= maxArguments)%nat ->
      exists p,
        analyzeBehaviorPatterns maxArguments now a = Normal p
        /\ is_nan (avgSpeed p) = false /\ (0 <=? avgSpeed p) = true).
Proof.
  intros Hev Hnow' a Hlen.
  destruct (run_pointer_state_finite events (startup now0 now' childNodes) Hev)
    as (Hs & _).
  { split; [constructor | split; [reflexivity | split; [reflexivity | exact Hnow']]]. }
  fold a in Hs. split.
  - eapply Forall_impl; [| exact Hs].
    intros s. apply FloatSigns.of_sign_not_negative.
  - intros Hscrolls. rewrite (analyzeBehaviorPatterns_within _ _ _ Hscrolls).
    eexists. split; [reflexivity |].
    cbn [avgSpeed]. apply FloatSigns.of_sign_not_negative.
    destruct (0 <? List.length (mouseData a))%nat eqn:Hpos; [| reflexivity].
    apply Nat.ltb_lt in Hpos. rewrite div_spec.
    apply FloatFacts.SFdiv_positive_finite.
    + apply fold_speeds_nonneg; [reflexivity | exact Hs].
    + apply FloatFacts.of_length_positive; assumption.
Qed.

Lemma pointer_speeds_are_numbers_witness :
  let window := {| innerWidth := 1000; innerHeight := 800; scrollY := 0 |} in
  let events := [mousemove 100 window {| clientX := 30; clientY := 40; pressure := None |};
                 mousemove 300 window {| clientX := 60; clientY := 80; pressure := None |}] in
  let a := this (run events (startup 0 0 [])) in
  Forall (fun s => is_nan (PointerSample.speed s) = false
                   /\ (0 <=? PointerSample.speed s) = true) (mouseData a)
  /\ exists p,
       analyzeBehaviorPatterns 100 3000 a = Normal p
       /\ is_nan (avgSpeed p) = false /\ (0 <=? avgSpeed p) = true.
Proof.
  intros window events a.
  destruct (pointer_speeds_are_numbers events 0 0 [] 100 3000) as [Hspeeds Hp].
  - repeat constructor; cbn; lia.
  - lia.
  - vm_compute. reflexivity.
  - split; [exact Hspeeds |]. apply Hp. cbn. lia.
Defined.

(* ================================================================== *)
(** ** Click frequency and the idle session *)

(** X14.  Once a whole number of milliseconds (below 2^53) has passed
    since the constructor ran, and with [scrollData] within what the
    spread call takes, the analysis returns a snapshot whose click
    frequency is a number that is not negative, and 0 when nothing was
    clicked. *)
Theorem clickFrequency_is_a_number_after_the_first_millisecond maxArguments now a :
  (0 < now - sessionStart a < 2 ^ 53)%Z ->
  (List.length (scrollData a) <= maxArguments)%nat ->
  exists p,
    analyzeBehaviorPatterns maxArguments now a = Normal p
    /\ is_nan (clickFrequency p) = false
    /\ (0 <=? clickFrequency p) = true
    /\ (clickData a = [] -> clickFrequency p = 0).
Proof.
  intros Hnow Hlen. rewrite (analyzeBehaviorPatterns_within _ _ _ Hlen).
  eexists. split; [reflexivity |].
  cbn [clickFrequency].
  pose proof (FloatSigns.minutes_positive _ Hnow) as Hmin.
  set (frequency := of_length _ / _).
  assert (Hsign : Binary64.of_sign false (Prim2SF frequency)).
  { unfold frequency. rewrite div_spec.
    apply FloatFacts.SFdiv_positive_finite; [| exact Hmin].
    apply FloatFacts.Z2F_nonneg. lia. }
  destruct (FloatSigns.of_sign_not_negative _ Hsign) as [Hnan Hle].
  split; [exact Hnan | split; [exact Hle |]].
  unfold frequency. intros ->. apply (FloatSigns.zero_div _ Hmin).
Qed.

Lemma clickFrequency_is_a_number_after_the_first_millisecond_witness :
  exists p,
    analyzeBehaviorPatterns 100 3000 sample_session = Normal p
    /\ is_nan (clickFrequency p) = false
    /\ (0 <=? clickFrequency p) = true
    /\ (clickData sample_session = [] -> clickFrequency p = 0).
Proof.
  apply (clickFrequency_is_a_number_after_the_first_millisecond 100 3000 sample_session).
  - cbn. lia.
  - cbn. lia.
Defined.

(** X15.  A session in which nothing was recorded (no accepted pointer
    move, no click, no scroll) reads, at any analysis after the first
    millisecond and in any engine, as the neutral defaults, and is shown as the one trait
    Attentive with the adaptive insight. *)
Theorem idle_session_reads_as_attentive maxArguments now a :
  mouseData a = [] -> clickData a = [] -> scrollData a = [] -> movementPoints a = [] ->
  (0 < now - sessionStart a < 2 ^ 53)%Z ->
  updateAnalysis maxArguments now a
  = Normal (neutral_defaults, [Label.Attentive], Insight.adaptive).
Proof.
  intros Hm Hc Hs Hp Hnow. unfold updateAnalysis.
  rewrite analyzeBehaviorPatterns_within by (rewrite Hs; cbn; lia).
  rewrite Hm, Hc, Hs, Hp. cbn [bind].
  change (of_length (List.length (@nil ClickSample.t))) with 0.
  rewrite (FloatSigns.zero_div _ (FloatSigns.minutes_positive _ Hnow)).
  reflexivity.
Qed.

Lemma idle_session_reads_as_attentive_witness :
  updateAnalysis 100 3000 (this (run [keydown "a"] (startup 0 0 [])))
  = Normal (neutral_defaults, [Label.Attentive], Insight.adaptive).
Proof.
  apply idle_session_reads_as_attentive; try reflexivity. cbn. lia.
Defined.

(* ================================================================== *)
(** ** Scroll velocities and their maximum *)

Lemma Math_max2_nan_r a v : is_nan v = true -> Math_max2 a v = nan.
Proof. intros H. unfold Math_max2. rewrite H, orb_true_r. reflexivity. Qed.

Lemma fold_Math_max2_nan l : fold_left Math_max2 l nan = nan.
Proof. induction l as [| b l IH]; [reflexivity | exact IH]. Qed.

Lemma fold_Math_max2_poisoned l : forall acc,
  Exists (fun v => is_nan v = true) l -> fold_left Math_max2 l acc = nan.
Proof.
  induction l as [| b l IH]; intros acc H; inversion H as [? ? Hb | ? ? Hl]; subst;
    cbn [fold_left].
  - rewrite (Math_max2_nan_r acc b Hb). apply fold_Math_max2_nan.
  - apply IH, Hl.
Qed.

Lemma scrollIntensity_poisoned maxArguments now a s :
  In s (scrollData a) -> is_nan (ScrollSample.velocity s) = true ->
  (List.length (scrollData a) <= maxArguments)%nat ->
  exists p,
    analyzeBehaviorPatterns maxArguments now a = Normal p
    /\ is_nan (scrollIntensity p) = true
    /\ ~ In Label.Energetic (generatePersonalityProfile p)
    /\ scrollPattern (analysisView p) = "Плавный"%string.
Proof.
  intros Hin Hnan Hlen. rewrite (analyzeBehaviorPatterns_within _ _ _ Hlen).
  eexists. split; [reflexivity |].
  set (p := {| avgSpeed := _ |}).
  assert (Hs : scrollIntensity p = nan).
  { unfold p. cbn [scrollIntensity].
    destruct (scrollData a) as [| s0 l] eqn:E; [destruct Hin |]. cbn [List.length Nat.ltb Nat.leb].
    unfold Math_max. apply fold_Math_max2_poisoned.
    apply Exists_exists. exists (ScrollSample.velocity s). split; [| exact Hnan].
    apply in_map, Hin. }
  split; [rewrite Hs; reflexivity |]. split.
  - rewrite (In_profile Label.Energetic p) by discriminate.
    rewrite In_fired_rows, Hs.
    change (100 <? nan) with false.
    intuition (try discriminate; try congruence).
  - unfold analysisView. cbn [scrollPattern]. rewrite Hs. reflexivity.
Qed.

(** X16.  A NaN scroll velocity is never got rid of: once one is stored,
    no later analysis has a number as its scroll intensity, whatever is
    scrolled afterwards.  While [scrollData] is within what the spread
    call [Math.max(...)] takes, the analysis has a NaN scroll intensity,
    shows the scroll pattern as smooth and never gives the trait
    Energetic; once [scrollData] is longer, it throws a [RangeError]. *)
Theorem NaN_scroll_velocity_is_permanent page s events maxArguments now :
  In s (scrollData (this page)) -> is_nan (ScrollSample.velocity s) = true ->
  let a := this (run events page) in
  ((List.length (scrollData a) <= maxArguments)%nat ->
   exists p,
     analyzeBehaviorPatterns maxArguments now a = Normal p
     /\ is_nan (scrollIntensity p) = true
     /\ ~ In Label.Energetic (generatePersonalityProfile p)
     /\ scrollPattern (analysisView p) = "Плавный"%string)
  /\ ((maxArguments < List.length (scrollData a))%nat ->
      analyzeBehaviorPatterns maxArguments now a = RangeError).
Proof.
  intros Hin Hnan a. split.
  - apply (scrollIntensity_poisoned maxArguments now a s); [| exact Hnan].
    unfold a.
    destruct (run_grows events page) as (_ & _ & scrolls & _ & _ & _ & H & _).
    rewrite H. apply in_or_app. left. exact Hin.
  - apply analyzeBehaviorPatterns_beyond.
Qed.

Lemma handleScroll_twice_then_once t window t' window' a :
  is_finite (scrollY window) = true ->
  exists entries entry,
    scrollData (handleScroll t' window' (handleScroll t window (handleScroll t window a)))
    = entries ++ [entry]
    /\ is_nan (ScrollSample.velocity entry) = true.
Proof.
  intros Hfin. unfold handleScroll at 1. cbn [scrollData].
  eexists _, _. split; [reflexivity |]. cbn [ScrollSample.velocity].
  erewrite calculateScrollVelocity_two_stored.
  2:{ cbn [handleScroll scrollData]. rewrite <- app_assoc. reflexivity. }
  cbn [ScrollSample.position ScrollSample.timestamp].
  rewrite (FloatSigns.sub_self _ Hfin), Z.sub_diag. reflexivity.
Qed.

(** X17.  Two scroll events handled in the same millisecond at the same
    (finite) offset make the next scroll event store a NaN velocity: the
    quotient is 0 / 0. *)
Theorem repeated_scroll_reading_stores_NaN page t window t' window' :
  is_finite (scrollY window) = true ->
  exists entries entry,
    scrollData (this (run [scroll t window; scroll t window; scroll t' window'] page))
    = entries ++ [entry]
    /\ is_nan (ScrollSample.velocity entry) = true.
Proof.
  intros Hfin. cbn [run fold_left dispatch this].
  apply handleScroll_twice_then_once, Hfin.
Qed.

Lemma repeated_scroll_reading_stores_NaN_witness :
  exists entries entry,
    scrollData (this (run [scroll 10 (mkWindow 1000 800 250); scroll 10 (mkWindow 1000 800 250);
                           scroll 900 (mkWindow 1000 800 400)] (startup 0 0 [])))
    = entries ++ [entry]
    /\ is_nan (ScrollSample.velocity entry) = true.
Proof.
  apply (repeated_scroll_reading_stores_NaN (startup 0 0 []) 10 (mkWindow 1000 800 250)).
  reflexivity.
Defined.

Lemma NaN_scroll_velocity_is_permanent_witness :
  let page := run [scroll 10 (mkWindow 1000 800 250); scroll 10 (mkWindow 1000 800 250);
                   scroll 900 (mkWindow 1000 800 400)] (startup 0 0 []) in
  let a := this (run [scroll 1000 (mkWindow 1000 800 0); scroll 1001 (mkWindow 1000 800 9000)]
                     page) in
  (exists p,
     analyzeBehaviorPatterns 100 5000 a = Normal p
     /\ is_nan (scrollIntensity p) = true
     /\ ~ In Label.Energetic (generatePersonalityProfile p)
     /\ scrollPattern (analysisView p) = "Плавный"%string)
  /\ analyzeBehaviorPatterns 4 5000 a = RangeError.
Proof.
  intros page a.
  assert (Hin : In {| ScrollSample.position := 400; ScrollSample.timestamp := 900;
                      ScrollSample.velocity := nan |} (scrollData (this page))).
  { right. right. left. vm_compute. reflexivity. }
  split.
  - apply (NaN_scroll_velocity_is_permanent page _ _ 100 5000 Hin eq_refl).
    cbn. lia.
  - apply (NaN_scroll_velocity_is_permanent page _ _ 4 5000 Hin eq_refl).
    cbn. lia.
Defined.

(** *** The maximum *)

Lemma Math_max2_neg_infinity v : is_nan v = false -> Math_max2 neg_infinity v = v.
Proof.
  intros H. unfold Math_max2. rewrite H. change (is_nan neg_infinity) with false.
  cbn [orb]. destruct (neg_infinity <? v); [reflexivity |].
  replace (v <? neg_infinity) with false; [reflexivity |].
  symmetry. rewrite ltb_spec.
  change (Prim2SF neg_infinity) with (S754_infinity true).
  destruct (Prim2SF v) as [[|] | [|] | | [|] m e]; reflexivity.
Qed.

Lemma Math_max2_spec a b :
  is_nan a = false -> is_nan b = false ->
  (Math_max2 a b = a \/ Math_max2 a b = b)
  /\ (a <=? Math_max2 a b) = true /\ (b <=? Math_max2 a b) = true.
Proof.
  intros Ha Hb. unfold Math_max2. rewrite Ha, Hb. cbn [orb].
  destruct (a <? b) eqn:Hab.
  - split; [right; reflexivity |].
    split; [apply FloatFacts.ltb_leb, Hab | apply FloatOrder.leb_refl, Hb].
  - destruct (b <? a) eqn:Hba.
    + split; [left; reflexivity |].
      split; [apply FloatOrder.leb_refl, Ha | apply FloatFacts.ltb_leb, Hba].
    + pose proof (FloatOrder.not_ltb_leb a b Ha Hb Hab) as H1.
      pose proof (FloatOrder.not_ltb_leb b a Hb Ha Hba) as H2.
      destruct (get_sign a).
      * split; [right; reflexivity |].
        split; [exact H2 | apply FloatOrder.leb_refl, Hb].
      * split; [left; reflexivity |].
        split; [apply FloatOrder.leb_refl, Ha | exact H1].
Qed.

Lemma fold_Math_max2_spec l : forall acc,
  is_nan acc = false -> Forall (fun v => is_nan v = false) l ->
  is_nan (fold_left Math_max2 l acc) = false
  /\ (fold_left Math_max2 l acc = acc \/ In (fold_left Math_max2 l acc) l)
  /\ (acc <=? fold_left Math_max2 l acc) = true
  /\ Forall (fun v => (v <=? fold_left Math_max2 l acc) = true) l.
Proof.
  induction l as [| b l IH]; intros acc Hacc Hl; cbn [fold_left].
  - split; [exact Hacc |]. split; [left; reflexivity |].
    split; [apply FloatOrder.leb_refl, Hacc | constructor].
  - inversion Hl as [| ? ? Hb Hrest]; subst.
    destruct (Math_max2_spec acc b Hacc Hb) as (Hcase & Hle_a & Hle_b).
    assert (Hm : is_nan (Math_max2 acc b) = false)
      by (destruct Hcase as [-> | ->]; assumption).
    destruct (IH (Math_max2 acc b) Hm Hrest) as (Hnan & Hin & Hle & Hall).
    split; [exact Hnan |]. split; [| split].
    + destruct Hin as [Heq | Hin]; [| right; right; exact Hin].
      rewrite Heq. destruct Hcase as [-> | ->]; [left; reflexivity | right; left; reflexivity].
    + eapply FloatOrder.leb_trans; eassumption.
    + constructor; [| exact Hall]. eapply FloatOrder.leb_trans; eassumption.
Qed.

(** X18.  When no stored velocity is NaN and [scrollData] is within what
    the spread call [Math.max(...)] takes, the scroll intensity of a
    session with scroll entries is the largest stored velocity: it is
    the velocity of one of the entries, and none is above it. *)
Theorem scrollIntensity_is_the_largest_velocity maxArguments now a :
  scrollData a <> [] ->
  Forall (fun s => is_nan (ScrollSample.velocity s) = false) (scrollData a) ->
  (List.length (scrollData a) <= maxArguments)%nat ->
  exists p,
    analyzeBehaviorPatterns maxArguments now a = Normal p
    /\ (exists s, In s (scrollData a) /\ scrollIntensity p = ScrollSample.velocity s)
    /\ Forall (fun s => (ScrollSample.velocity s <=? scrollIntensity p) = true) (scrollData a).
Proof.
  intros Hne Hall Hlen. rewrite (analyzeBehaviorPatterns_within _ _ _ Hlen).
  eexists. split; [reflexivity |].
  cbn [scrollIntensity].
  destruct (scrollData a) as [| s0 l] eqn:E; [congruence |].
  cbn [List.length Nat.ltb Nat.leb map]. unfold Math_max. cbn [fold_left].
  inversion Hall as [| ? ? H0 Hrest]; subst.
  rewrite (Math_max2_neg_infinity _ H0).
  destruct (fold_Math_max2_spec (map ScrollSample.velocity l) (ScrollSample.velocity s0) H0)
    as (_ & Hin & Hle & Hothers).
  { apply Forall_map. exact Hrest. }
  split.
  - destruct Hin as [Heq | Hin].
    + exists s0. split; [left; reflexivity | exact Heq].
    + apply in_map_iff in Hin. destruct Hin as (s & Hs & Hin).
      exists s. split; [right; exact Hin | symmetry; exact Hs].
  - constructor; [exact Hle |]. apply Forall_map in Hothers. exact Hothers.
Qed.

(** Five scrolls a second apart, stored with the velocities 0, 0, 100,
    300 and 50: the scroll intensity is 300. *)
Lemma scrollIntensity_is_the_largest_velocity_witness :
  let a := scrolls [(0, 0%Z); (100, 1000%Z); (400, 2000%Z); (450, 3000%Z); (450, 4000%Z)]
                   (constructor 0 0) in
  map ScrollSample.velocity (scrollData a) = [0; 0; 100; 300; 50]
  /\ exists p,
       analyzeBehaviorPatterns 100 5000 a = Normal p
       /\ (exists s, In s (scrollData a) /\ scrollIntensity p = ScrollSample.velocity s)
       /\ Forall (fun s => (ScrollSample.velocity s <=? scrollIntensity p) = true)
                 (scrollData a).
Proof.
  intros a. split; [reflexivity |].
  apply (scrollIntensity_is_the_largest_velocity 100 5000 a).
  - vm_compute. discriminate.
  - vm_compute. repeat constructor.
  - vm_compute. lia.
Defined.

(* ================================================================== *)
(** ** Clicks in one millisecond *)

Lemma sort_by_constant t n : sort_by ascending_order (repeat t n) = repeat t n.
Proof.
  apply sort_by_ascending; [reflexivity |].
  induction n as [| n IH]; cbn [repeat]; [constructor |].
  constructor; [exact IH |]. destruct n; cbn [repeat]; constructor. lia.
Qed.

Lemma constant_map {A B} (f : A -> B) (b : B) (l : list A) :
  Forall (fun a => f a = b) l -> map f l = repeat b (List.length l).
Proof.
  induction 1 as [| a l Ha _ IH]; [reflexivity |]. cbn. rewrite Ha, IH. reflexivity.
Qed.

Lemma last_repeat {A} (a : A) n : forall d,
  last (repeat a n) d = match n with O => d | S _ => a end.
Proof.
  induction n as [| n IH]; intros d; [reflexivity |].
  cbn [repeat]. rewrite last_cons, IH. destruct n; reflexivity.
Qed.

(** X19.  Two or more clicks that all carry the same timestamp have a
    mean interval of 0 ms; the quotient 1000 / 0 is Infinity and the
    decision speed is exactly 1. *)
Theorem clicks_in_one_millisecond_score_1 a t :
  (2 <= List.length (clickData a))%nat ->
  (Z.of_nat (List.length (clickData a)) <= 2 ^ 32)%Z ->
  Forall (fun c => ClickSample.timestamp c = t) (clickData a) ->
  calculateDecisionSpeed a = Normal 1.
Proof.
  intros Hlen Hmax Hall. rewrite calculateDecisionSpeed_eq.
  rewrite (constant_map _ t _ Hall), sort_by_constant.
  unfold Spec.decisionSpeed, Spec.meanInterval.
  rewrite repeat_length.
  replace (List.length (clickData a) <? 2)%nat with false
    by (symmetry; apply Nat.ltb_ge; exact Hlen).
  unfold Spec.intervals at 2. rewrite consecutive_length, repeat_length.
  destruct (List.length (clickData a)) as [| n] eqn:En; [lia |].
  cbn [repeat]. rewrite intervals_telescope, last_repeat.
  replace (match n with O => t | S _ => t end - t)%Z with 0%Z by (destruct n; lia).
  change (Z2F 0) with 0.
  rewrite FloatSigns.zero_div; [reflexivity |].
  apply FloatFacts.of_length_positive; lia.
Qed.

Lemma clicks_in_one_millisecond_score_1_witness :
  calculateDecisionSpeed
    (this (run [click 700 (mkMouseEvent 1 2 None); click 700 (mkMouseEvent 3 4 None)]
               (startup 0 0 [])))
  = Normal 1.
Proof.
  apply (clicks_in_one_millisecond_score_1 _ 700).
  - cbn. lia.
  - cbn. lia.
  - repeat constructor.
Defined.

(* ================================================================== *)
(** ** Distances *)

Lemma binary_round_aux_opp s m e l :
  binary_round_aux prec emax (negb s) m e l = SFopp (binary_round_aux prec emax s m e l).
Proof.
  unfold binary_round_aux.
  destruct (shr_fexp prec emax m e l) as [mrs' e'].
  destruct (shr_fexp prec emax _ e' loc_Exact) as [mrs'' e''].
  destruct (shr_m mrs''); [reflexivity | | reflexivity].
  destruct (e'' <=? emax - prec)%Z; reflexivity.
Qed.

Lemma binary_normalize_opp m e :
  binary_normalize prec emax (- m) e false = SFopp (binary_normalize prec emax m e false)
  \/ (m = 0%Z).
Proof.
  destruct m as [| p | p]; [right; reflexivity | left | left];
    unfold binary_normalize, binary_round; cbn [Z.opp];
    destruct (shl_align _ e _) as [mz ez];
    [ apply (binary_round_aux_opp false) | apply (binary_round_aux_opp true) ].
Qed.

Lemma SFmul_opp_opp x : SF64mul (SFopp x) (SFopp x) = SF64mul x x.
Proof.
  destruct x as [s | s | | s m e]; try reflexivity; destruct s; reflexivity.
Qed.

(** The square of a difference does not depend on the order of its
    operands. *)
Lemma SFsub_square_sym x y :
  SF64mul (SF64sub x y) (SF64sub x y) = SF64mul (SF64sub y x) (SF64sub y x).
Proof.
  assert (H : SF64sub y x = SFopp (SF64sub x y) \/ SF64sub y x = SF64sub x y).
  { destruct x as [sx | sx | | sx mx ex], y as [sy | sy | | sy my ey];
      try (left; reflexivity); try (destruct sx, sy; (left; reflexivity) || (right; reflexivity)).
    unfold SF64sub, SFsub. rewrite (Z.min_comm ey ex).
    set (a := cond_Zopp sx _). set (b := cond_Zopp sy _).
    replace (b - a)%Z with (- (a - b))%Z by lia.
    destruct (binary_normalize_opp (a - b) (Z.min ex ey)) as [H | H];
      [left; exact H | right; rewrite H; reflexivity]. }
  destruct H as [-> | ->]; [symmetry; apply SFmul_opp_opp | reflexivity].
Qed.

Lemma calculateDistance_self x y :
  is_finite x = true -> is_finite y = true -> calculateDistance x y x y = 0.
Proof.
  intros Hx Hy. unfold calculateDistance, Math_pow_2.
  rewrite (FloatSigns.sub_self x Hx), (FloatSigns.sub_self y Hy). reflexivity.
Qed.

(** X20.  The distance between two points is never negative and does
    not depend on the order of the points; between finite points it is
    a number, and it is 0 from a finite point to itself. *)
Theorem calculateDistance_is_a_distance :
  (forall x1 y1 x2 y2,
     (calculateDistance x1 y1 x2 y2 <? 0) = false
     /\ calculateDistance x1 y1 x2 y2 = calculateDistance x2 y2 x1 y1)
  /\ (forall x1 y1 x2 y2,
        is_finite x1 = true -> is_finite y1 = true ->
        is_finite x2 = true -> is_finite y2 = true ->
        is_nan (calculateDistance x1 y1 x2 y2) = false
        /\ (0 <=? calculateDistance x1 y1 x2 y2) = true)
  /\ (forall x y,
        is_finite x = true -> is_finite y = true -> calculateDistance x y x y = 0).
Proof.
  split; [| split].
  - intros x1 y1 x2 y2. split.
    + apply FloatSigns.nn_not_negative, calculateDistance_nn.
    + unfold calculateDistance, Math_sqrt, Math_pow_2.
      f_equal. f_equal; apply Prim2SF_inj; rewrite !mul_spec, !sub_spec;
        apply SFsub_square_sym.
  - intros x1 y1 x2 y2 Hx1 Hy1 Hx2 Hy2.
    apply FloatSigns.of_sign_not_negative, calculateDistance_nonneg; assumption.
  - exact calculateDistance_self.
Qed.

Lemma calculateDistance_is_a_distance_witness :
  (is_nan (calculateDistance 0 0 3 4) = false /\ (0 <=? calculateDistance 0 0 3 4) = true)
  /\ calculateDistance 3 4 3 4 = 0.
Proof.
  destruct calculateDistance_is_a_distance as (_ & Hnum & Hzero).
  split; [apply Hnum | apply Hzero]; reflexivity.
Defined.

(* ================================================================== *)
(** ** A pointer that stays where it is *)

Lemma stepSpeed_stationary p q :
  MovementPoint.x q = MovementPoint.x p -> MovementPoint.y q = MovementPoint.y p ->
  is_finite (MovementPoint.x p) = true -> is_finite (MovementPoint.y p) = true ->
  (0 < MovementPoint.time q - MovementPoint.time p < 2 ^ 53)%Z ->
  Spec.stepSpeed p q = 0.
Proof.
  intros Hx Hy Hfx Hfy Ht. unfold Spec.stepSpeed.
  rewrite Hx, Hy.
  change (Spec.distance (MovementPoint.x p) (MovementPoint.y p)
                        (MovementPoint.x p) (MovementPoint.y p))
    with (calculateDistance (MovementPoint.x p) (MovementPoint.y p)
                            (MovementPoint.x p) (MovementPoint.y p)).
  rewrite (calculateDistance_self _ _ Hfx Hfy).
  apply FloatSigns.zero_div, FloatSigns.seconds_positive, Ht.
Qed.

Lemma perStepSpeeds_stationary x y points :
  is_finite x = true -> is_finite y = true ->
  Forall (fun p => MovementPoint.x p = x /\ MovementPoint.y p = y) points ->
  ticking (map MovementPoint.time points) ->
  Spec.perStepSpeeds points = repeat 0 (List.length points - 1).
Proof.
  intros Hx Hy. unfold Spec.perStepSpeeds.
  induction points as [| p [| q points] IH]; intros Hall Ht; [reflexivity | reflexivity |].
  inversion Hall as [| ? ? [Hpx Hpy] Hrest]; subst.
  inversion Hrest as [| ? ? [Hqx Hqy] _]; subst.
  cbn [map ticking] in Ht. destruct Ht as [Hstep Ht].
  change (Spec.consecutive Spec.stepSpeed (p :: q :: points))
    with (Spec.stepSpeed p q :: Spec.consecutive Spec.stepSpeed (q :: points)).
  rewrite (IH Hrest Ht), stepSpeed_stationary by (assumption || congruence).
  cbn [List.length Nat.sub repeat]. rewrite Nat.sub_0_r. reflexivity.
Qed.

Lemma fold_add_zeros k : fold_left add (repeat 0 k) 0 = 0.
Proof. induction k as [| k IH]; [reflexivity | exact IH]. Qed.

Lemma fold_squares_zeros k :
  fold_left (fun acc b => acc + (b - 0) * (b - 0)) (repeat 0 k) 0 = 0.
Proof. induction k as [| k IH]; [reflexivity | exact IH]. Qed.

Lemma variance_zeros k :
  (0 < k)%nat -> (Z.of_nat k < 2 ^ 32)%Z -> Spec.variance (repeat 0 k) = 0.
Proof.
  intros Hk Hmax.
  pose proof (FloatFacts.of_length_positive k Hk Hmax) as Hpos.
  assert (Hmean : Spec.mean (repeat 0 k) = 0).
  { unfold Spec.mean, Spec.sum. rewrite repeat_length.
    destruct k as [| k]; [lia |]. cbn [repeat]. rewrite fold_add_zeros.
    apply FloatSigns.zero_div, Hpos. }
  unfold Spec.variance. rewrite Hmean, repeat_length, fold_squares_zeros.
  apply FloatSigns.zero_div, Hpos.
Qed.

(** X21.  Ten or more movement points that all lie at one finite
    position, taken a positive whole number of milliseconds apart, have
    speeds, mean and variance 0: the movement consistency is exactly 1. *)
Theorem stationary_pointer_is_fully_consistent a x y :
  (10 <= List.length (movementPoints a))%nat ->
  (Z.of_nat (List.length (movementPoints a)) <= 2 ^ 32)%Z ->
  is_finite x = true -> is_finite y = true ->
  Forall (fun p => MovementPoint.x p = x /\ MovementPoint.y p = y) (movementPoints a) ->
  ticking (map MovementPoint.time (movementPoints a)) ->
  calculateMovementConsistency a = Normal 1.
Proof.
  intros Hlen Hmax Hx Hy Hall Ht.
  rewrite calculateMovementConsistency_eq. unfold Spec.movementConsistency.
  replace (List.length (movementPoints a) <? 10)%nat with false
    by (symmetry; apply Nat.ltb_ge; exact Hlen).
  rewrite (perStepSpeeds_stationary x y _ Hx Hy Hall Ht), variance_zeros by lia.
  reflexivity.
Qed.

Lemma stationary_pointer_is_fully_consistent_witness :
  calculateMovementConsistency
    (moves (map gate_call [100; 200; 300; 400; 500; 600; 700; 800; 900; 1000]%Z)
           (constructor 0 0))
  = Normal 1.
Proof.
  apply (stationary_pointer_is_fully_consistent _ 0 0).
  - vm_compute. lia.
  - vm_compute. discriminate.
  - reflexivity.
  - reflexivity.
  - vm_compute. repeat constructor.
  - vm_compute. repeat split.
Defined.

(* ================================================================== *)
(** ** The intense cells of the heat map *)

Lemma Prim2SF_10 : Prim2SF 10 = S754_finite false 5629499534213120 (-49).
Proof. reflexivity. Qed.

Lemma Prim2SF_0_7 : Prim2SF 0.7 = S754_finite false 6305039478318694 (-53).
Proof. reflexivity. Qed.

(** A tenth of a count of 16 or more is above 0.7. *)
Lemma tenth_above_0_7 n :
  (16 <= n)%nat -> (Z.of_nat n < 2 ^ 32)%Z ->
  is_nan (of_length n / 10) = false /\ (0.7 <? of_length n / 10) = true.
Proof.
  intros Hn Hmax.
  assert (Hq : Binary64Order.normal_in (-52) 1000 (Prim2SF (of_length n / 10))).
  { rewrite div_spec, Prim2SF_10.
    pose proof (FloatSigns.SFdiv_normal_in (-48) 0 (-49) (-49)
                  (Prim2SF (of_length n)) (S754_finite false 5629499534213120 (-49))) as H.
    eapply FloatSigns.normal_widen; [| | apply H]; try lia.
    - apply (FloatSigns.Z2F_normal_from 4); [lia |].
      change (2 ^ 4)%Z with 16%Z. split; [lia |].
      eapply Z.lt_trans; [exact Hmax | reflexivity].
    - cbn [Binary64Order.normal_in]. split; [reflexivity | lia]. }
  split.
  - apply FloatFacts.is_nan_false.
    destruct (Prim2SF (of_length n / 10)) as [s | s | | [|] m e]; cbn in Hq;
      try contradiction; exact I.
  - rewrite ltb_spec, Prim2SF_0_7.
    destruct (Prim2SF (of_length n / 10)) as [s | s | | [|] m e];
      cbn [Binary64Order.normal_in] in Hq; try contradiction.
    destruct Hq as [_ He]. unfold SFltb, SFcompare.
    replace (-53 ?= e)%Z with Lt by (symmetry; apply Z.compare_lt_iff; lia).
    reflexivity.
Qed.

Lemma intensity_above_0_7 n :
  (Z.of_nat n < 2 ^ 32)%Z ->
  (0.7 <? Math_min2 (of_length n / 10) 1) = (8 <=? n)%nat.
Proof.
  intros Hmax.
  destruct (Nat.lt_ge_cases n 16) as [Hsmall | Hbig].
  - clear Hmax. do 16 (destruct n as [| n]; [reflexivity |]). lia.
  - destruct (tenth_above_0_7 n Hbig Hmax) as [Hnan Hlt].
    replace (8 <=? n)%nat with true by (symmetry; apply Nat.leb_le; lia).
    unfold Math_min2. rewrite Hnan. change (is_nan 1) with false. cbn [orb].
    destruct (of_length n / 10 <? 1); [exact Hlt |].
    destruct (1 <? of_length n / 10); [reflexivity |].
    destruct (get_sign (of_length n / 10)); [exact Hlt | reflexivity].
Qed.

Lemma last_tl_snoc {A} (l : list A) (a d : A) :
  l <> [] -> last (tl (l ++ [a])) d = a.
Proof.
  destruct l as [| b l]; [congruence |]. intros _. cbn [app tl]. apply last_last.
Qed.

(** X22.  The cell a click adds to the heat map is the last node of the
    container, carries the next creation number, and is marked intense
    exactly when eight or more clicks are stored. *)
Theorem heatmap_cell_is_intense_from_the_8th_click x y a doc :
  (Z.of_nat (List.length (clickData a)) < 2 ^ 32)%Z ->
  last (clickHeatmap (updateClickHeatmap x y a doc)) (TextNode "")
  = ElementNode {| nodeId := created doc;
                   classList := cell_classes (List.length (clickData a)) |}.
Proof.
  intros Hmax. unfold updateClickHeatmap. cbn [clickHeatmap].
  rewrite (intensity_above_0_7 _ Hmax). fold (cell_classes (List.length (clickData a))).
  set (cell := {| nodeId := created doc; classList := _ |}).
  destruct (50 <? List.length (children (clickHeatmap doc ++ [ElementNode cell])))%nat eqn:Hfull.
  - apply last_tl_snoc. intros Hnil. rewrite Hnil in Hfull. discriminate Hfull.
  - apply last_last.
Qed.

Lemma heatmap_cell_is_intense_from_the_8th_click_witness :
  let page := run (repeat (click 0 {| clientX := 5; clientY := 5; pressure := None |}) 8)
                  (startup 0 0 []) in
  last (clickHeatmap (updateClickHeatmap 5 5 (this page) (document page))) (TextNode "")
  = ElementNode {| nodeId := 8; classList := ["heatmap-cell"; "active"; "intense"]%string |}.
Proof.
  intros page.
  refine (heatmap_cell_is_intense_from_the_8th_click 5 5 (this page) (document page) _).
  vm_compute. reflexivity.
Defined.

(* ================================================================== *)
(** ** What the stored speeds and velocities are measured between *)

Lemma consecutive_snoc {A B} (f : A -> A -> B) (l : list A) : forall a b,
  Spec.consecutive f ((l ++ [a]) ++ [b]) = Spec.consecutive f (l ++ [a]) ++ [f a b].
Proof.
  induction l as [| c l IH]; intros a b; [reflexivity |].
  destruct l as [| d l].
  - reflexivity.
  - change (Spec.consecutive f (((c :: d :: l) ++ [a]) ++ [b]))
      with (f c d :: Spec.consecutive f (((d :: l) ++ [a]) ++ [b])).
    rewrite IH. reflexivity.
Qed.

Lemma handleMouseMove_speeds_follow_track now' now window event a :
  speeds_follow_track now' a ->
  speeds_follow_track now' (handleMouseMove now window event a).
Proof.
  intros [Hspeeds Hlast]. unfold handleMouseMove.
  destruct (50 <? now - lastMoveTime a)%Z; [| split; assumption].
  unfold speeds_follow_track, pointer_track in *.
  cbn [mouseData lastMousePosition lastMoveTime fst snd].
  rewrite !map_app. cbn [map PointerSample.speed PointerSample.x PointerSample.y
                         PointerSample.timestamp].
  set (track := map (fun s => (PointerSample.x s, PointerSample.y s,
                               PointerSample.timestamp s)) (mouseData a)) in *.
  split; [| rewrite app_comm_cons; apply last_last].
  destruct (exists_last (l := (0, 0, now') :: track) ltac:(discriminate)) as (l & p & El).
  rewrite app_comm_cons, El in *.
  rewrite last_last in Hlast. subst p.
  rewrite consecutive_snoc, <- Hspeeds. reflexivity.
Qed.

Lemma run_speeds_follow_track now' events : forall page,
  speeds_follow_track now' (this page) ->
  speeds_follow_track now' (this (run events page)).
Proof.
  induction events as [| e events IH]; intros page H; [exact H |].
  cbn [run fold_left]. apply IH.
  destruct e as [now window event | now event | now window | key]; cbn [dispatch this];
    try exact H.
  apply handleMouseMove_speeds_follow_track, H.
Qed.

(** X23.  Every stored pointer speed is measured from the sample stored
    before it: the distance between the two positions over the seconds
    between the two timestamps.  The first one is measured from the
    origin (0, 0) and from the time of construction, wherever the
    pointer was. *)
Theorem pointer_speed_is_measured_from_the_previous_sample events now now' childNodes :
  let a := this (run events (startup now now' childNodes)) in
  map PointerSample.speed (mouseData a)
  = Spec.consecutive speed_between (pointer_track now' (mouseData a)).
Proof.
  apply (run_speeds_follow_track now' events (startup now now' childNodes)).
  split; reflexivity.
Qed.

Lemma consecutive_app_length {A B} (f : A -> A -> B) (l : list A) (a : A) :
  List.length (Spec.consecutive f (l ++ [a])) = List.length l.
Proof. rewrite consecutive_length, length_app. cbn. lia. Qed.

Lemma handleScroll_velocities_lag now window a :
  velocities_lag (scrollData a) -> velocities_lag (scrollData (handleScroll now window a)).
Proof.
  unfold velocities_lag, handleScroll. cbn [scrollData].
  set (entry := {| ScrollSample.position := _ |}).
  intros H. rewrite map_app, length_app. cbn [map List.length].
  destruct (scrollData a) as [| last entries] eqn:E using rev_ind.
  - cbn. unfold entry. cbn [ScrollSample.velocity].
    rewrite calculateScrollVelocity_few_stored; [reflexivity |].
    rewrite E. cbn. lia.
  - clear IHentries.
    destruct entries as [| prev older] eqn:E' using rev_ind.
    + clear E'. cbn in H. cbn. f_equal; [congruence |].
      unfold entry. cbn [ScrollSample.velocity].
      rewrite calculateScrollVelocity_few_stored; [reflexivity |].
      rewrite E. cbn. lia.
    + clear IHolder.
      assert (Hv : ScrollSample.velocity entry = velocity_between prev last).
      { unfold entry. cbn [ScrollSample.velocity].
        apply (calculateScrollVelocity_two_stored a older prev last).
        rewrite E, <- app_assoc. reflexivity. }
      rewrite Hv.
      rewrite !consecutive_snoc in *.
      rewrite !length_app in *. cbn [List.length] in *.
      replace (List.length older + 1 + 1)%nat with (S (S (List.length older))) in H by lia.
      replace (List.length older + 1 + 1 + 1)%nat with (S (S (S (List.length older)))) by lia.
      rewrite !firstn_cons in *.
      rewrite firstn_app in H.
      rewrite (consecutive_app_length velocity_between older prev) in H.
      rewrite Nat.sub_diag, firstn_all2, firstn_O, app_nil_r in H
        by (rewrite consecutive_app_length; lia).
      rewrite H, <- app_assoc, firstn_app.
      rewrite (consecutive_app_length velocity_between older prev).
      rewrite firstn_all2 by (rewrite consecutive_app_length; lia).
      replace (S (List.length older) - List.length older)%nat with 1%nat by lia.
      reflexivity.
Qed.

Lemma run_velocities_lag events : forall page,
  velocities_lag (scrollData (this page)) ->
  velocities_lag (scrollData (this (run events page))).
Proof.
  induction events as [| e events IH]; intros page H; [exact H |].
  cbn [run fold_left]. apply IH.
  destruct e as [now window event | now event | now window | key]; cbn [dispatch this];
    try exact H.
  - destruct (handleMouseMove_grows now window event (this page))
      as (_ & _ & _ & _ & _ & -> & _). exact H.
  - apply handleScroll_velocities_lag, H.
Qed.

(** X24.  Over a whole session the stored scroll velocities lag one
    entry behind: the first two are 0, and every later entry holds the
    velocity between the two entries stored before it, so the movement
    of the most recent scroll is not in the buffer yet. *)
Theorem scroll_velocities_lag_one_entry_behind events now now' childNodes :
  let entries := scrollData (this (run events (startup now now' childNodes))) in
  map ScrollSample.velocity entries
  = firstn (List.length entries) (0 :: 0 :: Spec.consecutive velocity_between entries).
Proof.
  apply (run_velocities_lag events (startup now now' childNodes)). reflexivity.
Qed.

(* ================================================================== *)
(** ** The range of the movement consistency *)

Lemma fold_squares_nn (mean : float) l : forall acc,
  Binary64Order.nan_or_nonneg (Prim2SF acc) ->
  Binary64Order.nan_or_nonneg
    (Prim2SF (fold_left (fun acc b => acc + (b - mean) * (b - mean)) l acc)).
Proof.
  induction l as [| b l IH]; intros acc Hacc; [exact Hacc |].
  cbn [fold_left]. apply IH. rewrite add_spec, mul_spec.
  apply FloatSigns.SFadd_nn; [exact Hacc | apply FloatSigns.SFmul_square_nn].
Qed.

Lemma consistency_score_range v :
  Binary64Order.nan_or_nonneg (Prim2SF v) ->
  is_nan (Math_max2 0 (1 - v / 10000)) = true
  \/ Spec.in_unit_interval (Math_max2 0 (1 - v / 10000)) = true.
Proof.
  intros Hv. destruct (FloatSigns.nn_cases _ Hv) as [Hnan | Hsign].
  - left. apply FloatOrder.is_nan_true in Hnan.
    assert (H : is_nan (1 - v / 10000) = true).
    { apply FloatOrder.is_nan_true. rewrite sub_spec, div_spec.
      apply FloatOrder.is_nan_true in Hnan. rewrite Hnan. reflexivity. }
    rewrite (Math_max2_nan_r 0 _ H). reflexivity.
  - right. apply FloatFacts.consistency_score_in_unit_interval, Hsign.
Qed.

(** X25.  Whatever the movement points hold (also NaN or infinite
    coordinates, equal or descending timestamps), the movement
    consistency is NaN or lies between 0 and 1. *)
Theorem movementConsistency_is_NaN_or_in_the_unit_interval a :
  exists r,
    calculateMovementConsistency a = Normal r
    /\ (is_nan r = true \/ Spec.in_unit_interval r = true).
Proof.
  rewrite calculateMovementConsistency_eq. eexists. split; [reflexivity |].
  unfold Spec.movementConsistency.
  destruct (List.length (movementPoints a) <? 10)%nat; [right; reflexivity |].
  apply consistency_score_range.
  unfold Spec.variance. rewrite div_spec.
  apply FloatSigns.SFdiv_nn.
  - apply fold_squares_nn. reflexivity.
  - apply FloatFacts.Z2F_nonneg. lia.
Qed.
